(** * Streaming response interpreter of [AsyncAnamnesisModelClient]

    A shallow embedding of [src/utils/Create_model_client.py]: message
    construction ([_prepare_messages]), the consumption loop and the
    finalization of [_stream_and_process_response_async], and the public
    entry point [run].

    Python values are modelled as follows.
    - [str] is a list of Unicode code points ([PyStr.str]); the methods the
      client calls on it ([find], [in], slicing, [strip], [+]) are modelled in
      [Module PyStr].
    - [print] and the [loguru] logger write to an explicit [World]; code that
      can raise lives in the monad [M] (state plus exceptions).  [print]
      raises [UnicodeEncodeError] for a text that the encoding of standard
      output, a part of the [World], cannot encode.
    - The [openai] client is seen through the one method the client calls:
      what a call returns or raises, and how many times the library sent the
      request again (it is built with the default [max_retries] of 2).
    - [json.loads] and [json.dumps] belong to the Python standard library, not
      to the client: the client is parametrised over them, and [Module Json]
      gives a reference decoder and encoder to run the client on concrete
      streams. *)

From Stdlib Require Import String Ascii List ZArith NArith Bool Lia.
Import ListNotations.

Set Implicit Arguments.
Set Warnings "-register-all".

(* ================================================================== *)
(** ** Python strings *)
(* ================================================================== *)

Module PyStr.

(** A character is a code point; a [str] is a sequence of them. *)
Definition char : Type := N.
Definition str : Type := list char.

(** An ASCII literal of the source, as a [str]. *)
Definition lit (s : string) : str :=
  map N_of_ascii (list_ascii_of_string s).

Fixpoint eqb (a b : str) : bool :=
  match a, b with
  | [], [] => true
  | x :: a', y :: b' => N.eqb x y && eqb a' b'
  | _, _ => false
  end.

(** [len(s)] *)
Definition len (s : str) : Z := Z.of_nat (List.length s).

(** [c.isspace()] for one code point: the white space of CPython's
    [_PyUnicode_IsWhitespace], which is what [str.strip()] removes. *)
Definition isspace (c : char) : bool :=
  ((9 <=? c) && (c <=? 13) ||
   (28 <=? c) && (c <=? 32) ||
   (c =? 133) || (c =? 160) || (c =? 5760) ||
   (8192 <=? c) && (c <=? 8202) ||
   (c =? 8232) || (c =? 8233) || (c =? 8239) || (c =? 8287) ||
   (c =? 12288))%N.

(** [s.lstrip()], [s.rstrip()], [s.strip()] *)
Fixpoint lstrip (s : str) : str :=
  match s with
  | [] => []
  | c :: s' => if isspace c then lstrip s' else s
  end.

Definition rstrip (s : str) : str := rev (lstrip (rev s)).

Definition strip (s : str) : str := rstrip (lstrip s).

(** [s.startswith(p)] *)
Fixpoint startswith (p s : str) : bool :=
  match p, s with
  | [], _ => true
  | _ :: _, [] => false
  | x :: p', y :: s' => N.eqb x y && startswith p' s'
  end.

(** [s.find(sub)]: the lowest index at which [sub] occurs in [s], or [-1].
    [find_from sub s i] scans [s], which starts at index [i] of the whole
    string. *)
Fixpoint find_from (sub s : str) (i : Z) : Z :=
  if startswith sub s then i
  else match s with
       | [] => (-1)%Z
       | _ :: s' => find_from sub s' (i + 1)%Z
       end.

Definition find (s sub : str) : Z := find_from sub s 0%Z.

(** [sub in s] *)
Fixpoint contains (sub s : str) : bool :=
  startswith sub s ||
  match s with
  | [] => false
  | _ :: s' => contains sub s'
  end.

(** Slicing [s[lo:hi]] and [s[lo:]] (step 1).  A negative bound counts from
    the end, and bounds are clamped to [0 .. len(s)], as Python does. *)
Definition adjust (i n : Z) : Z :=
  (if i <? 0 then (if i + n <? 0 then 0 else i + n)
   else if n <? i then n else i)%Z.

Definition slice (s : str) (lo : Z) (hi : option Z) : str :=
  let n := len s in
  let a := adjust lo n in
  let b := match hi with None => n | Some h => adjust h n end in
  if (a <? b)%Z then firstn (Z.to_nat (b - a)) (skipn (Z.to_nat a) s)
  else [].

End PyStr.

Abbreviation str := PyStr.str.

(** A literal with double quotes inside (JSON text), written with single
    quotes standing for them. *)
Definition dq (s : string) : str :=
  map (fun c => if (c =? 39)%N then 34%N else c) (PyStr.lit s).

(* ================================================================== *)
(** ** A reference model of [json.loads] and [json.dumps] *)
(* ================================================================== *)

(** The decoder follows CPython's [json.decoder] and [json.scanner]
    ([JSONDecoder.decode], [scan_once], [JSONObject], [JSONArray],
    [scanstring] in strict mode); the encoder follows [json.dumps] with
    [ensure_ascii=False, indent=2], the arguments the client passes.  A
    floating point number is kept as the text of its literal: the value of
    the double is not modelled, nor are the limits of the interpreter
    (recursion depth, number of digits of an integer). *)
Module Json.

Inductive json : Type :=
| JNull
| JBool (b : bool)
| JInt (z : Z)
| JFloat (literal : str)
| JStr (s : str)
| JArr (items : list json)
| JObj (members : list (str * json)).

(** The [msg] of a [json.JSONDecodeError]. *)
Inductive decode_msg : Type :=
| Expecting_value
| Extra_data
| Unexpected_BOM
| Unterminated_string
| Invalid_control_character
| Invalid_escape
| Invalid_uXXXX_escape
| Expecting_property_name
| Expecting_colon_delimiter
| Expecting_comma_delimiter.

Definition result (A : Type) : Type := (decode_msg + A)%type.

Definition is_ws (c : N) : bool :=
  ((c =? 32) || (c =? 9) || (c =? 10) || (c =? 13))%N.

Fixpoint skip_ws (s : str) : str :=
  match s with
  | [] => []
  | c :: s' => if is_ws c then skip_ws s' else s
  end.

Definition is_digit (c : N) : bool := ((48 <=? c) && (c <=? 57))%N.

Fixpoint span_digits (s : str) : str * str :=
  match s with
  | [] => ([], [])
  | c :: s' =>
      if is_digit c then let (ds, r) := span_digits s' in (c :: ds, r)
      else ([], s)
  end.

Definition hexval (c : N) : option N :=
  (if (48 <=? c) && (c <=? 57) then Some (c - 48)
   else if (97 <=? c) && (c <=? 102) then Some (c - 87)
   else if (65 <=? c) && (c <=? 70) then Some (c - 55)
   else None)%N.

(** The four hexadecimal digits of a [\uXXXX] escape. *)
Definition decode_uXXXX (s : str) : option (N * str) :=
  match s with
  | a :: b :: c :: d :: r =>
      match hexval a, hexval b, hexval c, hexval d with
      | Some x, Some y, Some z, Some w =>
          Some (((x * 16 + y) * 16 + z) * 16 + w, r)%N
      | _, _, _, _ => None
      end
  | _ => None
  end.

(** The character a one-letter escape stands for ([BACKSLASH] table). *)
Definition backslash (e : N) : option N :=
  (if e =? 34 then Some 34            (* quote *)
   else if e =? 92 then Some 92       (* backslash *)
   else if e =? 47 then Some 47       (* slash *)
   else if e =? 98 then Some 8        (* b: backspace *)
   else if e =? 102 then Some 12      (* f: form feed *)
   else if e =? 110 then Some 10      (* n: line feed *)
   else if e =? 114 then Some 13      (* r: carriage return *)
   else if e =? 116 then Some 9       (* t: tab *)
   else None)%N.

Definition is_high_surrogate (u : N) : bool :=
  ((55296 <=? u) && (u <=? 56319))%N.
Definition is_low_surrogate (u : N) : bool :=
  ((56320 <=? u) && (u <=? 57343))%N.

(** [scanstring]: [s] starts right after the opening quote; the result is
    the decoded string and what follows the closing quote. *)
Fixpoint scanstring (fuel : nat) (s acc : str) : result (str * str) :=
  match fuel with
  | O => inl Unterminated_string
  | S f =>
      match s with
      | [] => inl Unterminated_string
      | c :: r =>
          if (c =? 34)%N then inr (acc, r)
          else if (c =? 92)%N then
            match r with
            | [] => inl Unterminated_string
            | e :: r' =>
                if (e =? 117)%N then
                  match decode_uXXXX r' with
                  | None => inl Invalid_uXXXX_escape
                  | Some (uni, r2) =>
                      match r2 with
                      | b :: u :: r3 =>
                          if is_high_surrogate uni && (b =? 92)%N && (u =? 117)%N
                          then
                            match decode_uXXXX r3 with
                            | None => inl Invalid_uXXXX_escape
                            | Some (uni2, r4) =>
                                if is_low_surrogate uni2 then
                                  scanstring f r4
                                    (acc ++ [65536 + ((uni - 55296) * 1024
                                                      + (uni2 - 56320))])%N
                                else scanstring f r2 (acc ++ [uni])
                            end
                          else scanstring f r2 (acc ++ [uni])
                      | _ => scanstring f r2 (acc ++ [uni])
                      end
                  end
                else
                  match backslash e with
                  | Some ch => scanstring f r' (acc ++ [ch])
                  | None => inl Invalid_escape
                  end
            end
          else if (c <? 32)%N then inl Invalid_control_character
          else scanstring f r (acc ++ [c])
      end
  end.

Definition Z_of_digits (ds : str) : Z :=
  fold_left (fun acc c => (acc * 10 + Z.of_N (c - 48))%Z) ds 0%Z.

(** [NUMBER_RE]: an optional minus sign and an integer part without a
    leading zero, then optionally a dot with at least one digit, then
    optionally an exponent ([e] or [E], an optional sign, at least one
    digit).  A literal with a fraction or an exponent is a float. *)
Definition match_number (s : str) : option (json * str) :=
  let (neg, s1) :=
    match s with
    | c :: r => if (c =? 45)%N then (true, r) else (false, s)
    | [] => (false, s)
    end in
  let integer :=
    match s1 with
    | c :: r =>
        if (c =? 48)%N then Some ([c], r)
        else if is_digit c then let (ds, r') := span_digits r in Some (c :: ds, r')
        else None
    | [] => None
    end in
  match integer with
  | None => None
  | Some (ip, s2) =>
      let (frac, s3) :=
        match s2 with
        | c :: r =>
            if (c =? 46)%N then
              match span_digits r with
              | ([], _) => ([], s2)
              | (ds, r') => (c :: ds, r')
              end
            else ([], s2)
        | [] => ([], s2)
        end in
      let (exp, s4) :=
        match s3 with
        | c :: r =>
            if ((c =? 101) || (c =? 69))%N then
              let (sign, r1) :=
                match r with
                | g :: r' =>
                    if ((g =? 45) || (g =? 43))%N then ([g], r') else ([], r)
                | [] => ([], r)
                end in
              match span_digits r1 with
              | ([], _) => ([], s3)
              | (ds, r') => (c :: sign ++ ds, r')
              end
            else ([], s3)
        | [] => ([], s3)
        end in
      let sgn : str := if neg then [45%N] else [] in
      match frac, exp with
      | [], [] =>
          Some (JInt (if neg then - Z_of_digits ip else Z_of_digits ip), s4)
      | _, _ => Some (JFloat (sgn ++ ip ++ frac ++ exp), s4)
      end
  end.

(** [dict(pairs)]: a later pair with the same key replaces the value and
    keeps the place of the first. *)
Fixpoint dict_set (k : str) (v : json) (d : list (str * json))
  : list (str * json) :=
  match d with
  | [] => [(k, v)]
  | (k', v') :: d' =>
      if PyStr.eqb k k' then (k', v) :: d' else (k', v') :: dict_set k v d'
  end.

(** [scan_once] with [JSONObject] and [JSONArray].  [object_members] starts
    right after the opening quote of a key, [array_items] at the start of an
    element.  Every call consumes a character, so a fuel of one more than
    the length of the text is never used up. *)
Fixpoint scan_once (fuel : nat) (s : str) {struct fuel}
  : result (json * str) :=
  match fuel with
  | O => inl Expecting_value
  | S f =>
      match s with
      | [] => inl Expecting_value
      | c :: r =>
          if (c =? 34)%N then
            match scanstring (S (List.length r)) r [] with
            | inl e => inl e
            | inr (v, r') => inr (JStr v, r')
            end
          else if (c =? 123)%N then
            match skip_ws r with
            | k :: r' =>
                if (k =? 125)%N then inr (JObj [], r')
                else if (k =? 34)%N then object_members f r' []
                else inl Expecting_property_name
            | [] => inl Expecting_property_name
            end
          else if (c =? 91)%N then
            match skip_ws r with
            | k :: r' =>
                if (k =? 93)%N then inr (JArr [], r')
                else array_items f (k :: r') []
            | [] => inl Expecting_value
            end
          else if PyStr.startswith (PyStr.lit "null") s then
            inr (JNull, skipn 4 s)
          else if PyStr.startswith (PyStr.lit "true") s then
            inr (JBool true, skipn 4 s)
          else if PyStr.startswith (PyStr.lit "false") s then
            inr (JBool false, skipn 5 s)
          else
            match match_number s with
            | Some vr => inr vr
            | None =>
                if PyStr.startswith (PyStr.lit "NaN") s then
                  inr (JFloat (PyStr.lit "NaN"), skipn 3 s)
                else if PyStr.startswith (PyStr.lit "Infinity") s then
                  inr (JFloat (PyStr.lit "Infinity"), skipn 8 s)
                else if PyStr.startswith (PyStr.lit "-Infinity") s then
                  inr (JFloat (PyStr.lit "-Infinity"), skipn 9 s)
                else inl Expecting_value
            end
      end
  end

with object_members (fuel : nat) (s : str) (acc : list (str * json))
       {struct fuel} : result (json * str) :=
  match fuel with
  | O => inl Expecting_value
  | S f =>
      match scanstring (S (List.length s)) s [] with
      | inl e => inl e
      | inr (key, r) =>
          match skip_ws r with
          | c :: r1 =>
              if (c =? 58)%N then
                match scan_once f (skip_ws r1) with
                | inl e => inl e
                | inr (v, r2) =>
                    let acc' := dict_set key v acc in
                    match skip_ws r2 with
                    | d :: r3 =>
                        if (d =? 125)%N then inr (JObj acc', r3)
                        else if (d =? 44)%N then
                          match skip_ws r3 with
                          | q :: r4 =>
                              if (q =? 34)%N then object_members f r4 acc'
                              else inl Expecting_property_name
                          | [] => inl Expecting_property_name
                          end
                        else inl Expecting_comma_delimiter
                    | [] => inl Expecting_comma_delimiter
                    end
                end
              else inl Expecting_colon_delimiter
          | [] => inl Expecting_colon_delimiter
          end
      end
  end

with array_items (fuel : nat) (s : str) (acc : list json) {struct fuel}
  : result (json * str) :=
  match fuel with
  | O => inl Expecting_value
  | S f =>
      match scan_once f s with
      | inl e => inl e
      | inr (v, r) =>
          match skip_ws r with
          | d :: r1 =>
              if (d =? 93)%N then inr (JArr (acc ++ [v]), r1)
              else if (d =? 44)%N then array_items f (skip_ws r1) (acc ++ [v])
              else inl Expecting_comma_delimiter
          | [] => inl Expecting_comma_delimiter
          end
      end
  end.

(** [json.loads(s)] for a [str] argument. *)
Definition loads (s : str) : result json :=
  if PyStr.startswith [65279%N] s then inl Unexpected_BOM
  else
    match scan_once (S (S (List.length s))) (skip_ws s) with
    | inl e => inl e
    | inr (v, r) =>
        match skip_ws r with
        | [] => inr v
        | _ :: _ => inl Extra_data
        end
    end.

(** Decimal text of an integer. *)
Fixpoint str_of_uint (u : Decimal.uint) : str :=
  match u with
  | Decimal.Nil => []
  | Decimal.D0 u' => 48%N :: str_of_uint u'
  | Decimal.D1 u' => 49%N :: str_of_uint u'
  | Decimal.D2 u' => 50%N :: str_of_uint u'
  | Decimal.D3 u' => 51%N :: str_of_uint u'
  | Decimal.D4 u' => 52%N :: str_of_uint u'
  | Decimal.D5 u' => 53%N :: str_of_uint u'
  | Decimal.D6 u' => 54%N :: str_of_uint u'
  | Decimal.D7 u' => 55%N :: str_of_uint u'
  | Decimal.D8 u' => 56%N :: str_of_uint u'
  | Decimal.D9 u' => 57%N :: str_of_uint u'
  end.

Definition str_of_Z (z : Z) : str :=
  match z with
  | Z0 => [48%N]
  | Zpos p => str_of_uint (Pos.to_uint p)
  | Zneg p => 45%N :: str_of_uint (Pos.to_uint p)
  end.

Definition hexdigit (n : N) : N := (if n <? 10 then 48 + n else 87 + n)%N.

(** [encode_basestring]: quotes, with the escapes of [ESCAPE_DCT]; code
    points above 127 are kept ([ensure_ascii=False]). *)
Definition escape_char (c : N) : str :=
  (if c =? 34 then [92; 34]
   else if c =? 92 then [92; 92]
   else if c =? 10 then [92; 110]
   else if c =? 13 then [92; 114]
   else if c =? 9 then [92; 116]
   else if c =? 8 then [92; 98]
   else if c =? 12 then [92; 102]
   else if c <? 32 then [92; 117; 48; 48; hexdigit (c / 16); hexdigit (c mod 16)]
   else [c])%N.

Definition encode_string (s : str) : str :=
  34%N :: flat_map escape_char s ++ [34%N].

(** A new line followed by the indentation of nesting level [lvl]. *)
Definition newline_indent (lvl : nat) : str := 10%N :: repeat 32%N (2 * lvl).

Fixpoint encode (lvl : nat) (v : json) {struct v} : str :=
  match v with
  | JNull => PyStr.lit "null"
  | JBool true => PyStr.lit "true"
  | JBool false => PyStr.lit "false"
  | JInt z => str_of_Z z
  | JFloat l => l
  | JStr s => encode_string s
  | JArr [] => PyStr.lit "[]"
  | JArr (x :: xs) =>
      [91%N] ++ newline_indent (S lvl) ++ encode (S lvl) x
      ++ (fix rest (l : list json) : str :=
            match l with
            | [] => []
            | y :: l' =>
                [44%N] ++ newline_indent (S lvl) ++ encode (S lvl) y ++ rest l'
            end) xs
      ++ newline_indent lvl ++ [93%N]
  | JObj [] => PyStr.lit "{}"
  | JObj ((k, x) :: ms) =>
      [123%N] ++ newline_indent (S lvl)
      ++ encode_string k ++ [58%N; 32%N] ++ encode (S lvl) x
      ++ (fix rest (l : list (str * json)) : str :=
            match l with
            | [] => []
            | (k', y) :: l' =>
                [44%N] ++ newline_indent (S lvl)
                ++ encode_string k' ++ [58%N; 32%N] ++ encode (S lvl) y
                ++ rest l'
            end) ms
      ++ newline_indent lvl ++ [125%N]
  end.

(** [json.dumps(v, ensure_ascii=False, indent=2)] *)
Definition dumps (v : json) : str := encode 0 v.

End Json.

(* ================================================================== *)
(** ** Data model *)
(* ================================================================== *)

(** An attribute that an object may lack: [hasattr(o, a)] is false for
    [Missing]; [Present None] is an attribute whose value is [None]. *)
Inductive attr (A : Type) : Type :=
| Missing
| Present (v : option A).
Arguments Missing {A}.

(** [chunk.choices[0].delta]: the [openai] library's [ChoiceDelta].
    [reasoning_content] is the extra field of the official API. *)
Record ChoiceDelta : Type := {
  reasoning_content : attr str;
  content : option str
}.

Record Choice : Type := { delta : ChoiceDelta }.

Record ChatCompletionChunk : Type := { choices : list Choice }.

(** A message is a Python [dict] literal: its items in insertion order. *)
Definition message : Type := list (str * str).

(** The exceptions [run] can meet.  [UnicodeEncodeError] is what [print]
    raises for a text that the encoding of standard output cannot encode;
    [object] is that text. *)
Inductive exn : Type :=
| IndexError
| JSONDecodeError (msg : Json.decode_msg) (doc : str)
| APIError (detail : str)
| UnicodeEncodeError (object : str)
| CancelledError.

(** [isinstance(e, Exception)]: [asyncio.CancelledError] derives from
    [BaseException] only. *)
Definition is_Exception (e : exn) : bool :=
  match e with
  | CancelledError => false
  | _ => true
  end.

(** [str(e)], as the f-string of the error log formats it: the text of a
    [JSONDecodeError] has its message (and position), not its [doc]. *)
Inductive exn_text : Type :=
| Text_index_error
| Text_json_decode_error (msg : Json.decode_msg)
| Text_api_error (detail : str)
| Text_unicode_encode_error (object : str)
| Text_cancelled.

Definition str_of_exn (e : exn) : exn_text :=
  match e with
  | IndexError => Text_index_error
  | JSONDecodeError msg _ => Text_json_decode_error msg
  | APIError d => Text_api_error d
  | UnicodeEncodeError t => Text_unicode_encode_error t
  | CancelledError => Text_cancelled
  end.

(** The result of running Python code: a value, or a raised exception. *)
Inductive Outcome (A : Type) : Type :=
| Returned (a : A)
| Raised (e : exn).
Arguments Raised {A} e.

(** The asynchronous stream of one generation call: the chunks it yields,
    then either exhaustion ([None]) or the exception the transport raises. *)
Record Stream : Type := {
  chunks : list ChatCompletionChunk;
  ending : option exn
}.

(** The keyword arguments of [chat.completions.create]. *)
Record Request : Type := {
  model : str;
  messages : list message;
  max_tokens : Z;
  temperature : Z * Z;       (* a decimal literal: numerator, denominator *)
  top_p : Z * Z;
  stream : bool
}.

(** The attributes of [self].  [self.async_client] is an object of the
    [openai] library, seen through the one method the client calls:
    [async_client] is what [self.async_client.chat.completions.create]
    returns or raises for a request, and [async_client_retries] is how many
    times the library sent the request again before the call ended (it
    sends a request again after a connection error, a time-out or a status
    408, 409, 429 or 5xx). *)
Record AsyncAnamnesisModelClient : Type := {
  model_uid : str;
  base_url : str;
  api_key : str;
  prompt_file_path : str;
  system_prompt_template : str;
  async_client : Request -> Outcome Stream;
  async_client_retries : Request -> nat
}.

(** *** The world: standard output, the [loguru] sink and the network *)

Inductive level : Type := DEBUG | INFO | ERROR.

(** The log messages of the client, with what their f-strings interpolate. *)
Inductive log_text : Type :=
| Streaming_output
| Thinking_process (thinking : str)
| Final_output (pretty_json_output : str)
| Call_failed (e : exn_text)
| Please_check
| Check_service_started
| Check_base_url (url : str)
| Check_model_uid (uid : str).

(** [stdout_encodes] is the encoding of [sys.stdout] with its error handler
    [strict], the default: which characters it can encode.  [sent] holds the
    HTTP requests that went to the service, in order. *)
Record World : Type := {
  stdout : str;
  log : list (level * log_text);
  sent : list Request;
  stdout_encodes : PyStr.char -> bool
}.

(** *** State and exceptions *)

Definition M (A : Type) : Type := World -> Outcome A * World.

Definition ret {A : Type} (a : A) : M A := fun w => (Returned a, w).

Definition raise {A : Type} (e : exn) : M A := fun w => (Raised e, w).

Definition bind {A B : Type} (m : M A) (k : A -> M B) : M B :=
  fun w =>
    match m w with
    | (Returned a, w') => k a w'
    | (Raised e, w') => (Raised e, w')
    end.

(** [try: body  except Exception as e: handler(e)] *)
Definition try_except {A : Type} (body : M A) (handler : exn -> M A) : M A :=
  fun w =>
    match body w with
    | (Returned a, w') => (Returned a, w')
    | (Raised e, w') =>
        if is_Exception e then handler e w' else (Raised e, w')
    end.

Declare Scope py_scope.
Delimit Scope py_scope with py.
Notation "x <- m ;; k" := (bind m (fun x => k))
  (at level 61, m at next level, right associativity) : py_scope.
Notation "m ;; k" := (bind m (fun _ => k))
  (at level 61, right associativity) : py_scope.

(** Standard output can encode the text [s]. *)
Definition encodable (w : World) (s : str) : bool :=
  forallb (stdout_encodes w) s.

(** [print(s, end="", flush=True)]: one [write] of [s] to [sys.stdout],
    which encodes the whole text before it writes any of it, and raises
    [UnicodeEncodeError] when a character has no encoding.  Standard output
    is taken to stay open and writable. *)
Definition print (s : str) : M unit :=
  fun w =>
    if encodable w s then
      (Returned tt,
       {| stdout := stdout w ++ s; log := log w; sent := sent w;
          stdout_encodes := stdout_encodes w |})
    else (Raised (UnicodeEncodeError s), w).

(** [print(s)]: a [write] of the text, then a [write] of the line feed. *)
Definition println (s : str) : M unit :=
  (print s ;; print [10%N])%py.

Definition logger (l : level) (t : log_text) : M unit :=
  fun w => (Returned tt,
            {| stdout := stdout w; log := log w ++ [(l, t)];
               sent := sent w; stdout_encodes := stdout_encodes w |}).

(** The client is built by [openai.AsyncOpenAI(api_key=_, base_url=_)], so
    with the library's default [max_retries]. *)
Definition max_retries : nat := 2.

(** The number of HTTP requests of one call of [create]: the first one, and
    one for every retry, of which there are at most [max_retries]. *)
Definition attempts (self : AsyncAnamnesisModelClient) (req : Request) : nat :=
  S (Nat.min (async_client_retries self req) max_retries).

(** [await self.async_client.chat.completions.create(...)]: the request goes
    out, once or more, and the call returns a stream or raises. *)
Definition create (self : AsyncAnamnesisModelClient) (req : Request)
  : M Stream :=
  fun w => (async_client self req,
            {| stdout := stdout w; log := log w;
               sent := sent w ++ repeat req (attempts self req);
               stdout_encodes := stdout_encodes w |}).

(* ================================================================== *)
(** ** The client *)
(* ================================================================== *)

Local Open Scope py_scope.

(** The literal returned when no thinking process is found (in the source
    a Chinese sentence, "thinking process not found", ending with the
    ideographic full stop U+3002). *)
Definition no_thinking_found : str :=
  [26410; 25214; 21040; 24605; 32771; 36807; 31243; 12290]%N.

(** The literal [run] compares the thinking process with before logging it:
    the same sentence ending with an ASCII full stop. *)
Definition no_thinking_found_ascii_stop : str :=
  [26410; 25214; 21040; 24605; 32771; 36807; 31243; 46]%N.

Definition no_think_marker : str := PyStr.lit "/no_think" ++ [10%N].

Definition start_tag : str := PyStr.lit "<think>".
Definition end_tag : str := PyStr.lit "</think>".

(** [_prepare_messages(self, user_input, enable_thinking)] *)
Definition _prepare_messages (self : AsyncAnamnesisModelClient)
    (user_input : str) (enable_thinking : bool) : list message :=
  let system_content := system_prompt_template self in
  let final_user_input :=
    if negb enable_thinking then no_think_marker ++ user_input
    else user_input in
  [ [(PyStr.lit "role", PyStr.lit "system");
     (PyStr.lit "content", system_content)];
    [(PyStr.lit "role", PyStr.lit "user");
     (PyStr.lit "content", final_user_input)] ].

(** [d[key]] on a message. *)
Fixpoint dict_get (key : str) (d : message) : option str :=
  match d with
  | [] => None
  | (k, v) :: d' => if PyStr.eqb k key then Some v else dict_get key d'
  end.

(** The local variables of [_stream_and_process_response_async]. *)
Record Locals : Type := {
  full_response_content : str;
  thinking_process : str;
  final_answer : str;
  is_official_api : bool
}.

Definition initial : Locals :=
  {| full_response_content := [];
     thinking_process := [];
     final_answer := [];
     is_official_api := false |}.

(** Lines 96 to 99: the reasoning field of one delta. *)
Definition on_reasoning (st : Locals) (d : ChoiceDelta) : M Locals :=
  match reasoning_content d with
  | Present (Some r) =>
      print r ;;
      ret {| full_response_content := full_response_content st;
             thinking_process := thinking_process st ++ r;
             final_answer := final_answer st;
             is_official_api := true |}
  | _ => ret st
  end.

(** Lines 102 to 110: the content field of one delta. *)
Definition on_content (st : Locals) (d : ChoiceDelta) : M Locals :=
  match content d with
  | Some content_delta =>
      let st' :=
        if negb (is_official_api st) then
          {| full_response_content := full_response_content st ++ content_delta;
             thinking_process := thinking_process st;
             final_answer := final_answer st;
             is_official_api := is_official_api st |}
        else
          {| full_response_content := full_response_content st;
             thinking_process := thinking_process st;
             final_answer := final_answer st ++ content_delta;
             is_official_api := is_official_api st |} in
      print content_delta ;;
      ret st'
  | None => ret st
  end.

(** The body of the [async for] loop, for one chunk. *)
Definition loop_body (st : Locals) (chunk : ChatCompletionChunk) : M Locals :=
  match choices chunk with
  | [] => raise IndexError
  | choice0 :: _ =>
      st1 <- on_reasoning st (delta choice0) ;;
      on_content st1 (delta choice0)
  end.

(** The [async for] loop over the chunks the stream yields. *)
Fixpoint consume (st : Locals) (cs : list ChatCompletionChunk) : M Locals :=
  match cs with
  | [] => ret st
  | chunk :: cs' => st' <- loop_body st chunk ;; consume st' cs'
  end.

(** Lines 115 to 130: the final parsing, by API type. *)
Definition finalize (st : Locals) : str * str :=
  if is_official_api st then
    ((match thinking_process st with
      | [] => no_thinking_found
      | _ :: _ => thinking_process st
      end),
     final_answer st)
  else
    let full := full_response_content st in
    if PyStr.contains start_tag full && PyStr.contains end_tag full then
      let start_index := PyStr.find full start_tag in
      let end_index := PyStr.find full end_tag in
      if negb (start_index =? -1)%Z && negb (end_index =? -1)%Z
         && (start_index <? end_index)%Z
      then
        (PyStr.strip
           (PyStr.slice full (start_index + PyStr.len start_tag)%Z
              (Some end_index)),
         PyStr.strip
           (PyStr.slice full (end_index + PyStr.len end_tag)%Z None))
      else (no_thinking_found, PyStr.strip full)
    else (no_thinking_found, PyStr.strip full).

(** Lines 85 to 130: what the function does with the stream it obtained. *)
Definition process_stream (s : Stream) : M (str * str) :=
  logger DEBUG Streaming_output ;;
  st <- consume initial (chunks s) ;;
  match ending s with
  | Some e => raise e
  | None =>
      println [10%N] ;;
      ret (finalize st)
  end.

Definition create_request (self : AsyncAnamnesisModelClient)
    (msgs : list message) : Request :=
  {| model := model_uid self;
     messages := msgs;
     max_tokens := 4096;
     temperature := (1, 10)%Z;
     top_p := (1, 10)%Z;
     stream := true |}.

(** [_stream_and_process_response_async(self, messages)] *)
Definition _stream_and_process_response_async
    (self : AsyncAnamnesisModelClient) (msgs : list message)
  : M (str * str) :=
  s <- create self (create_request self msgs) ;;
  process_stream s.

Section Run.

(** [json.loads] and [json.dumps(_, ensure_ascii=False, indent=2)].  The
    encoder is taken to return on every decoded value. *)
Variable json_loads : str -> Json.decode_msg + Json.json.
Variable json_dumps : Json.json -> str.

(** [run(self, user_input, enable_thinking)]; [None] is Python's [None],
    the value of a call whose [except] block ends without [return]. *)
Definition run (self : AsyncAnamnesisModelClient) (user_input : str)
    (enable_thinking : bool) : M (option str) :=
  try_except
    (let msgs := _prepare_messages self user_input enable_thinking in
     r <- _stream_and_process_response_async self msgs ;;
     let (thinking, final_json_str) := r in
     (if negb (PyStr.eqb thinking no_thinking_found_ascii_stop)
         && (0 <? PyStr.len thinking)%Z
      then logger INFO (Thinking_process thinking)
      else ret tt) ;;
     parsed_json_obj <-
       match json_loads final_json_str with
       | inl msg => raise (JSONDecodeError msg final_json_str)
       | inr v => ret v
       end ;;
     let pretty_json_output := json_dumps parsed_json_obj in
     logger INFO (Final_output pretty_json_output) ;;
     ret (Some final_json_str))
    (fun e =>
       logger ERROR (Call_failed (str_of_exn e)) ;;
       logger ERROR Please_check ;;
       logger ERROR Check_service_started ;;
       logger ERROR (Check_base_url (base_url self)) ;;
       logger ERROR (Check_model_uid (model_uid self)) ;;
       ret None).

End Run.

(** *** Construction of the client, and its caller *)

(** What [open(path, 'r', encoding='utf-8')] followed by [read()] gives:
    the text, [FileNotFoundError], or another exception (no permission, a
    directory, bytes that are not UTF-8), which the client does not catch. *)
Inductive read_result : Type :=
| Read_ok (text : str)
| Read_not_found
| Read_raises (detail : str).

(** The log records written before [run] is called. *)
Inductive startup_text : Type :=
| Calling_xinference
| Loading_system_prompt (path : str)
| System_prompt_not_found (path : str).

(** How the construction ends: with a value, with [SystemExit] (raised by
    [exit()]), with the exception of the file system, or with the
    [OpenAIError] of the library's constructor. *)
Inductive Startup (A : Type) : Type :=
| Started (a : A)
| Exits
| Startup_raises (detail : str)
| OpenAIError (detail : str).
Arguments Exits {A}.
Arguments Startup_raises {A} detail.
Arguments OpenAIError {A} detail.

(** An object of class [openai.AsyncOpenAI], seen through its method
    [chat.completions.create]: what a call returns or raises, and how many
    times the library sent the request again before that. *)
Record AsyncOpenAI : Type := {
  chat_completions_create : Request -> Outcome Stream;
  retries : Request -> nat
}.

Section Construction.

(** The file system, and the constructor of the library,
    [openai.AsyncOpenAI(api_key=_, base_url=_)]: it gives the client for the
    service at that URL, or raises [OpenAIError] with a message when it
    finds no key to use. *)
Variable read_text : str -> read_result.
Variable openai_AsyncOpenAI : str -> str -> str + AsyncOpenAI.

(** [_load_system_prompt(self)], which reads [self.prompt_file_path]. *)
Definition _load_system_prompt (prompt_file_path : str)
    (lg : list (level * startup_text))
  : Startup str * list (level * startup_text) :=
  let lg1 := lg ++ [(INFO, Loading_system_prompt prompt_file_path)] in
  match read_text prompt_file_path with
  | Read_ok text => (Started text, lg1)
  | Read_not_found =>
      (Exits, lg1 ++ [(ERROR, System_prompt_not_found prompt_file_path)])
  | Read_raises detail => (Startup_raises detail, lg1)
  end.

(** [_initialize_openai_async_client(self)], which reads [self.api_key]
    and [self.base_url]. *)
Definition _initialize_openai_async_client (api_key base_url : str)
  : str + AsyncOpenAI :=
  openai_AsyncOpenAI api_key base_url.

(** [__init__(self, model_uid, base_url, api_key, prompt_file_path)]: the
    prompt is loaded first, then the library client is made; neither call
    is inside a [try]. *)
Definition __init__ (uid url key path : str)
    (lg : list (level * startup_text))
  : Startup AsyncAnamnesisModelClient * list (level * startup_text) :=
  match _load_system_prompt path lg with
  | (Started text, lg') =>
      match _initialize_openai_async_client key url with
      | inr client =>
          (Started {| model_uid := uid;
                      base_url := url;
                      api_key := key;
                      prompt_file_path := path;
                      system_prompt_template := text;
                      async_client := chat_completions_create client;
                      async_client_retries := retries client |},
           lg')
      | inl detail => (OpenAIError detail, lg')
      end
  | (Exits, lg') => (Exits, lg')
  | (Startup_raises detail, lg') => (Startup_raises detail, lg')
  | (OpenAIError detail, lg') => (OpenAIError detail, lg')
  end.

Variable json_loads : str -> Json.decode_msg + Json.json.
Variable json_dumps : Json.json -> str.

(** The constant [MOCK_TEXT] of [assets.mock_text], a module that is not
    among the sources. *)
Variable MOCK_TEXT : str.

(** [run_xinference_test(xinference_model_uid, xinference_base_url,
    xinference_api_key, prompt_file_path)] of [servers/ModelServer.py]. *)
Definition run_xinference_test
    (xinference_model_uid xinference_base_url xinference_api_key
       prompt_file_path : str)
    (lg : list (level * startup_text)) (w : World)
  : Startup (Outcome (option str)) * list (level * startup_text) * World :=
  match __init__ xinference_model_uid xinference_base_url xinference_api_key
          prompt_file_path (lg ++ [(INFO, Calling_xinference)]) with
  | (Started xinference_client, lg') =>
      let (final_json_str, w') :=
        run json_loads json_dumps xinference_client MOCK_TEXT false w in
      (Started final_json_str, lg', w')
  | (Exits, lg') => (Exits, lg', w)
  | (Startup_raises detail, lg') => (Startup_raises detail, lg', w)
  | (OpenAIError detail, lg') => (OpenAIError detail, lg', w)
  end.

End Construction.

(** A constructor of the library that refuses the empty key and otherwise
    gives a client whose service answers with the stream [s], the first
    time. *)
Definition needs_key (s : Stream) (api_key base_url : str)
  : str + AsyncOpenAI :=
  match api_key with
  | [] => inl (dq "The api_key client option must be set")
  | _ :: _ =>
      inr {| chat_completions_create := fun _ => Returned s;
             retries := fun _ => 0%nat |}
  end.

(** A file system with one file. *)
Definition one_file (path text : str) : str -> read_result :=
  fun p => if PyStr.eqb p path then Read_ok text else Read_not_found.

(** *** Fragments and streams to state the properties with *)

(** A chunk whose first (and only) choice carries the delta [d]. *)
Definition chunk_of (d : ChoiceDelta) : ChatCompletionChunk :=
  {| choices := [ {| delta := d |} ] |}.

(** A stream that yields one chunk per delta and ends normally. *)
Definition fragments (ds : list ChoiceDelta) : Stream :=
  {| chunks := map chunk_of ds; ending := None |}.

(** A service that answers every request, the first time it is sent, with
    the stream [s]. *)
Definition serving (self : AsyncAnamnesisModelClient) (s : Stream)
  : AsyncAnamnesisModelClient :=
  {| model_uid := model_uid self;
     base_url := base_url self;
     api_key := api_key self;
     prompt_file_path := prompt_file_path self;
     system_prompt_template := system_prompt_template self;
     async_client := fun _ => Returned s;
     async_client_retries := fun _ => 0%nat |}.

(** The delta carries a reasoning text ([hasattr] and [is not None]). *)
Definition has_reasoning (d : ChoiceDelta) : bool :=
  match reasoning_content d with
  | Present (Some _) => true
  | _ => false
  end.

Definition reasoning_text (d : ChoiceDelta) : str :=
  match reasoning_content d with
  | Present (Some r) => r
  | _ => []
  end.

Definition content_text (d : ChoiceDelta) : str :=
  match content d with
  | Some c => c
  | None => []
  end.

(** The pure state transformer of one delta: [loop_body] without [print]. *)
Definition step (st : Locals) (d : ChoiceDelta) : Locals :=
  let official := is_official_api st || has_reasoning d in
  {| full_response_content :=
       if official then full_response_content st
       else full_response_content st ++ content_text d;
     thinking_process := thinking_process st ++ reasoning_text d;
     final_answer :=
       if official then final_answer st ++ content_text d
       else final_answer st;
     is_official_api := official |}.

(** What [loop_body] echoes for one delta. *)
Definition echo (d : ChoiceDelta) : str := reasoning_text d ++ content_text d.

(** The texts [loop_body] prints for one delta, one [print] each, in
    order. *)
Definition texts (d : ChoiceDelta) : list str :=
  match reasoning_content d with
  | Present (Some r) => [r]
  | _ => []
  end ++
  match content d with
  | Some c => [c]
  | None => []
  end.

(** The encodings of standard output used in the examples: UTF-8, which
    has no encoding for the surrogates U+D800 to U+DFFF, and ASCII. *)
Definition utf_8 (c : PyStr.char) : bool :=
  ((c <? 55296) || (57343 <? c))%N.


Definition empty_world : World :=
  {| stdout := []; log := []; sent := []; stdout_encodes := utf_8 |}.


(** All that is written to standard output for a complete fragment stream:
    every delta, then two line feeds. *)
Definition printed (ds : list ChoiceDelta) : str :=
  concat (map echo ds) ++ [10; 10]%N.

(** The world after [s] was written to standard output. *)
Definition writing (w : World) (s : str) : World :=
  {| stdout := stdout w ++ s; log := log w; sent := sent w;
     stdout_encodes := stdout_encodes w |}.

(** The reasoning text returned in the dual-channel dialect. *)
Definition or_sentinel (thinking : str) : str :=
  match thinking with
  | [] => no_thinking_found
  | _ :: _ => thinking
  end.


(** The world after the call of [create] for [req]. *)
Definition calling (self : AsyncAnamnesisModelClient) (w : World)
    (req : Request) : World :=
  {| stdout := stdout w; log := log w;
     sent := sent w ++ repeat req (attempts self req);
     stdout_encodes := stdout_encodes w |}.

(** The world after more log records were written. *)
Definition logging (w : World) (records : list (level * log_text)) : World :=
  {| stdout := stdout w; log := log w ++ records; sent := sent w;
     stdout_encodes := stdout_encodes w |}.

(** What [run] logs about the thinking process (line 144). *)
Definition thinking_log (thinking : str) : list (level * log_text) :=
  if negb (PyStr.eqb thinking no_thinking_found_ascii_stop)
     && (0 <? PyStr.len thinking)%Z
  then [(INFO, Thinking_process thinking)]
  else [].

(** What the [except] block of [run] logs (lines 158 to 162). *)
Definition error_log (self : AsyncAnamnesisModelClient) (e : exn)
  : list (level * log_text) :=
  [ (ERROR, Call_failed (str_of_exn e));
    (ERROR, Please_check);
    (ERROR, Check_service_started);
    (ERROR, Check_base_url (base_url self));
    (ERROR, Check_model_uid (model_uid self)) ].

(** The request [run] sends. *)
Definition request_of (self : AsyncAnamnesisModelClient) (user_input : str)
    (enable_thinking : bool) : Request :=
  create_request self (_prepare_messages self user_input enable_thinking).

(** *** Sample deltas and streams *)

Definition content_delta (c : str) : ChoiceDelta :=
  {| reasoning_content := Missing; content := Some c |}.

Definition reasoning_delta (r : str) : ChoiceDelta :=
  {| reasoning_content := Present (Some r); content := None |}.

Definition both_delta (r c : str) : ChoiceDelta :=
  {| reasoning_content := Present (Some r); content := Some c |}.

(** A chunk whose delta carries nothing. *)
Definition heartbeat : ChoiceDelta :=
  {| reasoning_content := Present None; content := None |}.

(** The tagged answer of the specification, split over four chunks. *)
Definition sample_tagged : list ChoiceDelta :=
  [ content_delta (dq "<thi");
    content_delta (dq "nk>abc</think>{'x");
    heartbeat;
    content_delta (dq "':1}") ].

(** A tagged answer with white space around each part. *)
Definition sample_spaced : list ChoiceDelta :=
  [ content_delta (dq " <think> a b");
    content_delta (dq " </think>");
    heartbeat;
    content_delta (dq "  {'x': 1}  ") ].

Definition sample_client : AsyncAnamnesisModelClient :=
  {| model_uid := dq "qwen3";
     base_url := dq "http://127.0.0.1:9997/v1";
     api_key := dq "none";
     prompt_file_path := dq "assets/prompt.md";
     system_prompt_template := dq "You are a helpful assistant.";
     async_client := fun _ => Raised (APIError (dq "Connection error."));
     async_client_retries := fun _ => 2%nat |}.

(* ================================================================== *)
(** ** The Playwright helper and the server that drives it *)
(* ================================================================== *)

(** [src/utils/PlayWright_Helper.py] and [src/servers/PlaywrightServer.py].
    The objects of the Playwright library are handles.  Every awaited call
    of the library is recorded in a trace, and an environment tells, from
    the calls made so far, whether a call raises and what it returns, and
    what the attributes [contexts], [pages] and [url] read.  A call that
    fails raises an [Exception]; cancellation is not modelled. *)
Module PlaywrightHelper.

Definition Playwright : Type := nat.
Definition Browser : Type := nat.
Definition BrowserContext : Type := nat.
Definition Page : Type := nat.

(** The awaited calls of the library. *)
Inductive call : Type :=
| Async_playwright_start
| Connect_over_cdp (pw : Playwright) (cdp_url : str)
| Launch (pw : Playwright) (executable_path : option str) (headless : bool)
    (args : list str)
| New_context (b : Browser) (no_viewport : bool) (user_agent : str)
| Grant_permissions (c : BrowserContext) (permissions : list str)
| New_page (c : BrowserContext)
| Page_close (p : Page)
| Context_close (c : BrowserContext)
| Browser_close (b : Browser)
| Playwright_stop (pw : Playwright)
| Goto (p : Page) (url : str)
| Fill (p : Page) (selector value : str)
| Press (p : Page) (key : str)
| Wait_for_timeout (p : Page) (ms : Z)
| Pause (p : Page).

(** The library and the browser behind it.  [fails h c] is the message of
    the exception that call [c] raises after the calls [h], if it raises;
    [gives h c] is the handle it returns otherwise. *)
Record Env : Type := {
  fails : list call -> call -> option str;
  gives : list call -> call -> nat;
  browser_contexts : list call -> Browser -> list BrowserContext;
  context_pages : list call -> BrowserContext -> list Page;
  page_url : list call -> Page -> str
}.

Inductive exn : Type :=
| Library_error (detail : str)
| No_browser_context
| List_index_out_of_range
| Page_index_out_of_range (page_index : Z).

Inductive level : Type := INFO | WARNING | ERROR.

(** The log messages, with what their f-strings interpolate. *)
Inductive text : Type :=
| Connecting (cdp_url : str)
| Took_over_page (url : str)
| Index_out_of_range_using_first (page_index : Z)
| No_page_created_one
| No_context_found
| Connect_failed (e : exn)
| Start_failed (e : exn)
| Error_type (e : exn)
| Error_details (e : exn)
| Get_all_pages_failed (e : exn)
| Switched_to_page (page_index : Z) (url : str)
| Index_out_of_range (page_index : Z) (last : Z)
| Switch_failed (e : exn)
| Cleaning_up
| Takeover_disconnect
| Cleanup_failed (e : exn)
| Server_started
| Typing (i : Z)
| Server_problem (e : exn).

(** The attributes of [self]; [contexts] is a [dict], in insertion order. *)
Record Helper : Type := {
  playwright : option Playwright;
  browser : option Browser;
  page : option Page;
  context : option BrowserContext;
  edge_path : str;
  contexts : list (str * BrowserContext);
  is_takeover_mode : bool
}.

Record State : Type := {
  self : Helper;
  trace : list call;
  log : list (level * text)
}.

(** [PlaywrightHelper.__init__] *)
Definition __init__ : Helper :=
  {| playwright := None;
     browser := None;
     page := None;
     context := None;
     edge_path :=
       PyStr.lit "C:/Program Files (x86)/Microsoft/Edge/Application/msedge.exe";
     contexts := [];
     is_takeover_mode := false |}.

Definition set_playwright (v : option Playwright) (h : Helper) : Helper :=
  {| playwright := v; browser := browser h; page := page h;
     context := context h; edge_path := edge_path h;
     contexts := contexts h; is_takeover_mode := is_takeover_mode h |}.

Definition set_browser (v : option Browser) (h : Helper) : Helper :=
  {| playwright := playwright h; browser := v; page := page h;
     context := context h; edge_path := edge_path h;
     contexts := contexts h; is_takeover_mode := is_takeover_mode h |}.

Definition set_page (v : option Page) (h : Helper) : Helper :=
  {| playwright := playwright h; browser := browser h; page := v;
     context := context h; edge_path := edge_path h;
     contexts := contexts h; is_takeover_mode := is_takeover_mode h |}.

Definition set_context (v : option BrowserContext) (h : Helper) : Helper :=
  {| playwright := playwright h; browser := browser h; page := page h;
     context := v; edge_path := edge_path h;
     contexts := contexts h; is_takeover_mode := is_takeover_mode h |}.

Definition set_contexts (v : list (str * BrowserContext)) (h : Helper)
  : Helper :=
  {| playwright := playwright h; browser := browser h; page := page h;
     context := context h; edge_path := edge_path h;
     contexts := v; is_takeover_mode := is_takeover_mode h |}.

Definition set_is_takeover_mode (v : bool) (h : Helper) : Helper :=
  {| playwright := playwright h; browser := browser h; page := page h;
     context := context h; edge_path := edge_path h;
     contexts := contexts h; is_takeover_mode := v |}.

(** State and exceptions. *)
Definition H (A : Type) : Type := State -> (exn + A) * State.

Definition ret {A : Type} (a : A) : H A := fun st => (inr a, st).

Definition raise {A : Type} (e : exn) : H A := fun st => (inl e, st).

Definition bind {A B : Type} (m : H A) (k : A -> H B) : H B :=
  fun st =>
    match m st with
    | (inr a, st') => k a st'
    | (inl e, st') => (inl e, st')
    end.

(** [try: body  except Exception as e: handler(e)] *)
Definition try_except {A : Type} (body : H A) (handler : exn -> H A) : H A :=
  fun st =>
    match body st with
    | (inr a, st') => (inr a, st')
    | (inl e, st') => handler e st'
    end.

Declare Scope pw_scope.
Delimit Scope pw_scope with pw.
Notation "x <- m ;; k" := (bind m (fun x => k))
  (at level 61, m at next level, right associativity) : pw_scope.
Notation "m ;; k" := (bind m (fun _ => k))
  (at level 61, right associativity) : pw_scope.
Local Open Scope pw_scope.

Definition logger (l : level) (t : text) : H unit :=
  fun st =>
    (inr tt, {| self := self st; trace := trace st;
                log := log st ++ [(l, t)] |}).

(** Reading an attribute of [self], and assigning to attributes. *)
Definition get {A : Type} (f : Helper -> A) : H A :=
  fun st => (inr (f (self st)), st).

Definition modify (f : Helper -> Helper) : H unit :=
  fun st =>
    (inr tt, {| self := f (self st); trace := trace st; log := log st |}).

(** [l[i]] on a list: a negative index counts from the end. *)
Definition py_index {A : Type} (l : list A) (i : Z) : option A :=
  let n := Z.of_nat (length l) in
  if ((0 <=? i) && (i <? n))%Z then nth_error l (Z.to_nat i)
  else if ((i <? 0) && (- n <=? i))%Z then nth_error l (Z.to_nat (i + n))
  else None.

(** [d.get(k)] on the [contexts] dictionary. *)
Fixpoint dict_lookup (k : str) (d : list (str * BrowserContext))
  : option BrowserContext :=
  match d with
  | [] => None
  | (k', v) :: d' => if PyStr.eqb k' k then Some v else dict_lookup k d'
  end.

Definition base_args : list str :=
  [ PyStr.lit "--guest";
    PyStr.lit "--disable-popup-blocking";
    PyStr.lit "--start-maximized";
    PyStr.lit "--disable-blink-features=AutomationControlled";
    PyStr.lit "--disable-infobars";
    PyStr.lit "--disable-dev-shm-usage";
    PyStr.lit "--disable-web-security";
    PyStr.lit "--disable-features=IsolateOrigins,site-per-process" ].

Definition user_agent : str :=
  PyStr.lit "Mozilla/5.0 (Windows NT 10.0; Win64; x64) AppleWebKit/537.36 (KHTML, like Gecko) Chrome/120.0.0.0 Safari/537.36 Edg/120.0.0.0".

Section Methods.

Variable env : Env.

(** An awaited call of the library. *)
Definition perform (c : call) : H nat :=
  fun st =>
    let st' := {| self := self st; trace := trace st ++ [c];
                  log := log st |} in
    match fails env (trace st) c with
    | Some detail => (inl (Library_error detail), st')
    | None => (inr (gives env (trace st) c), st')
    end.

(** Reading an attribute of an object of the library. *)
Definition ask {A : Type} (q : Env -> list call -> A) : H A :=
  fun st => (inr (q env (trace st)), st).

Fixpoint close_contexts (cs : list (str * BrowserContext)) : H unit :=
  match cs with
  | [] => ret tt
  | (_, c) :: cs' => perform (Context_close c) ;; close_contexts cs'
  end.

(** [close(self)] *)
Definition close : H unit :=
  logger INFO Cleaning_up ;;
  try_except
    (takeover <- get is_takeover_mode ;;
     if takeover then
       logger INFO Takeover_disconnect ;;
       pw <- get playwright ;;
       match pw with
       | Some p => perform (Playwright_stop p) ;; ret tt
       | None => ret tt
       end
     else
       pg <- get page ;;
       match pg with
       | Some p => perform (Page_close p) ;; ret tt
       | None => ret tt
       end ;;
       cs <- get contexts ;;
       close_contexts cs ;;
       modify (set_contexts []) ;;
       b <- get browser ;;
       match b with
       | Some b' => perform (Browser_close b') ;; ret tt
       | None => ret tt
       end ;;
       pw <- get playwright ;;
       match pw with
       | Some p => perform (Playwright_stop p) ;; ret tt
       | None => ret tt
       end)
    (fun e => logger ERROR (Cleanup_failed e)).

(** [if not self.playwright: self.playwright = await async_playwright().start()] *)
Definition ensure_playwright : H Playwright :=
  pw <- get playwright ;;
  match pw with
  | Some p => ret p
  | None =>
      p <- perform Async_playwright_start ;;
      modify (set_playwright (Some p)) ;;
      ret p
  end.

(** [connect_to_browser(self, cdp_url, page_index)] *)
Definition connect_to_browser (cdp_url : str) (page_index : Z) : H Page :=
  try_except
    (logger INFO (Connecting cdp_url) ;;
     pw <- ensure_playwright ;;
     b <- perform (Connect_over_cdp pw cdp_url) ;;
     modify (set_browser (Some b)) ;;
     modify (set_is_takeover_mode true) ;;
     ctxs <- ask (fun e h => browser_contexts e h b) ;;
     match ctxs with
     | c0 :: _ =>
         modify (set_context (Some c0)) ;;
         pages <- ask (fun e h => context_pages e h c0) ;;
         match pages with
         | first :: _ =>
             if (page_index <? Z.of_nat (length pages))%Z then
               match py_index pages page_index with
               | Some p =>
                   modify (set_page (Some p)) ;;
                   url <- ask (fun e h => page_url e h p) ;;
                   logger INFO (Took_over_page url) ;;
                   ret p
               | None => raise List_index_out_of_range
               end
             else
               logger WARNING (Index_out_of_range_using_first page_index) ;;
               modify (set_page (Some first)) ;;
               url <- ask (fun e h => page_url e h first) ;;
               logger INFO (Took_over_page url) ;;
               ret first
         | [] =>
             p <- perform (New_page c0) ;;
             modify (set_page (Some p)) ;;
             logger INFO No_page_created_one ;;
             ret p
         end
     | [] =>
         logger ERROR No_context_found ;;
         raise No_browser_context
     end)
    (fun e =>
       logger ERROR (Connect_failed e) ;;
       logger ERROR (Error_type e) ;;
       logger ERROR (Error_details e) ;;
       close ;;
       raise e).

(** [start(self, headless, context_name, use_local_browser, debug_port)] *)
Definition start (headless : bool) (context_name : str)
    (use_local_browser : bool) (debug_port : option Z) : H Page :=
  try_except
    (pw <- ensure_playwright ;;
     b0 <- get browser ;;
     b <- match b0 with
          | Some b => ret b
          | None =>
              let args :=
                match debug_port with
                | Some port =>
                    base_args ++
                    [PyStr.lit "--remote-debugging-port=" ++ Json.str_of_Z port]
                | None => base_args
                end in
              path <- get edge_path ;;
              b <- perform
                     (Launch pw
                        (if use_local_browser then Some path else None)
                        headless args) ;;
              modify (set_browser (Some b)) ;;
              ret b
          end ;;
     cs <- get contexts ;;
     c <- match dict_lookup context_name cs with
          | Some c => ret c
          | None =>
              c <- perform (New_context b true user_agent) ;;
              modify (set_contexts (cs ++ [(context_name, c)])) ;;
              perform (Grant_permissions c [PyStr.lit "notifications"]) ;;
              ret c
          end ;;
     modify (set_context (Some c)) ;;
     p <- perform (New_page c) ;;
     modify (set_page (Some p)) ;;
     ret p)
    (fun e =>
       logger ERROR (Start_failed e) ;;
       logger ERROR (Error_type e) ;;
       logger ERROR (Error_details e) ;;
       close ;;
       raise e).

(** [get_all_pages(self)] *)
Definition get_all_pages : H (list Page) :=
  try_except
    (b <- get browser ;;
     match b with
     | Some b' =>
         ctxs <- ask (fun e h => browser_contexts e h b') ;;
         match ctxs with
         | _ :: _ => ask (fun e h => flat_map (context_pages e h) ctxs)
         | [] => ret []
         end
     | None => ret []
     end)
    (fun e => logger ERROR (Get_all_pages_failed e) ;; ret []).

(** [switch_to_page(self, page_index)] *)
Definition switch_to_page (page_index : Z) : H Page :=
  try_except
    (all_pages <- get_all_pages ;;
     if ((0 <=? page_index)
         && (page_index <? Z.of_nat (length all_pages)))%Z
     then
       match py_index all_pages page_index with
       | Some p =>
           modify (set_page (Some p)) ;;
           url <- ask (fun e h => page_url e h p) ;;
           logger INFO (Switched_to_page page_index url) ;;
           ret p
       | None => raise List_index_out_of_range
       end
     else
       logger ERROR
         (Index_out_of_range page_index
            (Z.of_nat (length all_pages) - 1)) ;;
       raise (Page_index_out_of_range page_index))
    (fun e => logger ERROR (Switch_failed e) ;; raise e).

(** The loop of [PlaywrightServer.run], for the values [numbers] of [i]. *)
Fixpoint type_numbers (p : Page) (numbers : list Z) : H unit :=
  match numbers with
  | [] => ret tt
  | i :: rest =>
      logger INFO (Typing i) ;;
      perform (Fill p (dq "//input[@id='kw']") (Json.str_of_Z i)) ;;
      perform (Press p (PyStr.lit "Enter")) ;;
      perform (Wait_for_timeout p 3000) ;;
      type_numbers p rest
  end.

(** [range(1, 100)] *)
Definition range_1_100 : list Z := map Z.of_nat (seq 1 99).

(** [PlaywrightServer.run(self)]: the server makes its own helper, drives
    the page that [start] returns, and closes the helper in [finally]. *)
Definition server_run : H unit :=
  try_except
    (logger INFO Server_started ;;
     modify (fun _ => __init__) ;;
     p <- start false (PyStr.lit "default") true None ;;
     perform (Goto p (PyStr.lit "https://www.baidu.com")) ;;
     type_numbers p range_1_100 ;;
     perform (Pause p) ;;
     ret tt)
    (fun e => logger ERROR (Server_problem e)) ;;
  close.

End Methods.

(** The pages of all contexts of the browser of [self], in order, as the
    library reports them in state [st]. *)
Definition all_pages (env : Env) (st : State) : list Page :=
  match browser (self st) with
  | Some b =>
      flat_map (context_pages env (trace st)) (browser_contexts env (trace st) b)
  | None => []
  end.

(** The state after one more log record, and after an assignment. *)
Definition logged (st : State) (l : level) (t : text) : State :=
  {| self := self st; trace := trace st; log := log st ++ [(l, t)] |}.

Definition assigned (st : State) (f : Helper -> Helper) : State :=
  {| self := f (self st); trace := trace st; log := log st |}.

(** The calls [close] makes outside takeover mode when none of them
    fails: those before [self.contexts.clear()], then those after it. *)
Definition closing_before_clear (h : Helper) : list call :=
  match page h with Some p => [Page_close p] | None => [] end
  ++ map (fun kc => Context_close (snd kc)) (contexts h).

Definition closing_after_clear (h : Helper) : list call :=
  match browser h with Some b => [Browser_close b] | None => [] end
  ++ match playwright h with Some pw => [Playwright_stop pw] | None => [] end.

Definition planned_close_calls (h : Helper) : list call :=
  closing_before_clear h ++ closing_after_clear h.

(** The first call of [cs] that fails when the calls are made in order
    after the calls [h]: its index and the message of its exception. *)
Fixpoint first_failure (env : Env) (h : list call) (cs : list call)
  : option (nat * str) :=
  match cs with
  | [] => None
  | c :: cs' =>
      match fails env h c with
      | Some detail => Some (O, detail)
      | None =>
          match first_failure env (h ++ [c]) cs' with
          | Some (k, detail) => Some (S k, detail)
          | None => None
          end
      end
  end.

(** The calls [cs], one after the other. *)
Fixpoint perform_all (env : Env) (cs : list call) : H unit :=
  match cs with
  | [] => ret tt
  | c :: cs' => bind (perform env c) (fun _ => perform_all env cs')
  end.

(** Lines 36 to 43 of [connect_to_browser]: up to the connection. *)
Definition connect_prefix (env : Env) (cdp_url : str) : H Browser :=
  (logger INFO (Connecting cdp_url) ;;
   pw <- ensure_playwright env ;;
   b <- perform env (Connect_over_cdp pw cdp_url) ;;
   modify (set_browser (Some b)) ;;
   modify (set_is_takeover_mode true) ;;
   ret b)%pw.

(** The state after one more call of the library. *)
Definition called (st : State) (c : call) : State :=
  {| self := self st; trace := trace st ++ [c]; log := log st |}.

(** The three calls of one round of the loop of [PlaywrightServer.run]. *)
Definition typing_calls (p : Page) (i : Z) : list call :=
  [ Fill p (dq "//input[@id='kw']") (Json.str_of_Z i);
    Press p (PyStr.lit "Enter");
    Wait_for_timeout p 3000 ].

(** The state in which [PlaywrightServer.run] calls [start]: a new helper,
    after the first log record. *)
Definition server_started (st : State) : State :=
  assigned (logged st INFO Server_started) (fun _ => __init__).

(** The state of a new helper, before any call and any log record. *)
Definition fresh : State := {| self := __init__; trace := []; log := [] |}.

(** The calls of kind [close] in a trace. *)
Definition is_close_call (c : call) : bool :=
  match c with
  | Page_close _ | Context_close _ | Browser_close _ | Playwright_stop _ => true
  | _ => false
  end.

(** A browser with two contexts, of two pages and one page, whose library
    never fails: handles are numbered by the length of the trace. *)
Definition sample_env : Env :=
  {| fails := fun _ _ => None;
     gives := fun h _ => (100 + length h)%nat;
     browser_contexts := fun _ _ => [1; 2]%nat;
     context_pages :=
       fun _ c => if Nat.eqb c 1 then [11; 12]%nat else [21]%nat;
     page_url := fun _ p => Json.str_of_Z (Z.of_nat p) |}.

(** A library in which the call [bad], and no other, fails. *)
Definition failing_env (bad : call -> bool) : Env :=
  {| fails := fun _ c => if bad c then Some (PyStr.lit "Target closed") else None;
     gives := fun h _ => (100 + length h)%nat;
     browser_contexts := fun _ _ => [1; 2]%nat;
     context_pages :=
       fun _ c => if Nat.eqb c 1 then [11; 12]%nat else [21]%nat;
     page_url := fun _ p => Json.str_of_Z (Z.of_nat p) |}.

End PlaywrightHelper.

(* ================================================================== *)
(** ** Notions the properties are stated with *)
(* ================================================================== *)

(** [sub] occurs in [s] at index [i]. *)
Definition occurs_at (sub s : str) (i : nat) : Prop :=
  exists pre post, s = pre ++ sub ++ post /\ List.length pre = i.

(** [i] is the index of the first occurrence of [sub] in [s]. *)
Definition first_occurrence (sub s : str) (i : nat) : Prop :=
  occurs_at sub s i /\ forall j, (j < i)%nat -> ~ occurs_at sub s j.

(** [s] is all white space. *)
Definition blank (s : str) : bool := forallb PyStr.isspace s.

(** [t] is [s] trimmed: [s] without its longest white-space prefix and
    suffix. *)
Definition trimmed (s t : str) : Prop :=
  exists l r,
    s = l ++ t ++ r /\ blank l = true /\ blank r = true /\
    (forall c t', t = c :: t' -> PyStr.isspace c = false) /\
    (forall c t', t = t' ++ [c] -> PyStr.isspace c = false).

(** [t] neither starts nor ends with white space. *)
Definition no_outer_space (t : str) : Prop :=
  (forall c r, t = c :: r -> PyStr.isspace c = false) /\
  (forall c r, t = r ++ [c] -> PyStr.isspace c = false).

(** No delta of the sequence carries a reasoning text. *)
Definition no_reasoning (ds : list ChoiceDelta) : bool :=
  forallb (fun d => negb (has_reasoning d)) ds.

(** The content deltas and the reasoning deltas, concatenated in arrival
    order. *)
Definition all_content (ds : list ChoiceDelta) : str :=
  concat (map content_text ds).

Definition all_reasoning (ds : list ChoiceDelta) : str :=
  concat (map reasoning_text ds).

(** The value part of a run. *)
Definition result_of {A : Type} (m : M A) (w : World) : Outcome A := fst (m w).

(* ================================================================== *)
(** ** Facts about Python strings *)
(* ================================================================== *)

Unset Implicit Arguments.

Module PyStrFacts.
Import PyStr.

Lemma eqb_eq (a b : str) : eqb a b = true <-> a = b.
Proof.
  revert b; induction a as [|x a IH]; intros [|y b]; simpl;
    try (split; [discriminate | congruence]); [tauto|].
  rewrite andb_true_iff, N.eqb_eq, IH.
  split; [intros [-> ->]; reflexivity | intros H; inversion H; auto].
Qed.

Lemma startswith_iff (p s : str) :
  startswith p s = true <-> exists r, s = p ++ r.
Proof.
  revert s; induction p as [|x p IH]; intros s; simpl.
  - split; [intros _; exists s; reflexivity | reflexivity].
  - destruct s as [|y s].
    + split; [discriminate | intros [r H]; discriminate].
    + rewrite andb_true_iff, N.eqb_eq, IH. split.
      * intros [-> [r ->]]. exists r. reflexivity.
      * intros [r H]. inversion H. split; [reflexivity | exists r; reflexivity].
Qed.

Lemma occurs_at_0 (sub s : str) :
  occurs_at sub s 0 <-> startswith sub s = true.
Proof.
  rewrite startswith_iff. split.
  - intros (pre & post & -> & Hl). destruct pre; [|discriminate].
    exists post. reflexivity.
  - intros [r ->]. exists [], r. split; reflexivity.
Qed.

Lemma occurs_at_S (sub s : str) (c : char) (i : nat) :
  occurs_at sub (c :: s) (S i) <-> occurs_at sub s i.
Proof.
  split.
  - intros (pre & post & H & Hl). destruct pre as [|x pre]; [discriminate|].
    simpl in H, Hl. inversion H; subst. exists pre, post. split; congruence.
  - intros (pre & post & -> & Hl). exists (c :: pre), post.
    split; simpl; congruence.
Qed.

(** Scanning from index [k] finds what scanning from 0 finds, shifted. *)
Lemma find_from_shift (sub s : str) (k : Z) :
  (find_from sub s 0 = -1 /\ find_from sub s k = -1)%Z \/
  (0 <= find_from sub s 0 /\ find_from sub s k = k + find_from sub s 0)%Z.
Proof.
  revert k; induction s as [|c s IH]; intros k; simpl.
  - destruct (startswith sub []); [right; lia | left; lia].
  - destruct (startswith sub (c :: s)); [right; lia|].
    destruct (IH 1%Z) as [[H0 H1] | [H0 H1]];
      destruct (IH (k + 1)%Z) as [[K0 K1] | [K0 K1]]; lia.
Qed.

Lemma find_cases (s sub : str) :
  find s sub = (-1)%Z \/ exists i, find s sub = Z.of_nat i.
Proof.
  unfold find. destruct (find_from_shift sub s 0) as [[H _] | [H _]].
  - left. exact H.
  - right. exists (Z.to_nat (find_from sub s 0)). lia.
Qed.

Lemma find_absent (s sub : str) :
  find s sub = (-1)%Z -> forall i, ~ occurs_at sub s i.
Proof.
  unfold find. induction s as [|c s IH]; simpl; intros H i Hocc.
  - destruct (startswith sub []) eqn:E; [discriminate|].
    destruct Hocc as (pre & post & Heq & Hl).
    destruct pre; [|discriminate]. subst i.
    assert (occurs_at sub [] 0) as H0 by (exists [], post; auto).
    apply occurs_at_0 in H0. congruence.
  - destruct (startswith sub (c :: s)) eqn:E; [discriminate|].
    destruct i as [|i].
    + apply occurs_at_0 in Hocc. congruence.
    + apply occurs_at_S in Hocc.
      destruct (find_from_shift sub s 1) as [[H0 H1] | [H0 H1]]; [|lia].
      exact (IH H0 i Hocc).
Qed.

Lemma find_found (s sub : str) (i : nat) :
  find s sub = Z.of_nat i -> first_occurrence sub s i.
Proof.
  unfold find. revert i. induction s as [|c s IH]; simpl; intros i H.
  - destruct (startswith sub []) eqn:E; [|lia].
    assert (i = 0%nat) by lia. subst i. split.
    + apply occurs_at_0. exact E.
    + intros j Hj. lia.
  - destruct (startswith sub (c :: s)) eqn:E.
    + assert (i = 0%nat) by lia. subst i. split.
      * apply occurs_at_0. exact E.
      * intros j Hj. lia.
    + destruct (find_from_shift sub s 1) as [[H0 H1] | [H0 H1]]; [lia|].
      destruct i as [|i]; [lia|].
      assert (find_from sub s 0 = Z.of_nat i) as Hi by lia.
      destruct (IH i Hi) as [Hocc Hmin]. split.
      * apply occurs_at_S. exact Hocc.
      * intros [|j] Hj Hoc.
        -- apply occurs_at_0 in Hoc. congruence.
        -- apply occurs_at_S in Hoc. apply (Hmin j); [lia | exact Hoc].
Qed.

Lemma first_occurrence_unique (sub s : str) (i j : nat) :
  first_occurrence sub s i -> first_occurrence sub s j -> i = j.
Proof.
  intros [Hi Hmi] [Hj Hmj].
  destruct (Nat.lt_trichotomy i j) as [H | [H | H]]; [|exact H|].
  - exfalso. exact (Hmj i H Hi).
  - exfalso. exact (Hmi j H Hj).
Qed.

Lemma find_first_occurrence (s sub : str) (i : nat) :
  first_occurrence sub s i -> find s sub = Z.of_nat i.
Proof.
  intros Hi. destruct (find_cases s sub) as [H | [k H]].
  - exfalso. destruct Hi as [Hocc _]. exact (find_absent _ _ H _ Hocc).
  - rewrite H. f_equal.
    exact (first_occurrence_unique _ _ _ _ (find_found _ _ _ H) Hi).
Qed.

Lemma contains_find (sub s : str) :
  contains sub s = negb (find s sub =? -1)%Z.
Proof.
  unfold find. induction s as [|c s IH]; simpl.
  - destruct (startswith sub []); reflexivity.
  - destruct (startswith sub (c :: s)); [reflexivity|]. simpl.
    rewrite IH.
    destruct (find_from_shift sub s 1) as [[H0 H1] | [H0 H1]];
      rewrite H1.
    + rewrite H0. reflexivity.
    + destruct (Z.eqb_spec (find_from sub s 0) (-1)); [lia|].
      destruct (Z.eqb_spec (1 + find_from sub s 0) (-1)); [lia|].
      reflexivity.
Qed.

Lemma len_app (a b : str) : len (a ++ b) = (len a + len b)%Z.
Proof. unfold len. rewrite length_app. lia. Qed.

Lemma len_nonneg (a : str) : (0 <= len a)%Z.
Proof. unfold len. lia. Qed.

(** [s[lo:]] where [lo] is the length of a prefix is the rest. *)
Lemma slice_tail (a b : str) (lo : Z) :
  lo = len a -> slice (a ++ b) lo None = b.
Proof.
  intros ->. unfold slice, adjust. rewrite len_app.
  pose proof (len_nonneg a) as Ha. pose proof (len_nonneg b) as Hb.
  destruct (Z.ltb_spec (len a) 0); [lia|].
  destruct (Z.ltb_spec (len a + len b) (len a)); [lia|].
  destruct (Z.ltb_spec (len a) (len a + len b)) as [Hlt | Hge].
  - replace (Z.to_nat (len a)) with (length a + 0)%nat by (unfold len; lia).
    rewrite skipn_app, Nat.add_0_r, skipn_all.
    replace (length a - length a)%nat with 0%nat by lia. simpl.
    apply firstn_all2. unfold len. lia.
  - destruct b; [reflexivity | unfold len in *; simpl in *; lia].
Qed.

(** [s[lo:hi]] between the end of a prefix and the start of a suffix is
    the middle. *)
Lemma slice_mid (a m b : str) (lo hi : Z) :
  lo = len a -> hi = (len a + len m)%Z ->
  slice (a ++ m ++ b) lo (Some hi) = m.
Proof.
  intros -> ->. unfold slice, adjust. rewrite !len_app.
  pose proof (len_nonneg a) as Ha. pose proof (len_nonneg b) as Hb.
  pose proof (len_nonneg m) as Hm.
  destruct (Z.ltb_spec (len a) 0); [lia|].
  destruct (Z.ltb_spec (len a + (len m + len b)) (len a)); [lia|].
  destruct (Z.ltb_spec (len a + len m) 0); [lia|].
  destruct (Z.ltb_spec (len a + (len m + len b)) (len a + len m)); [lia|].
  destruct (Z.ltb_spec (len a) (len a + len m)) as [Hlt | Hge].
  - replace (Z.to_nat (len a)) with (length a + 0)%nat by (unfold len; lia).
    rewrite skipn_app, Nat.add_0_r, skipn_all.
    replace (length a - length a)%nat with 0%nat by lia. simpl.
    replace (Z.to_nat (len a + len m - len a)) with (length m + 0)%nat
      by (unfold len; lia).
    rewrite firstn_app_2. simpl. apply app_nil_r.
  - destruct m; [reflexivity | unfold len in *; simpl in *; lia].
Qed.

Lemma blank_app (a b : str) : blank (a ++ b) = blank a && blank b.
Proof. apply forallb_app. Qed.

Lemma blank_rev (a : str) : blank (rev a) = blank a.
Proof.
  induction a as [|c a IH]; [reflexivity|].
  simpl. rewrite blank_app, IH. simpl.
  rewrite andb_true_r. apply andb_comm.
Qed.

Lemma lstrip_spec (s : str) :
  exists l, s = l ++ lstrip s /\ blank l = true /\
            forall c t, lstrip s = c :: t -> isspace c = false.
Proof.
  induction s as [|c s (l & Hs & Hl & Hhd)]; simpl.
  - exists []. repeat split. intros c t H. discriminate.
  - destruct (isspace c) eqn:E.
    + exists (c :: l). simpl. rewrite E, Hl.
      repeat split; [congruence | exact Hhd].
    + exists []. repeat split. intros c' t H. inversion H. congruence.
Qed.

Lemma rstrip_spec (s : str) :
  exists r, s = rstrip s ++ r /\ blank r = true /\
            forall c t, rstrip s = t ++ [c] -> isspace c = false.
Proof.
  unfold rstrip. destruct (lstrip_spec (rev s)) as (l & Hs & Hl & Hhd).
  exists (rev l). repeat split.
  - rewrite <- rev_app_distr, <- Hs. symmetry. apply rev_involutive.
  - rewrite blank_rev. exact Hl.
  - intros c t H. apply (Hhd c (rev t)).
    rewrite <- (rev_involutive (lstrip (rev s))), H, rev_app_distr.
    reflexivity.
Qed.

Lemma lstrip_blank (s : str) : blank s = true -> lstrip s = [].
Proof.
  induction s as [|c s IH]; simpl; [reflexivity|].
  intros H. apply andb_true_iff in H. destruct H as [Hc Hs].
  rewrite Hc. exact (IH Hs).
Qed.

(** [strip] trims: it removes the longest white-space prefix and suffix. *)
Lemma strip_trimmed (s : str) : trimmed s (strip s).
Proof.
  unfold strip.
  destruct (lstrip_spec s) as (l & Hs & Hl & Hhd).
  destruct (rstrip_spec (lstrip s)) as (r & Hr & Hbr & Hlast).
  exists l, r. repeat split; try assumption.
  - rewrite <- Hr. exact Hs.
  - intros c t H. apply (Hhd c (t ++ r)). rewrite Hr at 1. rewrite H.
    reflexivity.
Qed.

Lemma strip_nil_iff (s : str) : strip s = [] <-> blank s = true.
Proof.
  split.
  - intros H. destruct (strip_trimmed s) as (l & r & Hs & Hl & Hr & _).
    rewrite H in Hs. rewrite Hs. simpl. rewrite blank_app, Hl, Hr.
    reflexivity.
  - intros H. unfold strip. rewrite (lstrip_blank s H). reflexivity.
Qed.

Lemma lstrip_app_blank (l x : str) :
  blank l = true -> lstrip (l ++ x) = lstrip x.
Proof.
  induction l as [|c l IH]; simpl; [reflexivity|].
  intros H. apply andb_true_iff in H. destruct H as [Hc Hl].
  rewrite Hc. exact (IH Hl).
Qed.

Lemma rstrip_app_blank (x r : str) :
  blank r = true -> rstrip (x ++ r) = rstrip x.
Proof.
  intros H. unfold rstrip. rewrite rev_app_distr, lstrip_app_blank.
  - reflexivity.
  - rewrite blank_rev. exact H.
Qed.

(** [strip s] is the only trimming of [s]. *)
Lemma trimmed_unique (s t : str) : trimmed s t -> t = strip s.
Proof.
  intros (l & r & -> & Hl & Hr & Hhd & Hlast).
  unfold strip. rewrite lstrip_app_blank by exact Hl.
  destruct t as [|c t0].
  - simpl. rewrite (lstrip_blank r Hr). reflexivity.
  - assert (lstrip ((c :: t0) ++ r) = (c :: t0) ++ r) as ->.
    { simpl. rewrite (Hhd c t0 eq_refl). reflexivity. }
    rewrite rstrip_app_blank by exact Hr.
    destruct (exists_last (l := c :: t0)) as (t1 & c' & E); [discriminate|].
    rewrite E. unfold rstrip. rewrite rev_app_distr. simpl.
    rewrite (Hlast c' t1 E). simpl. rewrite rev_involutive. reflexivity.
Qed.

End PyStrFacts.

(* ================================================================== *)
(** ** The consumption loop *)
(* ================================================================== *)

Section Loop.

Local Open Scope bool_scope.

(** *** Standard output *)

Lemma encodable_app (w : World) (a b : str) :
  encodable w (a ++ b) = encodable w a && encodable w b.
Proof. apply forallb_app. Qed.

Lemma encodable_ext (w1 w2 : World) (s : str) :
  (forall c, stdout_encodes w1 c = stdout_encodes w2 c) ->
  encodable w1 s = encodable w2 s.
Proof.
  intros H. unfold encodable.
  induction s as [|c s IH]; simpl; [reflexivity|].
  rewrite H, IH. reflexivity.
Qed.

Lemma print_ok (s : str) (w : World) :
  encodable w s = true -> print s w = (Returned tt, writing w s).
Proof. intros H. unfold print. rewrite H. reflexivity. Qed.

Lemma print_raises (s : str) (w : World) :
  encodable w s = false -> print s w = (Raised (UnicodeEncodeError s), w).
Proof. intros H. unfold print. rewrite H. reflexivity. Qed.

(** [print] changes nothing but the text of standard output, and whether
    it raises depends on the encoding only. *)
Lemma print_frame (s : str) (w : World) :
  log (snd (print s w)) = log w /\
  sent (snd (print s w)) = sent w /\
  stdout_encodes (snd (print s w)) = stdout_encodes w.
Proof.
  unfold print. destruct (encodable w s); repeat split; reflexivity.
Qed.

Lemma print_result_indep (s : str) (w1 w2 : World) :
  (forall c, stdout_encodes w1 c = stdout_encodes w2 c) ->
  fst (print s w1) = fst (print s w2).
Proof.
  intros H. unfold print. rewrite (encodable_ext w1 w2 s H).
  destruct (encodable w2 s); reflexivity.
Qed.

Lemma echo_texts (d : ChoiceDelta) : concat (texts d) = echo d.
Proof.
  unfold texts, echo, reasoning_text, content_text.
  destruct (reasoning_content d) as [|[r|]], (content d) as [c|];
    simpl; rewrite ?app_nil_r; reflexivity.
Qed.

(** *** One chunk *)

(** One chunk of a fragment stream, when standard output can encode its
    delta: the state moves by [step], and the delta is echoed. *)
Lemma loop_body_chunk_of (st : Locals) (d : ChoiceDelta) (w : World) :
  encodable w (echo d) = true ->
  loop_body st (chunk_of d) w = (Returned (step st d), writing w (echo d)).
Proof.
  intros H. unfold echo in H. rewrite encodable_app in H.
  apply andb_true_iff in H. destruct H as [Hr Hc].
  destruct st as [full think final off], d as [rc c].
  unfold loop_body, on_reasoning, on_content, step, echo, has_reasoning,
    reasoning_text, content_text in *.
  simpl in *.
  destruct rc as [|[r|]], c as [c|]; unfold bind, ret; simpl;
    rewrite ?(print_ok _ _ Hr); simpl;
    try (rewrite (print_ok c w Hc));
    try (rewrite (print_ok c (writing w r) Hc));
    unfold writing; destruct w, off; simpl;
    rewrite ?app_nil_r, <- ?app_assoc; reflexivity.
Qed.

(** When it cannot, the chunk raises [UnicodeEncodeError] for the first
    text of the delta that has no encoding. *)
Lemma loop_body_chunk_of_raises (st : Locals) (d : ChoiceDelta) (w : World) :
  encodable w (echo d) = false ->
  exists t w',
    loop_body st (chunk_of d) w = (Raised (UnicodeEncodeError t), w') /\
    In t (texts d) /\ encodable w t = false.
Proof.
  intros H. unfold echo in H. rewrite encodable_app in H.
  destruct st as [full think final off], d as [rc c].
  unfold loop_body, on_reasoning, on_content, texts, reasoning_text,
    content_text in *.
  simpl in *.
  destruct rc as [|[r|]], c as [c|]; simpl in H; try discriminate H;
    unfold bind, ret; simpl.
  - rewrite (print_raises c w H). exists c, w.
    repeat split; [left; reflexivity | exact H].
  - destruct (encodable w r) eqn:Hr.
    + rewrite (print_ok r w Hr). simpl. simpl in H.
      rewrite (print_raises c (writing w r) H).
      exists c, (writing w r).
      repeat split; [right; left; reflexivity | exact H].
    + rewrite (print_raises r w Hr). exists r, w.
      repeat split; [left; reflexivity | exact Hr].
  - rewrite andb_true_r in H. rewrite (print_raises r w H). exists r, w.
    repeat split; [left; reflexivity | exact H].
  - rewrite (print_raises c w H). exists c, w.
    repeat split; [left; reflexivity | exact H].
Qed.

(** Only the first choice of a chunk is read. *)
Lemma loop_body_first_choice (st : Locals) (c : ChatCompletionChunk)
    (ch : Choice) (rest : list Choice) :
  choices c = ch :: rest -> loop_body st c = loop_body st (chunk_of (delta ch)).
Proof. intros H. unfold loop_body. rewrite H. reflexivity. Qed.

(** A chunk that does not raise moved the state by [step] and echoed its
    delta. *)
Lemma loop_body_returned (st st' : Locals) (c : ChatCompletionChunk)
    (w w' : World) :
  loop_body st c w = (Returned st', w') ->
  exists ch rest,
    choices c = ch :: rest /\
    encodable w (echo (delta ch)) = true /\
    st' = step st (delta ch) /\ w' = writing w (echo (delta ch)).
Proof.
  intros H.
  destruct (choices c) as [|ch rest] eqn:Hc.
  - unfold loop_body in H. rewrite Hc in H. discriminate H.
  - exists ch, rest. split; [reflexivity|].
    rewrite (loop_body_first_choice st c ch rest Hc) in H.
    destruct (encodable w (echo (delta ch))) eqn:He.
    + rewrite (loop_body_chunk_of st (delta ch) w He) in H.
      injection H as <- <-. repeat split; reflexivity.
    + destruct (loop_body_chunk_of_raises st (delta ch) w He)
        as (t & w1 & Hr & _).
      rewrite Hr in H. discriminate H.
Qed.

(** What a chunk leaves as it was, whether it raises or not. *)
Lemma loop_body_frame (st : Locals) (c : ChatCompletionChunk) (w : World) :
  log (snd (loop_body st c w)) = log w /\
  sent (snd (loop_body st c w)) = sent w /\
  stdout_encodes (snd (loop_body st c w)) = stdout_encodes w.
Proof.
  unfold loop_body. destruct (choices c) as [|ch rest];
    [repeat split; reflexivity|].
  unfold on_reasoning, on_content, bind, ret, print.
  destruct (delta ch) as [[|[r|]] [cd|]]; simpl;
    repeat match goal with
           | |- context [encodable ?w ?s] => destruct (encodable w s); simpl
           end;
    repeat split; reflexivity.
Qed.

(** *** The loop *)

Lemma consume_fragments (ds : list ChoiceDelta) (st : Locals) (w : World) :
  encodable w (concat (map echo ds)) = true ->
  consume st (map chunk_of ds) w =
  (Returned (fold_left step ds st), writing w (concat (map echo ds))).
Proof.
  revert st w. induction ds as [|d ds IH]; intros st w H; simpl.
  - unfold ret, writing. rewrite app_nil_r. destruct w; reflexivity.
  - simpl in H. rewrite encodable_app in H. apply andb_true_iff in H.
    destruct H as [Hd Hds].
    unfold bind at 1. rewrite (loop_body_chunk_of st d w Hd).
    rewrite (IH (step st d) (writing w (echo d)) Hds).
    unfold writing. simpl. rewrite app_assoc. reflexivity.
Qed.

(** The loop raises [UnicodeEncodeError] at the first text that standard
    output cannot encode. *)
Lemma consume_fragments_raises (ds : list ChoiceDelta) (st : Locals)
    (w : World) :
  encodable w (concat (map echo ds)) = false ->
  exists t w',
    consume st (map chunk_of ds) w = (Raised (UnicodeEncodeError t), w') /\
    (exists d, In d ds /\ In t (texts d)) /\ encodable w t = false.
Proof.
  revert st w. induction ds as [|d ds IH]; intros st w H; simpl in H.
  - discriminate H.
  - rewrite encodable_app in H. simpl. unfold bind at 1.
    destruct (encodable w (echo d)) eqn:Hd.
    + rewrite (loop_body_chunk_of st d w Hd). simpl in H.
      destruct (IH (step st d) (writing w (echo d)) H)
        as (t & w' & Hc & (d' & Hin & Ht) & He).
      exists t, w'. split; [exact Hc|]. split; [|exact He].
      exists d'. split; [right; exact Hin | exact Ht].
    + destruct (loop_body_chunk_of_raises st d w Hd) as (t & w' & Hl & Ht & He).
      rewrite Hl. exists t, w'. split; [reflexivity|]. split; [|exact He].
      exists d. split; [left; reflexivity | exact Ht].
Qed.

(** When the loop over a fragment stream returns, standard output could
    encode every delta, and the state moved by [step]. *)
Lemma consume_fragments_returned (ds : list ChoiceDelta) (st st' : Locals)
    (w w' : World) :
  consume st (map chunk_of ds) w = (Returned st', w') ->
  encodable w (concat (map echo ds)) = true /\
  st' = fold_left step ds st /\
  w' = writing w (concat (map echo ds)).
Proof.
  intros H. destruct (encodable w (concat (map echo ds))) eqn:E.
  - rewrite (consume_fragments ds st w E) in H. injection H as <- <-.
    repeat split; reflexivity.
  - destruct (consume_fragments_raises ds st w E) as (t & w1 & Hr & _).
    rewrite Hr in H. discriminate H.
Qed.

Lemma consume_frame (cs : list ChatCompletionChunk) :
  forall (st : Locals) (w : World),
    log (snd (consume st cs w)) = log w /\
    sent (snd (consume st cs w)) = sent w /\
    stdout_encodes (snd (consume st cs w)) = stdout_encodes w.
Proof.
  induction cs as [|c cs IH]; intros st w; simpl; [repeat split; reflexivity|].
  unfold bind. destruct (loop_body_frame st c w) as (Hl & Hs & He).
  destruct (loop_body st c w) as [[st1|e] w1]; simpl in Hl, Hs, He.
  - destruct (IH st1 w1) as (Hl1 & Hs1 & He1). rewrite Hl1, Hs1, He1.
    repeat split; assumption.
  - repeat split; assumption.
Qed.

(** The mark after a sequence of deltas. *)
Lemma fold_step_official (ds : list ChoiceDelta) (st : Locals) :
  is_official_api (fold_left step ds st) =
  is_official_api st || existsb has_reasoning ds.
Proof.
  revert st. induction ds as [|d ds IH]; intros st; simpl.
  - rewrite orb_false_r. reflexivity.
  - rewrite IH. simpl. rewrite orb_assoc. reflexivity.
Qed.

Lemma fold_step_thinking (ds : list ChoiceDelta) (st : Locals) :
  thinking_process (fold_left step ds st) =
  thinking_process st ++ all_reasoning ds.
Proof.
  revert st. induction ds as [|d ds IH]; intros st; simpl.
  - rewrite app_nil_r. reflexivity.
  - rewrite IH. simpl. unfold all_reasoning. simpl.
    rewrite app_assoc. reflexivity.
Qed.

(** Once marked, every content delta goes to [final_answer]. *)
Lemma fold_step_marked (ds : list ChoiceDelta) (st : Locals) :
  is_official_api st = true ->
  final_answer (fold_left step ds st) = final_answer st ++ all_content ds /\
  full_response_content (fold_left step ds st) = full_response_content st.
Proof.
  revert st. induction ds as [|d ds IH]; intros st H; simpl.
  - rewrite app_nil_r. split; reflexivity.
  - destruct (IH (step st d)) as [Hf Hr].
    + simpl. rewrite H. reflexivity.
    + rewrite Hf, Hr. simpl. rewrite H. simpl. unfold all_content. simpl.
      rewrite app_assoc. split; reflexivity.
Qed.

(** Without a reasoning delta, every content delta goes to
    [full_response_content]. *)
Lemma fold_step_unmarked (ds : list ChoiceDelta) (st : Locals) :
  is_official_api st = false -> no_reasoning ds = true ->
  full_response_content (fold_left step ds st) =
    full_response_content st ++ all_content ds /\
  final_answer (fold_left step ds st) = final_answer st /\
  thinking_process (fold_left step ds st) = thinking_process st /\
  is_official_api (fold_left step ds st) = false.
Proof.
  revert st. induction ds as [|d ds IH]; intros st H Hn; simpl.
  - rewrite app_nil_r. repeat split; try reflexivity. exact H.
  - simpl in Hn. apply andb_true_iff in Hn. destruct Hn as [Hd Hn].
    apply negb_true_iff in Hd.
    assert (reasoning_text d = []) as Hr.
    { unfold has_reasoning in Hd. unfold reasoning_text.
      destruct (reasoning_content d) as [|[r|]]; try reflexivity.
      discriminate. }
    destruct (IH (step st d)) as (Hf & Ha & Ht & Ho).
    + simpl. rewrite H, Hd. reflexivity.
    + exact Hn.
    + rewrite Hf, Ha, Ht, Ho. simpl. rewrite H, Hd, Hr. simpl.
      unfold all_content. simpl. rewrite app_assoc, app_nil_r.
      repeat split; reflexivity.
Qed.

(** *** The whole stream *)

Lemma process_stream_unfold (s : Stream) (w : World) :
  process_stream s w =
  match consume initial (chunks s) (logging w [(DEBUG, Streaming_output)]) with
  | (Returned st, w') =>
      match ending s with
      | Some e => (Raised e, w')
      | None =>
          if encodable w [10%N]
          then (Returned (finalize st), writing w' [10; 10]%N)
          else (Raised (UnicodeEncodeError [10%N]), w')
      end
  | (Raised e, w') => (Raised e, w')
  end.
Proof.
  unfold process_stream, bind, logger, logging, println, raise, ret.
  destruct (consume_frame (chunks s) initial
              {| stdout := stdout w;
                 log := log w ++ [(DEBUG, Streaming_output)];
                 sent := sent w; stdout_encodes := stdout_encodes w |})
    as (_ & _ & He).
  destruct (consume initial (chunks s) _) as [[st|e] w']; [|reflexivity].
  destruct (ending s); [reflexivity|].
  simpl in He.
  assert (encodable w' [10%N] = encodable w [10%N]) as Hnl.
  { unfold encodable. rewrite He. reflexivity. }
  unfold bind, print. rewrite Hnl.
  destruct (encodable w [10%N]) eqn:E; [|reflexivity].
  change (encodable _ [10%N]) with (encodable w' [10%N]). rewrite Hnl.
  unfold writing. simpl. rewrite <- app_assoc. reflexivity.
Qed.

(** A complete fragment stream that standard output can encode is consumed
    to the end and finalized. *)
Lemma process_stream_fragments (ds : list ChoiceDelta) (w : World) :
  encodable w (printed ds) = true ->
  process_stream (fragments ds) w =
  (Returned (finalize (fold_left step ds initial)),
   {| stdout := (stdout w ++ concat (map echo ds)) ++ [10%N; 10%N];
      log := log w ++ [(DEBUG, Streaming_output)];
      sent := sent w;
      stdout_encodes := stdout_encodes w |}).
Proof.
  intros H. unfold printed in H. rewrite encodable_app in H.
  apply andb_true_iff in H. destruct H as [Hds Hnl].
  rewrite process_stream_unfold. unfold fragments. simpl chunks. simpl ending.
  rewrite consume_fragments; [|exact Hds].
  assert (encodable w [10%N] = true) as H1.
  { unfold encodable in *. simpl in *. destruct (stdout_encodes w 10%N);
      [reflexivity | discriminate Hnl]. }
  rewrite H1. reflexivity.
Qed.

(** When it returns, it returns the finalization of the state that [step]
    reaches. *)
Lemma process_stream_fragments_returned (ds : list ChoiceDelta) (w : World)
    (r : str * str) :
  result_of (process_stream (fragments ds)) w = Returned r ->
  encodable w (printed ds) = true /\
  r = finalize (fold_left step ds initial).
Proof.
  unfold result_of. intros H.
  destruct (encodable w (printed ds)) eqn:E.
  - rewrite (process_stream_fragments ds w E) in H. simpl in H.
    injection H as <-. split; reflexivity.
  - exfalso. rewrite process_stream_unfold in H.
    unfold fragments in H. simpl chunks in H. simpl ending in H.
    unfold printed in E. rewrite encodable_app in E.
    destruct (encodable w (concat (map echo ds))) eqn:Hds.
    + rewrite consume_fragments in H; [|exact Hds].
      simpl in E. unfold encodable in E, H. simpl in E, H.
      destruct (stdout_encodes w 10%N); simpl in E, H; discriminate.
    + destruct (consume_fragments_raises ds initial
                  (logging w [(DEBUG, Streaming_output)]) Hds)
        as (t & w' & Hc & _).
      rewrite Hc in H. discriminate H.
Qed.

End Loop.

(* ================================================================== *)
(** ** Finalization of the tagged single-channel dialect *)
(* ================================================================== *)

Section Tagged.

Import PyStr PyStrFacts.

(** The closing tag cannot start inside the opening tag: when it starts
    after the start of the opening tag, it starts after its end. *)
Lemma tags_apart (pre rest pre2 post : str) :
  pre ++ start_tag ++ rest = pre2 ++ end_tag ++ post ->
  (length pre < length pre2)%nat ->
  exists mid, pre2 = pre ++ start_tag ++ mid /\ rest = mid ++ end_tag ++ post.
Proof.
  intros H Hlt.
  destruct (app_eq_app _ _ _ _ H) as [x [[Hx _] | [Hx Hr]]].
  - exfalso. rewrite Hx, length_app in Hlt. lia.
  - subst pre2. clear H Hlt.
    unfold start_tag, end_tag in *. simpl in Hr.
    do 7 (destruct x as [|? x];
          [simpl in Hr; try discriminate Hr |
           simpl in Hr; injection Hr as <- Hr]).
    exists x. split; [reflexivity | exact Hr].
Qed.

Lemma finalize_tagged_found (st : Locals) (pre mid post : str) :
  is_official_api st = false ->
  full_response_content st = pre ++ start_tag ++ mid ++ end_tag ++ post ->
  first_occurrence start_tag (full_response_content st) (length pre) ->
  first_occurrence end_tag (full_response_content st)
    (length (pre ++ start_tag ++ mid)) ->
  finalize st = (strip mid, strip post).
Proof.
  intros Hoff Hfull Hs He. unfold finalize. rewrite Hoff.
  rewrite !contains_find.
  rewrite (find_first_occurrence _ _ _ Hs), (find_first_occurrence _ _ _ He).
  assert (Z.of_nat (length pre)
          < Z.of_nat (length (pre ++ start_tag ++ mid)))%Z as Hlt.
  { rewrite !length_app. simpl. lia. }
  destruct (Z.eqb_spec (Z.of_nat (length pre)) (-1)); [lia|].
  destruct (Z.eqb_spec (Z.of_nat (length (pre ++ start_tag ++ mid))) (-1));
    [lia|].
  destruct (Z.ltb_spec (Z.of_nat (length pre))
              (Z.of_nat (length (pre ++ start_tag ++ mid)))); [|lia].
  simpl. f_equal; f_equal.
  - rewrite Hfull.
    replace (pre ++ start_tag ++ mid ++ end_tag ++ post)
      with ((pre ++ start_tag) ++ mid ++ end_tag ++ post)
      by (rewrite <- app_assoc; reflexivity).
    apply slice_mid.
    + rewrite len_app. reflexivity.
    + unfold len. rewrite !length_app. simpl. lia.
  - rewrite Hfull.
    replace (pre ++ start_tag ++ mid ++ end_tag ++ post)
      with ((pre ++ start_tag ++ mid ++ end_tag) ++ post)
      by (rewrite <- !app_assoc; reflexivity).
    apply slice_tail. unfold len. rewrite !length_app. simpl. lia.
Qed.

Lemma finalize_tagged_fallback (st : Locals) :
  is_official_api st = false ->
  ~ (exists i j,
        first_occurrence start_tag (full_response_content st) i /\
        first_occurrence end_tag (full_response_content st) j /\
        (i < j)%nat) ->
  finalize st = (no_thinking_found, strip (full_response_content st)).
Proof.
  intros Hoff Hno. unfold finalize. rewrite Hoff.
  rewrite !contains_find.
  destruct (find_cases (full_response_content st) start_tag) as [Hs | [i Hs]];
    rewrite Hs; [reflexivity|].
  destruct (find_cases (full_response_content st) end_tag) as [He | [j He]];
    rewrite He.
  - destruct (Z.eqb_spec (Z.of_nat i) (-1)); reflexivity.
  - destruct (Z.eqb_spec (Z.of_nat i) (-1)); [lia|].
    destruct (Z.eqb_spec (Z.of_nat j) (-1)); [lia|].
    destruct (Z.ltb_spec (Z.of_nat i) (Z.of_nat j)) as [Hlt | Hge];
      [|reflexivity].
    exfalso. apply Hno. exists i, j.
    split; [exact (find_found _ _ _ Hs)|].
    split; [exact (find_found _ _ _ He) | lia].
Qed.

(** The two first occurrences, the opening tag first, split the text. *)
Lemma tags_split (raw : str) (i j : nat) :
  first_occurrence start_tag raw i -> first_occurrence end_tag raw j ->
  (i < j)%nat ->
  exists pre mid post,
    raw = pre ++ start_tag ++ mid ++ end_tag ++ post /\
    length pre = i /\ length (pre ++ start_tag ++ mid) = j.
Proof.
  intros [(pre & rest & Hraw & Hi) _] [(pre2 & post & Hraw2 & Hj) _] Hlt.
  assert (pre ++ start_tag ++ rest = pre2 ++ end_tag ++ post) as H
    by congruence.
  destruct (tags_apart _ _ _ _ H) as (mid & Hp & Hr); [lia|].
  exists pre, mid, post. subst rest pre2. repeat split; assumption.
Qed.

End Tagged.

(** C1.  Finalization when no reasoning delta was ever seen, on the
    concatenation [raw] of the content deltas.  The stream is finalized
    exactly when standard output can encode what is echoed.  Whenever it is
    finalized: if the first occurrence of the opening tag is at an index
    strictly below that of the first occurrence of the closing tag, [raw]
    splits around the two tags, the reasoning text is the text between
    them, trimmed, and the answer text is the text after the closing tag,
    trimmed.  In every other case (a tag is missing, or the closing tag
    comes first) the reasoning text is the sentinel and the answer text is
    the whole of [raw], trimmed.  That [t] is [s] trimmed is the relation
    [trimmed s t]: [s] is [t] between two runs of white space, and [t]
    neither starts nor ends with a white-space character. *)
Theorem tagged_single_channel_finalization
    (ds : list ChoiceDelta) (w : World) :
  no_reasoning ds = true ->
  let raw := all_content ds in
  let out := result_of (process_stream (fragments ds)) w in
  ((exists r, out = Returned r) <-> encodable w (printed ds) = true) /\
  (forall thinking answer : str,
      out = Returned (thinking, answer) ->
      (forall i j,
          first_occurrence start_tag raw i -> first_occurrence end_tag raw j ->
          (i < j)%nat ->
          exists pre mid post,
            raw = pre ++ start_tag ++ mid ++ end_tag ++ post /\
            length pre = i /\ length (pre ++ start_tag ++ mid) = j /\
            trimmed mid thinking /\ trimmed post answer) /\
      (~ (exists i j,
             first_occurrence start_tag raw i /\
             first_occurrence end_tag raw j /\ (i < j)%nat) ->
       thinking = no_thinking_found /\ trimmed raw answer) /\
      ((forall i, ~ occurs_at start_tag raw i) \/
       (forall j, ~ occurs_at end_tag raw j) \/
       (exists i j,
           first_occurrence start_tag raw i /\
           first_occurrence end_tag raw j /\ (j < i)%nat) ->
       thinking = no_thinking_found /\ trimmed raw answer)).
Proof.
  intros Hn raw out. split.
  - split.
    + intros [r Hr].
      exact (proj1 (process_stream_fragments_returned ds w r Hr)).
    + intros Henc. eexists. unfold out, result_of.
      rewrite (process_stream_fragments ds w Henc). reflexivity.
  - intros thinking answer Hout.
    destruct (process_stream_fragments_returned ds w _ Hout) as [_ Hfin].
    destruct (fold_step_unmarked ds initial eq_refl Hn)
      as (Hfull & _ & _ & Hoff).
    simpl in Hfull. fold raw in Hfull.
    assert (~ (exists i j,
                  first_occurrence start_tag raw i /\
                  first_occurrence end_tag raw j /\ (i < j)%nat) ->
            thinking = no_thinking_found /\ trimmed raw answer) as Hfallback.
    { intros Hno.
      rewrite (finalize_tagged_fallback _ Hoff) in Hfin;
        [|rewrite Hfull; exact Hno].
      injection Hfin as -> ->. rewrite Hfull.
      split; [reflexivity | apply PyStrFacts.strip_trimmed]. }
    split; [|split].
    + intros i j Hi Hj Hlt.
      destruct (tags_split raw i j Hi Hj Hlt)
        as (pre & mid & post & Hr & Hl & Hm).
      exists pre, mid, post.
      split; [exact Hr|]. split; [exact Hl|]. split; [exact Hm|].
      rewrite (finalize_tagged_found _ pre mid post Hoff) in Hfin.
      * injection Hfin as -> ->. split; apply PyStrFacts.strip_trimmed.
      * rewrite Hfull. exact Hr.
      * rewrite Hfull, Hl. exact Hi.
      * rewrite Hfull, Hm. exact Hj.
    + exact Hfallback.
    + intros Hcase. apply Hfallback. intros (i & j & Hi & Hj & Hlt).
      destruct Hcase as [Ha | [Ha | (i' & j' & Hi' & Hj' & Hgt)]].
      * destruct Hi as [Hocc _]. exact (Ha i Hocc).
      * destruct Hj as [Hocc _]. exact (Ha j Hocc).
      * pose proof (PyStrFacts.first_occurrence_unique _ _ _ _ Hi Hi').
        pose proof (PyStrFacts.first_occurrence_unique _ _ _ _ Hj Hj').
        lia.
Qed.

Lemma tagged_single_channel_finalization_witness :
  no_reasoning sample_spaced = true /\
  encodable empty_world (printed sample_spaced) = true /\
  all_content sample_spaced = dq " <think> a b </think>  {'x': 1}  " /\
  result_of (process_stream (fragments sample_spaced)) empty_world =
  Returned (dq "a b", dq "{'x': 1}").
Proof.
  split; [reflexivity|]. split; [reflexivity|]. split; [reflexivity|].
  destruct (tagged_single_channel_finalization sample_spaced empty_world
              eq_refl) as [Hfinalized Hresult].
  destruct (proj2 Hfinalized eq_refl) as [[thinking answer] Hout].
  destruct (Hresult thinking answer Hout) as [Hfound _].
  destruct (Hfound 1%nat 13%nat
              (PyStrFacts.find_found (all_content sample_spaced) start_tag
                 1 eq_refl)
              (PyStrFacts.find_found (all_content sample_spaced) end_tag
                 13 eq_refl)
              (proj1 (Nat.ltb_lt 1 13) eq_refl))
    as (pre & mid & post & Hraw & Hl & Hm & Ht & Ha).
  rewrite Hout.
  destruct pre as [|p0 [|p1 pre]]; try discriminate Hl.
  destruct mid as [|a [|b [|c [|d [|e [|f mid]]]]]]; try discriminate Hm.
  injection Hraw as <- <- <- <- <- <- <-.
  rewrite (PyStrFacts.trimmed_unique _ _ Ht), (PyStrFacts.trimmed_unique _ _ Ha).
  reflexivity.
Defined.

(* ================================================================== *)
(** ** Dialect detection *)
(* ================================================================== *)

(** The mark is never cleared: no chunk, well formed or not, takes a marked
    state to an unmarked one. *)
Lemma loop_body_keeps_mark (st st' : Locals) (c : ChatCompletionChunk)
    (w w' : World) :
  is_official_api st = true ->
  loop_body st c w = (Returned st', w') ->
  is_official_api st' = true.
Proof.
  intros Hoff H.
  destruct (loop_body_returned _ _ _ _ _ H) as (ch & rest & _ & _ & -> & _).
  simpl. rewrite Hoff. reflexivity.
Qed.

Lemma consume_keeps_mark (cs : list ChatCompletionChunk) (st st' : Locals)
    (w w' : World) :
  is_official_api st = true ->
  consume st cs w = (Returned st', w') ->
  is_official_api st' = true.
Proof.
  revert st w. induction cs as [|c cs IH]; intros st w Hoff H; simpl in H.
  - inversion H. subst. exact Hoff.
  - unfold bind in H.
    destruct (loop_body st c w) as [[st1|e] w1] eqn:E; [|discriminate H].
    apply (IH st1 w1); [|exact H].
    exact (loop_body_keeps_mark _ _ _ _ _ Hoff E).
Qed.

(** C2.  A fragment with a reasoning delta marks the stream as dual channel
    (the flag [is_official_api]) at that fragment, whatever came before; the
    mark holds after every continuation of the stream, whatever its deltas
    carry, and finalization then takes the dual-channel branch.  No chunk
    ever clears the mark.  This holds whenever the loop gets past the
    fragment; and it does get past it, and to the end of every continuation,
    when standard output can encode the texts to echo. *)
Theorem dual_channel_is_sticky
    (pre : list ChoiceDelta) (d : ChoiceDelta) (w : World) :
  has_reasoning d = true ->
  (forall st1 w1,
      consume initial (map chunk_of (pre ++ [d])) w = (Returned st1, w1) ->
      is_official_api st1 = true /\
      (forall (cs : list ChatCompletionChunk) st2 w2,
          consume st1 cs w1 = (Returned st2, w2) ->
          is_official_api st2 = true) /\
      (forall (suf : list ChoiceDelta) (r : str * str),
          result_of (process_stream (fragments (pre ++ d :: suf))) w
          = Returned r ->
          exists st2 w2,
            consume st1 (map chunk_of suf) w1 = (Returned st2, w2) /\
            is_official_api st2 = true /\
            r = (or_sentinel (thinking_process st2), final_answer st2))) /\
  (encodable w (concat (map echo (pre ++ [d]))) = true ->
   exists st1 w1,
     consume initial (map chunk_of (pre ++ [d])) w = (Returned st1, w1) /\
     is_official_api st1 = true /\
     (forall suf : list ChoiceDelta,
         encodable w (printed suf) = true ->
         exists st2 w2,
           consume st1 (map chunk_of suf) w1 = (Returned st2, w2) /\
           is_official_api st2 = true /\
           result_of (process_stream (fragments (pre ++ d :: suf))) w =
           Returned (or_sentinel (thinking_process st2), final_answer st2))).
Proof.
  intros Hd.
  assert (is_official_api (fold_left step (pre ++ [d]) initial) = true) as H1.
  { rewrite fold_step_official, existsb_app. simpl. rewrite Hd.
    rewrite orb_true_r. reflexivity. }
  assert (forall suf,
             is_official_api
               (fold_left step suf (fold_left step (pre ++ [d]) initial))
             = true) as H2.
  { intros suf. rewrite fold_step_official, H1. reflexivity. }
  assert (forall suf,
             finalize (fold_left step ((pre ++ [d]) ++ suf) initial) =
             (or_sentinel
                (thinking_process
                   (fold_left step suf (fold_left step (pre ++ [d]) initial))),
              final_answer
                (fold_left step suf (fold_left step (pre ++ [d]) initial))))
    as Hfin.
  { intros suf. rewrite fold_left_app. unfold finalize. rewrite H2.
    reflexivity. }
  assert (forall suf, pre ++ d :: suf = (pre ++ [d]) ++ suf) as Happ.
  { intros suf. rewrite <- app_assoc. reflexivity. }
  split.
  - intros st1 w1 Hc.
    destruct (consume_fragments_returned _ _ _ _ _ Hc) as (_ & -> & ->).
    split; [exact H1|]. split.
    + intros cs st2 w2 H. exact (consume_keeps_mark _ _ _ _ _ H1 H).
    + intros suf r Hres.
      destruct (process_stream_fragments_returned _ _ _ Hres) as [Henc ->].
      unfold printed in Henc. rewrite Happ, map_app, concat_app in Henc.
      rewrite <- app_assoc, encodable_app in Henc.
      apply andb_true_iff in Henc. destruct Henc as [_ Hsuf].
      rewrite encodable_app in Hsuf. apply andb_true_iff in Hsuf.
      destruct Hsuf as [Hsuf _].
      eexists. eexists. split; [apply consume_fragments; exact Hsuf|].
      split; [apply H2|]. rewrite Happ. apply Hfin.
  - intros Henc.
    eexists. eexists. split; [apply consume_fragments; exact Henc|].
    split; [exact H1|].
    intros suf Hsuf.
    assert (encodable w (concat (map echo suf)) = true) as Hsuf'.
    { unfold printed in Hsuf. rewrite encodable_app in Hsuf.
      apply andb_true_iff in Hsuf. exact (proj1 Hsuf). }
    eexists. eexists. split; [apply consume_fragments; exact Hsuf'|].
    split; [apply H2|].
    rewrite Happ. unfold result_of. rewrite process_stream_fragments.
    + simpl. apply f_equal. apply Hfin.
    + unfold printed. rewrite map_app, concat_app, <- app_assoc.
      rewrite encodable_app, Henc. exact Hsuf.
Qed.

Lemma dual_channel_is_sticky_witness :
  has_reasoning (reasoning_delta (dq "r")) = true /\
  encodable empty_world
    (concat (map echo ([content_delta (dq "A")] ++ [reasoning_delta (dq "r")])))
  = true /\
  encodable empty_world (printed [heartbeat; content_delta (dq "B")]) = true /\
  exists st1 w1,
    consume initial
      (map chunk_of ([content_delta (dq "A")] ++ [reasoning_delta (dq "r")]))
      empty_world = (Returned st1, w1) /\
    is_official_api st1 = true /\
    result_of
      (process_stream
         (fragments ([content_delta (dq "A")] ++
                     reasoning_delta (dq "r") ::
                     [heartbeat; content_delta (dq "B")])))
      empty_world = Returned (dq "r", dq "B").
Proof.
  split; [reflexivity|]. split; [reflexivity|]. split; [reflexivity|].
  destruct (dual_channel_is_sticky [content_delta (dq "A")]
              (reasoning_delta (dq "r")) empty_world eq_refl)
    as [_ Hreach].
  destruct (Hreach eq_refl) as (st1 & w1 & Hc & Hm & Hsuf).
  exists st1, w1. split; [exact Hc|]. split; [exact Hm|].
  destruct (Hsuf [heartbeat; content_delta (dq "B")] eq_refl)
    as (st2 & w2 & Hc2 & _ & Hres).
  rewrite Hres.
  injection Hc as <- <-. injection Hc2 as <- _.
  reflexivity.
Defined.

(* ================================================================== *)
(** ** Accumulation *)
(* ================================================================== *)

(** C5.  A chunk whose delta (that of its first choice) has a content text
    appends it to exactly one buffer, chosen by the dual-channel mark as of
    that chunk, its own reasoning delta included: unmarked, to
    [full_response_content], and [final_answer] is unchanged; marked, to
    [final_answer], and [full_response_content] is unchanged.  The reasoning
    buffer receives the reasoning delta only.  This is the state after the
    chunk whenever the chunk does not raise; and it does not raise exactly
    when standard output can encode the delta to echo. *)
Theorem content_goes_to_one_buffer
    (st : Locals) (c : ChatCompletionChunk) (ch : Choice)
    (rest : list Choice) (cd : str) (w : World) :
  choices c = ch :: rest ->
  content (delta ch) = Some cd ->
  let marked := is_official_api st || has_reasoning (delta ch) in
  let appended (st' : Locals) :=
    is_official_api st' = marked /\
    full_response_content st' =
      (if marked then full_response_content st
       else full_response_content st ++ cd) /\
    final_answer st' =
      (if marked then final_answer st ++ cd else final_answer st) /\
    thinking_process st' = thinking_process st ++ reasoning_text (delta ch) in
  (forall st' w', loop_body st c w = (Returned st', w') -> appended st') /\
  (encodable w (echo (delta ch)) = true ->
   exists st' w', loop_body st c w = (Returned st', w') /\ appended st') /\
  (encodable w (echo (delta ch)) = false ->
   exists t w', loop_body st c w = (Raised (UnicodeEncodeError t), w')).
Proof.
  intros Hc Hcd marked appended.
  assert (appended (step st (delta ch))) as Hstep.
  { unfold appended, step, content_text. rewrite Hcd. fold marked. simpl.
    repeat split; reflexivity. }
  rewrite (loop_body_first_choice st c ch rest Hc).
  split; [|split].
  - intros st' w' H.
    destruct (loop_body_returned _ _ _ _ _ H)
      as (ch' & rest' & Hch & _ & -> & _).
    injection Hch as <- _. exact Hstep.
  - intros Henc. rewrite (loop_body_chunk_of st (delta ch) w Henc).
    eexists. eexists. split; [reflexivity | exact Hstep].
  - intros Henc.
    destruct (loop_body_chunk_of_raises st (delta ch) w Henc)
      as (t & w' & Hr & _).
    exists t, w'. exact Hr.
Qed.

Lemma content_goes_to_one_buffer_witness :
  choices (chunk_of (both_delta (dq "r") (dq "B")))
  = {| delta := both_delta (dq "r") (dq "B") |} :: [] /\
  content (both_delta (dq "r") (dq "B")) = Some (dq "B") /\
  encodable empty_world (echo (both_delta (dq "r") (dq "B"))) = true /\
  exists st' w',
    loop_body
      {| full_response_content := dq "A"; thinking_process := [];
         final_answer := []; is_official_api := false |}
      (chunk_of (both_delta (dq "r") (dq "B"))) empty_world
    = (Returned st', w') /\
    full_response_content st' = dq "A" /\ final_answer st' = dq "B".
Proof.
  split; [reflexivity|]. split; [reflexivity|]. split; [reflexivity|].
  destruct (content_goes_to_one_buffer
              {| full_response_content := dq "A"; thinking_process := [];
                 final_answer := []; is_official_api := false |}
              (chunk_of (both_delta (dq "r") (dq "B")))
              {| delta := both_delta (dq "r") (dq "B") |} [] (dq "B")
              empty_world eq_refl eq_refl)
    as (_ & Hreturns & _).
  destruct (Hreturns eq_refl) as (st' & w' & Hl & _ & Hfull & Hfinal & _).
  exists st', w'. split; [exact Hl|]. split; [exact Hfull | exact Hfinal].
Defined.

(** A delta without content leaves both content buffers as they are. *)
Lemma no_content_no_append (st : Locals) (d : ChoiceDelta) (w : World) :
  content d = None ->
  encodable w (echo d) = true ->
  exists st' w',
    loop_body st (chunk_of d) w = (Returned st', w') /\
    full_response_content st' = full_response_content st /\
    final_answer st' = final_answer st.
Proof.
  intros H Henc. rewrite (loop_body_chunk_of st d w Henc). eexists. eexists.
  split; [reflexivity|]. unfold step, content_text. rewrite H. simpl.
  rewrite !app_nil_r.
  destruct (is_official_api st || has_reasoning d); split; reflexivity.
Qed.

(* ================================================================== *)
(** ** Message construction *)
(* ================================================================== *)

(** C6.  [_prepare_messages] builds exactly two messages, each with the
    keys [role] and [content] in this order: the system message carries the
    system prompt as it is, and the user message carries the user input as
    it is when thinking is enabled, and otherwise the ten characters
    [/no_think] and line feed followed by the user input as it is. *)
Theorem prepare_messages_spec
    (self : AsyncAnamnesisModelClient) (user_input : str)
    (enable_thinking : bool) :
  exists system_message user_message : message,
    _prepare_messages self user_input enable_thinking
    = [system_message; user_message] /\
    map fst system_message = [PyStr.lit "role"; PyStr.lit "content"] /\
    map fst user_message = [PyStr.lit "role"; PyStr.lit "content"] /\
    dict_get (PyStr.lit "role") system_message = Some (PyStr.lit "system") /\
    dict_get (PyStr.lit "content") system_message
    = Some (system_prompt_template self) /\
    dict_get (PyStr.lit "role") user_message = Some (PyStr.lit "user") /\
    dict_get (PyStr.lit "content") user_message
    = Some (if enable_thinking then user_input
            else [47; 110; 111; 95; 116; 104; 105; 110; 107; 10]%N
                 ++ user_input) /\
    skipn 10 ([47; 110; 111; 95; 116; 104; 105; 110; 107; 10]%N ++ user_input)
    = user_input /\
    PyStr.lit "/no_think" ++ [10%N]
    = [47; 110; 111; 95; 116; 104; 105; 110; 107; 10]%N.
Proof.
  eexists. eexists. split; [reflexivity|].
  destruct enable_thinking; repeat split; reflexivity.
Qed.

(* ================================================================== *)
(** ** The result as a function of the deltas *)
(* ================================================================== *)

Section Results.

Import PyStrFacts.

Lemma all_content_app (a b : list ChoiceDelta) :
  all_content (a ++ b) = all_content a ++ all_content b.
Proof. unfold all_content. rewrite map_app, concat_app. reflexivity. Qed.

(** Without a reasoning delta the result is the tagged finalization of the
    concatenated content. *)
Lemma tagged_result (ds : list ChoiceDelta) (w : World) :
  no_reasoning ds = true ->
  encodable w (printed ds) = true ->
  result_of (process_stream (fragments ds)) w =
  Returned (finalize {| full_response_content := all_content ds;
                        thinking_process := [];
                        final_answer := [];
                        is_official_api := false |}).
Proof.
  intros Hn Henc. unfold result_of.
  rewrite (process_stream_fragments ds w Henc). simpl.
  destruct (fold_step_unmarked ds initial eq_refl Hn) as (Hf & Ha & Ht & Ho).
  simpl in Hf, Ha, Ht.
  destruct (fold_left step ds initial) as [full think final off].
  simpl in *. subst. reflexivity.
Qed.

(** From the first reasoning delta on, the result is made of the reasoning
    texts and of the content texts of that fragment and the later ones; the
    content of earlier fragments is dropped. *)
Lemma dual_channel_result (pre suf : list ChoiceDelta) (d : ChoiceDelta)
    (w : World) :
  no_reasoning pre = true -> has_reasoning d = true ->
  encodable w (printed (pre ++ d :: suf)) = true ->
  result_of (process_stream (fragments (pre ++ d :: suf))) w =
  Returned (or_sentinel (all_reasoning (d :: suf)), all_content (d :: suf)).
Proof.
  intros Hn Hd Henc. unfold result_of.
  rewrite (process_stream_fragments _ w Henc). simpl.
  rewrite fold_left_app. simpl.
  destruct (fold_step_unmarked pre initial eq_refl Hn) as (Hf & Ha & Ht & Ho).
  simpl in Hf, Ha, Ht.
  set (st1 := step (fold_left step pre initial) d).
  assert (is_official_api st1 = true) as H1.
  { unfold st1. simpl. rewrite Hd. apply orb_true_r. }
  assert (final_answer st1 = content_text d) as Hfa.
  { unfold st1. simpl. rewrite Ho, Hd, Ha. reflexivity. }
  assert (thinking_process st1 = reasoning_text d) as Hth.
  { unfold st1. simpl. rewrite Ht. reflexivity. }
  destruct (fold_step_marked suf st1 H1) as [Hfin _].
  unfold finalize. rewrite fold_step_official, H1. simpl.
  rewrite Hfin, fold_step_thinking, Hfa, Hth. reflexivity.
Qed.

(** A sequence with a reasoning delta splits at the first one. *)
Lemma first_reasoning_split (ds : list ChoiceDelta) :
  no_reasoning ds = false ->
  exists pre d suf,
    ds = pre ++ d :: suf /\ no_reasoning pre = true /\ has_reasoning d = true.
Proof.
  induction ds as [|d ds IH]; simpl; [discriminate|].
  destruct (has_reasoning d) eqn:E; simpl.
  - intros _. exists [], d, ds. repeat split. exact E.
  - intros H. destruct (IH H) as (pre & d' & suf & -> & Hn & Hd).
    exists (d :: pre), d', suf. simpl. rewrite E. repeat split; assumption.
Qed.

(** The first reasoning delta of a sequence is at one place only. *)
Lemma first_reasoning_unique (pre1 pre2 suf1 suf2 : list ChoiceDelta)
    (d1 d2 : ChoiceDelta) :
  pre1 ++ d1 :: suf1 = pre2 ++ d2 :: suf2 ->
  no_reasoning pre1 = true -> has_reasoning d1 = true ->
  no_reasoning pre2 = true -> has_reasoning d2 = true ->
  pre1 = pre2 /\ d1 = d2 /\ suf1 = suf2.
Proof.
  revert pre2. induction pre1 as [|x pre1 IH]; intros [|y pre2] H H1 Hd1 H2 Hd2;
    simpl in *.
  - injection H as <- <-. repeat split; reflexivity.
  - injection H as <- _. apply andb_true_iff in H2. destruct H2 as [H2 _].
    rewrite Hd1 in H2. discriminate H2.
  - injection H as <- _. apply andb_true_iff in H1. destruct H1 as [H1 _].
    rewrite Hd2 in H1. discriminate H1.
  - injection H as <- H.
    apply andb_true_iff in H1. apply andb_true_iff in H2.
    destruct (IH pre2 H (proj2 H1) Hd1 (proj2 H2) Hd2) as (-> & -> & ->).
    repeat split; reflexivity.
Qed.

(** The text is split by the two tags in order, or it is not. *)
Lemma tagged_cases (raw : str) :
  (exists pre mid post,
      raw = pre ++ start_tag ++ mid ++ end_tag ++ post /\
      first_occurrence start_tag raw (length pre) /\
      first_occurrence end_tag raw (length (pre ++ start_tag ++ mid))) \/
  ~ (exists i j,
        first_occurrence start_tag raw i /\ first_occurrence end_tag raw j /\
        (i < j)%nat).
Proof.
  destruct (find_cases raw start_tag) as [Hs | [i Hs]].
  - right. intros (i & j & [Hi _] & _). exact (find_absent _ _ Hs _ Hi).
  - destruct (find_cases raw end_tag) as [He | [j He]].
    + right. intros (i' & j' & _ & [Hj _] & _). exact (find_absent _ _ He _ Hj).
    + apply find_found in Hs. apply find_found in He.
      destruct (Nat.lt_ge_cases i j) as [Hlt | Hge].
      * left. destruct (tags_split raw i j Hs He Hlt)
          as (pre & mid & post & Hraw & Hl & Hm).
        exists pre, mid, post. subst i j.
        split; [assumption | split; assumption].
      * right. intros (i' & j' & Hi & Hj & Hlt).
        pose proof (first_occurrence_unique _ _ _ _ Hi Hs).
        pose proof (first_occurrence_unique _ _ _ _ Hj He). lia.
Qed.

End Results.

(** C4, as the code has it.  For fragment sequences without a reasoning
    delta the result depends only on the concatenation of the content
    deltas, not on how it is split into fragments: two such streams with the
    same concatenation give the same result whenever both are finalized, and
    both are when standard output can encode them.  When the concatenation
    is the tagged sample of the specification, the reasoning text is [abc]
    and the answer text is the JSON object after the closing tag. *)
Theorem tagged_result_depends_only_on_concatenation
    (ds1 ds2 : list ChoiceDelta) (w1 w2 : World) :
  no_reasoning ds1 = true -> no_reasoning ds2 = true ->
  all_content ds1 = all_content ds2 ->
  let out1 := result_of (process_stream (fragments ds1)) w1 in
  let out2 := result_of (process_stream (fragments ds2)) w2 in
  (forall r1 r2, out1 = Returned r1 -> out2 = Returned r2 -> r1 = r2) /\
  (encodable w1 (printed ds1) = true -> encodable w2 (printed ds2) = true ->
   out1 = out2 /\ exists r, out1 = Returned r) /\
  (all_content ds1 = dq "<think>abc</think>{'x':1}" ->
   (forall r1, out1 = Returned r1 -> r1 = (dq "abc", dq "{'x':1}")) /\
   (encodable w1 (printed ds1) = true ->
    out1 = Returned (dq "abc", dq "{'x':1}"))).
Proof.
  intros H1 H2 Heq out1 out2.
  assert (forall ds w r,
             no_reasoning ds = true ->
             result_of (process_stream (fragments ds)) w = Returned r ->
             r = finalize {| full_response_content := all_content ds;
                             thinking_process := [];
                             final_answer := [];
                             is_official_api := false |}) as Hret.
  { intros ds w r Hn Hr.
    destruct (process_stream_fragments_returned ds w r Hr) as [Henc _].
    rewrite (tagged_result ds w Hn Henc) in Hr. injection Hr as <-.
    reflexivity. }
  split; [|split].
  - intros r1 r2 Hr1 Hr2.
    rewrite (Hret ds1 w1 r1 H1 Hr1), (Hret ds2 w2 r2 H2 Hr2), Heq.
    reflexivity.
  - intros He1 He2. unfold out1, out2.
    rewrite (tagged_result ds1 w1 H1 He1), (tagged_result ds2 w2 H2 He2), Heq.
    split; [reflexivity | eexists; reflexivity].
  - intros Hraw. split.
    + intros r1 Hr1. rewrite (Hret ds1 w1 r1 H1 Hr1), Hraw. reflexivity.
    + intros He1. unfold out1. rewrite (tagged_result ds1 w1 H1 He1), Hraw.
      reflexivity.
Qed.

Lemma tagged_result_depends_only_on_concatenation_witness :
  no_reasoning sample_tagged = true /\
  no_reasoning [content_delta (dq "<think>abc</think>{'x':1}")] = true /\
  all_content sample_tagged
  = all_content [content_delta (dq "<think>abc</think>{'x':1}")] /\
  encodable empty_world (printed sample_tagged) = true /\
  encodable (logging empty_world [(INFO, Please_check)])
    (printed [content_delta (dq "<think>abc</think>{'x':1}")]) = true /\
  result_of (process_stream (fragments sample_tagged)) empty_world =
  result_of
    (process_stream
       (fragments [content_delta (dq "<think>abc</think>{'x':1}")]))
    (logging empty_world [(INFO, Please_check)]) /\
  result_of (process_stream (fragments sample_tagged)) empty_world =
  Returned (dq "abc", dq "{'x':1}").
Proof.
  split; [reflexivity|]. split; [reflexivity|]. split; [reflexivity|].
  split; [reflexivity|]. split; [reflexivity|].
  destruct (tagged_result_depends_only_on_concatenation
              sample_tagged
              [content_delta (dq "<think>abc</think>{'x':1}")]
              empty_world (logging empty_world [(INFO, Please_check)])
              eq_refl eq_refl eq_refl) as (_ & Hsame & Hsample).
  split; [exact (proj1 (Hsame eq_refl eq_refl))|].
  exact (proj2 (Hsample eq_refl) eq_refl).
Defined.

(** C4 as stated fails when a reasoning delta occurs.  Merging two
    adjacent fragments, a content delta and then a reasoning delta, into one
    fragment that carries both keeps the concatenation of each kind of delta
    and changes the answer text.  And a reasoning delta with the empty text
    adds nothing to any concatenation, yet switches the finalization from
    the tagged to the dual-channel one. *)
Lemma fragment_boundaries_matter :
  let ds1 := [content_delta (dq "A"); reasoning_delta (dq "r")] in
  let ds2 := [both_delta (dq "r") (dq "A")] in
  let ds3 := [content_delta (dq "<think>t</think> x")] in
  let ds4 := [reasoning_delta []; content_delta (dq "<think>t</think> x")] in
  (all_content ds1 = all_content ds2 /\
   all_reasoning ds1 = all_reasoning ds2 /\
   result_of (process_stream (fragments ds1)) empty_world
   = Returned (dq "r", []) /\
   result_of (process_stream (fragments ds2)) empty_world
   = Returned (dq "r", dq "A")) /\
  (all_content ds3 = all_content ds4 /\
   all_reasoning ds3 = all_reasoning ds4 /\
   result_of (process_stream (fragments ds3)) empty_world
   = Returned (dq "t", dq "x") /\
   result_of (process_stream (fragments ds4)) empty_world
   = Returned (no_thinking_found, dq "<think>t</think> x")).
Proof. repeat split; reflexivity. Qed.

(** C7, as the code has it.  A complete fragment stream is finalized
    exactly when standard output can encode what is echoed, and then its
    answer text is empty whenever the content deltas concatenate to the
    empty text (so for the empty stream).  Nothing makes it non-empty
    otherwise.  Without a reasoning delta it is, when the two tags are found
    in order, the text after the first closing tag, trimmed, and else the
    whole content, trimmed: empty exactly when that text is blank.  From the
    first reasoning delta on it is the concatenation of the content deltas
    of that fragment and the later ones. *)
Theorem answer_text_emptiness (ds : list ChoiceDelta) (w : World) :
  let out := result_of (process_stream (fragments ds)) w in
  ((exists r, out = Returned r) <-> encodable w (printed ds) = true) /\
  (forall thinking answer : str,
      out = Returned (thinking, answer) ->
      (all_content ds = [] -> answer = []) /\
      (no_reasoning ds = true ->
       (forall pre mid post,
           all_content ds = pre ++ start_tag ++ mid ++ end_tag ++ post ->
           first_occurrence start_tag (all_content ds) (length pre) ->
           first_occurrence end_tag (all_content ds)
             (length (pre ++ start_tag ++ mid)) ->
           trimmed post answer /\ (answer = [] <-> blank post = true)) /\
       (~ (exists i j,
              first_occurrence start_tag (all_content ds) i /\
              first_occurrence end_tag (all_content ds) j /\ (i < j)%nat) ->
        trimmed (all_content ds) answer /\
        (answer = [] <-> blank (all_content ds) = true))) /\
      (forall pre d suf,
          ds = pre ++ d :: suf -> no_reasoning pre = true ->
          has_reasoning d = true ->
          answer = all_content (d :: suf) /\
          (answer = [] <-> all_content (d :: suf) = []))).
Proof.
  intros out. split.
  - split.
    + intros [r Hr].
      exact (proj1 (process_stream_fragments_returned ds w r Hr)).
    + intros Henc. eexists. unfold out, result_of.
      rewrite (process_stream_fragments ds w Henc). reflexivity.
  - intros thinking answer Hout.
    destruct (process_stream_fragments_returned ds w _ Hout) as [Henc _].
    destruct (no_reasoning ds) eqn:Hn.
    + unfold out in Hout. rewrite (tagged_result ds w Hn Henc) in Hout.
      set (st := {| full_response_content := all_content ds;
                    thinking_process := [];
                    final_answer := [];
                    is_official_api := false |}) in Hout.
      assert (answer = snd (finalize st)) as Hans.
      { injection Hout as Hout. rewrite Hout. reflexivity. }
      assert (forall pre mid post,
                 all_content ds = pre ++ start_tag ++ mid ++ end_tag ++ post ->
                 first_occurrence start_tag (all_content ds) (length pre) ->
                 first_occurrence end_tag (all_content ds)
                   (length (pre ++ start_tag ++ mid)) ->
                 answer = PyStr.strip post) as Hfound.
      { intros pre mid post Hraw Hs He. rewrite Hans.
        rewrite (finalize_tagged_found st pre mid post eq_refl Hraw Hs He).
        reflexivity. }
      assert (~ (exists i j,
                    first_occurrence start_tag (all_content ds) i /\
                    first_occurrence end_tag (all_content ds) j /\
                    (i < j)%nat) ->
              answer = PyStr.strip (all_content ds)) as Hfallback.
      { intros Hno. rewrite Hans.
        rewrite (finalize_tagged_fallback st eq_refl Hno). reflexivity. }
      split; [|split].
      * intros Hnil.
        destruct (tagged_cases (all_content ds))
          as [(pre & mid & post & Hraw & Hs & He) | Hno].
        -- rewrite Hnil in Hraw. destruct pre; discriminate Hraw.
        -- rewrite (Hfallback Hno), Hnil. reflexivity.
      * intros _. split.
        -- intros pre mid post Hraw Hs He.
           rewrite (Hfound pre mid post Hraw Hs He).
           split; [apply PyStrFacts.strip_trimmed
                  | apply PyStrFacts.strip_nil_iff].
        -- intros Hno. rewrite (Hfallback Hno).
           split; [apply PyStrFacts.strip_trimmed
                  | apply PyStrFacts.strip_nil_iff].
      * intros pre d suf -> Hpre Hd. exfalso.
        unfold no_reasoning in Hn. rewrite forallb_app in Hn. simpl in Hn.
        rewrite Hd in Hn. simpl in Hn. rewrite andb_false_r in Hn.
        discriminate Hn.
    + destruct (first_reasoning_split ds Hn)
        as (pre & d & suf & Hds & Hpre & Hd).
      subst ds. unfold out in Hout.
      rewrite (dual_channel_result pre suf d w Hpre Hd Henc) in Hout.
      injection Hout as _ <-.
      split; [|split].
      * intros Hnil. rewrite all_content_app in Hnil.
        apply app_eq_nil in Hnil. destruct Hnil as [_ H]. exact H.
      * discriminate.
      * intros pre' d' suf' Heq Hpre' Hd'.
        destruct (first_reasoning_unique _ _ _ _ _ _ Heq Hpre Hd Hpre' Hd')
          as (_ & <- & <-).
        split; [reflexivity | tauto].
Qed.

Lemma answer_text_emptiness_witness :
  encodable empty_world (printed [content_delta (dq "<think>x</think>  ")])
  = true /\
  blank (dq "  ") = true /\
  exists thinking,
    result_of
      (process_stream (fragments [content_delta (dq "<think>x</think>  ")]))
      empty_world
    = Returned (thinking, []).
Proof.
  split; [reflexivity|]. split; [reflexivity|].
  destruct (answer_text_emptiness [content_delta (dq "<think>x</think>  ")]
              empty_world) as [Hfinalized Hresult].
  destruct (proj2 Hfinalized eq_refl) as [[thinking answer] Hout].
  destruct (Hresult thinking answer Hout) as (_ & Htagged & _).
  destruct (Htagged eq_refl) as [Hfound _].
  destruct (Hfound [] (dq "x") (dq "  ") eq_refl
              (PyStrFacts.find_found
                 (all_content [content_delta (dq "<think>x</think>  ")])
                 start_tag 0 eq_refl)
              (PyStrFacts.find_found
                 (all_content [content_delta (dq "<think>x</think>  ")])
                 end_tag 8 eq_refl))
    as [_ Hempty].
  exists thinking. rewrite Hout, (proj2 Hempty eq_refl). reflexivity.
Defined.

(** C7 as stated fails: streams that carry a delta and finalize to an empty
    answer text, in either dialect. *)
Lemma nonempty_stream_empty_answer :
  result_of (process_stream (fragments [content_delta (dq " ")])) empty_world
  = Returned (no_thinking_found, []) /\
  result_of
    (process_stream (fragments [content_delta (dq "<think>x</think>")]))
    empty_world
  = Returned (dq "x", []) /\
  result_of (process_stream (fragments [reasoning_delta (dq "r")])) empty_world
  = Returned (dq "r", []).
Proof. repeat split; reflexivity. Qed.

(* ================================================================== *)
(** ** Determinism and the echo *)
(* ================================================================== *)

Section Determinism.

Lemma loop_body_result_indep (st : Locals) (c : ChatCompletionChunk)
    (w1 w2 : World) :
  (forall c, stdout_encodes w1 c = stdout_encodes w2 c) ->
  fst (loop_body st c w1) = fst (loop_body st c w2).
Proof.
  intros H. unfold loop_body. destruct (choices c) as [|ch rest]; [reflexivity|].
  unfold on_reasoning, on_content, bind, ret, print.
  destruct (delta ch) as [[|[r|]] [cd|]]; simpl;
    rewrite ?(encodable_ext w1 w2 _ H);
    try reflexivity.
  - destruct (encodable w2 cd); reflexivity.
  - destruct (encodable w2 r); [|reflexivity].
    change (encodable _ cd) with (encodable w1 cd) at 1.
    change (encodable _ cd) with (encodable w2 cd) at 2.
    rewrite (encodable_ext w1 w2 _ H).
    destruct (encodable w2 cd); reflexivity.
  - destruct (encodable w2 r); reflexivity.
  - destruct (encodable w2 cd); reflexivity.
Qed.

Lemma consume_result_indep (cs : list ChatCompletionChunk) :
  forall (st : Locals) (w1 w2 : World),
    (forall c, stdout_encodes w1 c = stdout_encodes w2 c) ->
    fst (consume st cs w1) = fst (consume st cs w2).
Proof.
  induction cs as [|c cs IH]; intros st w1 w2 Henc; simpl; [reflexivity|].
  unfold bind. pose proof (loop_body_result_indep st c w1 w2 Henc) as H.
  destruct (loop_body_frame st c w1) as (_ & _ & He1).
  destruct (loop_body_frame st c w2) as (_ & _ & He2).
  destruct (loop_body st c w1) as [[st1|e1] w1'],
           (loop_body st c w2) as [[st2|e2] w2']; simpl in H, He1, He2;
    try discriminate H.
  - injection H as <-. apply IH. intros x. rewrite He1, He2. apply Henc.
  - exact H.
Qed.

(** The value returned for a stream depends on the world only through the
    encoding of standard output. *)
Lemma process_stream_result_indep (s : Stream) (w1 w2 : World) :
  (forall c, stdout_encodes w1 c = stdout_encodes w2 c) ->
  result_of (process_stream s) w1 = result_of (process_stream s) w2.
Proof.
  intros Henc. unfold result_of. rewrite !process_stream_unfold.
  pose proof (consume_result_indep (chunks s) initial
                (logging w1 [(DEBUG, Streaming_output)])
                (logging w2 [(DEBUG, Streaming_output)]) Henc) as H.
  rewrite (encodable_ext w1 w2 _ Henc).
  destruct (consume initial (chunks s) (logging w1 _)) as [[st1|e1] w1'],
           (consume initial (chunks s) (logging w2 _)) as [[st2|e2] w2'];
    simpl in H; try discriminate H.
  - injection H as <-. destruct (ending s); [reflexivity|].
    destruct (encodable w2 [10%N]); reflexivity.
  - injection H as <-. reflexivity.
Qed.



End Determinism.




(* ================================================================== *)
(** ** The public entry point *)
(* ================================================================== *)

Section RunFacts.

Variable json_loads : str -> Json.decode_msg + Json.json.
Variable json_dumps : Json.json -> str.

(** [run], case by case: what the call of the service gives, how the stream
    ends and whether the answer text parses. *)
Lemma run_unfold (self : AsyncAnamnesisModelClient) (user_input : str)
    (enable_thinking : bool) (w : World) :
  let req := request_of self user_input enable_thinking in
  run json_loads json_dumps self user_input enable_thinking w =
  match async_client self req with
  | Raised e =>
      if is_Exception e
      then (Returned None, logging (calling self w req) (error_log self e))
      else (Raised e, calling self w req)
  | Returned s =>
      match process_stream s (calling self w req) with
      | (Raised e, w1) =>
          if is_Exception e
          then (Returned None, logging w1 (error_log self e))
          else (Raised e, w1)
      | (Returned (thinking, answer), w1) =>
          match json_loads answer with
          | inl msg =>
              (Returned None,
               logging (logging w1 (thinking_log thinking))
                 (error_log self (JSONDecodeError msg answer)))
          | inr v =>
              (Returned (Some answer),
               logging (logging w1 (thinking_log thinking))
                 [(INFO, Final_output (json_dumps v))])
          end
      end
  end.
Proof.
  intros req. subst req.
  unfold run, try_except, _stream_and_process_response_async, request_of,
    calling.
  unfold bind at 1 2. unfold create at 1.
  destruct (async_client self _) as [s|e].
  - destruct (process_stream s _) as [[[thinking answer]|e] w1].
    + unfold thinking_log.
      destruct (negb (PyStr.eqb thinking no_thinking_found_ascii_stop)
                && (0 <? PyStr.len thinking)%Z);
        destruct (json_loads answer) as [msg|v];
        unfold bind, logger, ret, raise, logging, error_log; simpl;
        rewrite ?app_nil_r, <- ?app_assoc; simpl; try reflexivity;
        destruct w1; reflexivity.
    + destruct (is_Exception e); [|reflexivity].
      unfold bind, logger, ret, logging, error_log. simpl.
      rewrite <- ?app_assoc. reflexivity.
  - destruct (is_Exception e); [|reflexivity].
    unfold bind, logger, ret, logging, error_log. simpl.
    rewrite <- ?app_assoc. reflexivity.
Qed.

(** Processing a stream writes one debug record and sends nothing. *)
Lemma process_stream_frame (s : Stream) (w : World) :
  log (snd (process_stream s w)) = log w ++ [(DEBUG, Streaming_output)] /\
  sent (snd (process_stream s w)) = sent w /\
  stdout_encodes (snd (process_stream s w)) = stdout_encodes w.
Proof.
  rewrite process_stream_unfold.
  destruct (consume_frame (chunks s) initial
              (logging w [(DEBUG, Streaming_output)])) as (Hl & Hs & He).
  destruct (consume initial (chunks s) _) as [[st|e] w'];
    [destruct (ending s); [|destruct (encodable w [10%N])]|];
    simpl in *; repeat split; assumption.
Qed.

(** The call of the service does not change what a stream gives. *)
Lemma process_stream_after_call (self : AsyncAnamnesisModelClient)
    (req : Request) (s : Stream) (w : World) :
  fst (process_stream s (calling self w req)) = result_of (process_stream s) w.
Proof.
  apply (process_stream_result_indep s (calling self w req) w).
  intros c. reflexivity.
Qed.



End RunFacts.

(** The sentinel itself passes the test of line 144, whose literal ends
    with an ASCII full stop: [run] logs it as a thinking process. *)
Remark sentinel_is_logged_as_thinking :
  thinking_log no_thinking_found
  = [(INFO, Thinking_process no_thinking_found)].
Proof. reflexivity. Qed.

(** C3, as the code has it.  When the finalized answer text does not parse,
    [run] raises nothing and returns [None]: the caller receives neither the
    answer text nor the reasoning text.  There is no retry: the requests
    that went out are those of the one call of the service that obtained the
    stream.  The log ends with the error records: the failure reason
    (without the text that failed to parse), then the hints with the base
    URL and the model identifier. *)
Theorem parse_failure_returns_none
    (json_loads : str -> Json.decode_msg + Json.json)
    (json_dumps : Json.json -> str)
    (self : AsyncAnamnesisModelClient) (user_input : str)
    (enable_thinking : bool) (s : Stream) (w : World)
    (thinking answer : str) (msg : Json.decode_msg) :
  async_client self (request_of self user_input enable_thinking)
  = Returned s ->
  result_of (process_stream s) w = Returned (thinking, answer) ->
  json_loads answer = inl msg ->
  exists w',
    run json_loads json_dumps self user_input enable_thinking w
    = (Returned None, w') /\
    sent w' =
      sent (snd (create self (request_of self user_input enable_thinking) w)) /\
    log w' =
      log w ++ [(DEBUG, Streaming_output)] ++ thinking_log thinking ++
      [ (ERROR, Call_failed (Text_json_decode_error msg));
        (ERROR, Please_check);
        (ERROR, Check_service_started);
        (ERROR, Check_base_url (base_url self));
        (ERROR, Check_model_uid (model_uid self)) ].
Proof.
  intros Hs Hres Hj.
  pose proof (run_unfold json_loads json_dumps self user_input
                enable_thinking w) as Hrun.
  simpl in Hrun. rewrite Hs in Hrun.
  set (req := request_of self user_input enable_thinking) in *.
  pose proof (process_stream_after_call self req s w) as Hind.
  rewrite Hres in Hind.
  destruct (process_stream_frame s (calling self w req)) as (Hlog & Hsent & _).
  destruct (process_stream s (calling self w req)) as [o w1].
  simpl in Hind, Hlog, Hsent. subst o. rewrite Hj in Hrun.
  eexists. split; [exact Hrun|]. simpl. rewrite Hsent, Hlog. simpl.
  split; [reflexivity|]. rewrite <- !app_assoc. reflexivity.
Qed.

Lemma parse_failure_returns_none_witness :
  let self :=
    serving sample_client (fragments [content_delta (dq "not json")]) in
  async_client self (request_of self (dq "hi") false)
  = Returned (fragments [content_delta (dq "not json")]) /\
  result_of (process_stream (fragments [content_delta (dq "not json")]))
    empty_world = Returned (no_thinking_found, dq "not json") /\
  Json.loads (dq "not json") = inl Json.Expecting_value /\
  exists w',
    run Json.loads Json.dumps self (dq "hi") false empty_world
    = (Returned None, w') /\
    sent w' = [request_of self (dq "hi") false].
Proof.
  intros self.
  split; [reflexivity|]. split; [reflexivity|]. split; [reflexivity|].
  destruct (parse_failure_returns_none Json.loads Json.dumps self (dq "hi")
              false (fragments [content_delta (dq "not json")]) empty_world
              no_thinking_found (dq "not json") Json.Expecting_value
              eq_refl eq_refl eq_refl) as (w' & Hrun & Hsent & _).
  exists w'. split; [exact Hrun | exact Hsent].
Defined.

(** C3 as stated fails: two answer texts that do not parse give the caller
    the same value, [None], so the value carries neither of them; and no
    log record holds the text. *)
Lemma parse_failure_loses_answer_text :
  let self1 :=
    serving sample_client (fragments [content_delta (dq "not json")]) in
  let self2 :=
    serving sample_client (fragments [content_delta (dq "{'x':")]) in
  result_of (process_stream (fragments [content_delta (dq "not json")]))
    empty_world = Returned (no_thinking_found, dq "not json") /\
  result_of (process_stream (fragments [content_delta (dq "{'x':")]))
    empty_world = Returned (no_thinking_found, dq "{'x':") /\
  result_of (run Json.loads Json.dumps self1 (dq "hi") true) empty_world
  = Returned None /\
  result_of (run Json.loads Json.dumps self2 (dq "hi") true) empty_world
  = Returned None /\
  log (snd (run Json.loads Json.dumps self1 (dq "hi") true empty_world)) =
  [ (DEBUG, Streaming_output);
    (INFO, Thinking_process no_thinking_found);
    (ERROR, Call_failed (Text_json_decode_error Json.Expecting_value));
    (ERROR, Please_check);
    (ERROR, Check_service_started);
    (ERROR, Check_base_url (base_url sample_client));
    (ERROR, Check_model_uid (model_uid sample_client)) ].
Proof. repeat split; reflexivity. Qed.

(** C9.  When the finalized answer text parses, [run] returns that very
    text: the value does not depend on the encoder, whose rendering only
    goes to the log, and decoding the returned text gives the decoded
    payload again. *)
Theorem run_returns_answer_text_unmodified
    (json_loads : str -> Json.decode_msg + Json.json)
    (json_dumps json_dumps' : Json.json -> str)
    (self : AsyncAnamnesisModelClient) (user_input : str)
    (enable_thinking : bool) (s : Stream) (w : World)
    (thinking answer : str) (v : Json.json) :
  async_client self (request_of self user_input enable_thinking)
  = Returned s ->
  result_of (process_stream s) w = Returned (thinking, answer) ->
  json_loads answer = inr v ->
  result_of (run json_loads json_dumps self user_input enable_thinking) w
  = Returned (Some answer) /\
  result_of (run json_loads json_dumps' self user_input enable_thinking) w
  = Returned (Some answer) /\
  (forall returned,
      result_of (run json_loads json_dumps self user_input enable_thinking) w
      = Returned (Some returned) ->
      returned = answer /\ json_loads returned = inr v) /\
  log (snd (run json_loads json_dumps self user_input enable_thinking w)) =
    log w ++ [(DEBUG, Streaming_output)] ++ thinking_log thinking ++
    [(INFO, Final_output (json_dumps v))].
Proof.
  intros Hs Hres Hj.
  assert (forall dumps,
             run json_loads dumps self user_input enable_thinking w =
             (Returned (Some answer),
              logging
                (logging
                   (snd (process_stream s
                           (calling self w
                              (request_of self user_input enable_thinking))))
                   (thinking_log thinking))
                [(INFO, Final_output (dumps v))])) as Hrun.
  { intros dumps.
    pose proof (run_unfold json_loads dumps self user_input
                  enable_thinking w) as Hrun.
    simpl in Hrun. rewrite Hs in Hrun.
    set (req := request_of self user_input enable_thinking) in *.
    pose proof (process_stream_after_call self req s w) as Hind.
    rewrite Hres in Hind.
    destruct (process_stream s (calling self w req)) as [o w1].
    simpl in Hind. subst o. rewrite Hj in Hrun. exact Hrun. }
  unfold result_of. rewrite !Hrun. simpl.
  split; [reflexivity|]. split; [reflexivity|]. split.
  - intros returned H. injection H as <-. split; [reflexivity | exact Hj].
  - destruct (process_stream_frame s
                (calling self w (request_of self user_input enable_thinking)))
      as [Hlog _].
    rewrite Hlog. simpl. rewrite <- !app_assoc. reflexivity.
Qed.

Lemma run_returns_answer_text_unmodified_witness :
  let self :=
    serving sample_client (fragments [content_delta (dq "{'x':1}")]) in
  async_client self (request_of self (dq "hi") false)
  = Returned (fragments [content_delta (dq "{'x':1}")]) /\
  result_of (process_stream (fragments [content_delta (dq "{'x':1}")]))
    empty_world = Returned (no_thinking_found, dq "{'x':1}") /\
  Json.loads (dq "{'x':1}") = inr (Json.JObj [(dq "x", Json.JInt 1)]) /\
  result_of (run Json.loads Json.dumps self (dq "hi") false) empty_world
  = Returned (Some (dq "{'x':1}")) /\
  Json.dumps (Json.JObj [(dq "x", Json.JInt 1)])
  = dq "{" ++ [10%N] ++ dq "  'x': 1" ++ [10%N] ++ dq "}".
Proof.
  intros self.
  split; [reflexivity|]. split; [reflexivity|]. split; [reflexivity|].
  destruct (run_returns_answer_text_unmodified Json.loads Json.dumps
              Json.dumps self (dq "hi") false
              (fragments [content_delta (dq "{'x':1}")]) empty_world
              no_thinking_found (dq "{'x':1}")
              (Json.JObj [(dq "x", Json.JInt 1)])
              eq_refl eq_refl eq_refl) as (Hrun & _).
  split; [exact Hrun | reflexivity].
Defined.

(* ================================================================== *)
(** ** Further properties of [run] *)
(* ================================================================== *)

(** X1.  The only exceptions [run] lets through are those that are not
    instances of [Exception] (a cancellation): and then it has written no
    error record, the log holds at most the debug record of the stream. *)
Theorem run_propagates_only_base_exceptions
    (json_loads : str -> Json.decode_msg + Json.json)
    (json_dumps : Json.json -> str)
    (self : AsyncAnamnesisModelClient) (user_input : str)
    (enable_thinking : bool) (w : World) (e : exn) :
  result_of (run json_loads json_dumps self user_input enable_thinking) w
  = Raised e ->
  is_Exception e = false /\
  (log (snd (run json_loads json_dumps self user_input enable_thinking w))
   = log w \/
   log (snd (run json_loads json_dumps self user_input enable_thinking w))
   = log w ++ [(DEBUG, Streaming_output)]).
Proof.
  unfold result_of.
  rewrite (run_unfold json_loads json_dumps self user_input enable_thinking w).
  simpl.
  set (req := request_of self user_input enable_thinking).
  destruct (async_client self req) as [s|e0].
  - destruct (process_stream_frame s (calling self w req)) as [Hlog _].
    destruct (process_stream s (calling self w req))
      as [[[thinking answer]|e0] w1].
    + destruct (json_loads answer); discriminate.
    + destruct (is_Exception e0) eqn:E; [discriminate|].
      simpl. intros H. injection H as <-.
      split; [exact E|]. right. exact Hlog.
  - destruct (is_Exception e0) eqn:E; [discriminate|].
    simpl. intros H. injection H as <-.
    split; [exact E|]. left. reflexivity.
Qed.

Lemma run_propagates_only_base_exceptions_witness :
  let self :=
    serving sample_client
      {| chunks := [chunk_of (content_delta (dq "{"))];
         ending := Some CancelledError |} in
  result_of (run Json.loads Json.dumps self (dq "hi") true) empty_world
  = Raised CancelledError /\
  is_Exception CancelledError = false /\
  log (snd (run Json.loads Json.dumps self (dq "hi") true empty_world))
  = [(DEBUG, Streaming_output)].
Proof.
  intros self. split; [reflexivity|].
  destruct (run_propagates_only_base_exceptions Json.loads Json.dumps self
              (dq "hi") true empty_world CancelledError eq_refl) as [He _].
  split; [exact He | reflexivity].
Defined.



(** X3.  A text that [run] returns is the finalized answer text of a stream
    that the service delivered to the end, and the decoder accepts it:
    [run] never returns text that does not parse. *)
Theorem run_returns_only_decodable_text
    (json_loads : str -> Json.decode_msg + Json.json)
    (json_dumps : Json.json -> str)
    (self : AsyncAnamnesisModelClient) (user_input : str)
    (enable_thinking : bool) (w : World) (returned : str) :
  result_of (run json_loads json_dumps self user_input enable_thinking) w
  = Returned (Some returned) ->
  exists s thinking v,
    async_client self (request_of self user_input enable_thinking)
    = Returned s /\
    ending s = None /\
    result_of (process_stream s) w = Returned (thinking, returned) /\
    json_loads returned = inr v.
Proof.
  unfold result_of at 1.
  rewrite (run_unfold json_loads json_dumps self user_input enable_thinking w).
  simpl.
  set (req := request_of self user_input enable_thinking).
  destruct (async_client self req) as [s|e0].
  - pose proof (process_stream_after_call self req s w) as Hind.
    pose proof (process_stream_unfold s (calling self w req)) as Hunf.
    destruct (process_stream s (calling self w req))
      as [[[thinking answer]|e0] w1].
    + destruct (json_loads answer) as [msg|v] eqn:Hj; [discriminate|].
      simpl. intros H. injection H as <-.
      exists s, thinking, v. split; [reflexivity|]. split.
      * destruct (consume initial (chunks s) _) as [[st|e1] w'];
          [|discriminate Hunf].
        destruct (ending s); [discriminate Hunf | reflexivity].
      * split; [symmetry; exact Hind | exact Hj].
    + destruct (is_Exception e0); discriminate.
  - destruct (is_Exception e0); discriminate.
Qed.

Lemma run_returns_only_decodable_text_witness :
  let self :=
    serving sample_client (fragments [content_delta (dq " [1, 2] ")]) in
  result_of (run Json.loads Json.dumps self (dq "hi") true) empty_world
  = Returned (Some (dq "[1, 2]")) /\
  exists v, Json.loads (dq "[1, 2]") = inr v.
Proof.
  intros self. split; [reflexivity|].
  destruct (run_returns_only_decodable_text Json.loads Json.dumps self
              (dq "hi") true empty_world (dq "[1, 2]") eq_refl)
    as (s & thinking & v & _ & _ & _ & Hv).
  exists v. exact Hv.
Defined.



(* ================================================================== *)
(** ** Further properties of the consumption loop *)
(* ================================================================== *)

Section LoopExtras.

Lemma consume_app (cs1 cs2 : list ChatCompletionChunk) (st : Locals)
    (w : World) :
  consume st (cs1 ++ cs2) w =
  match consume st cs1 w with
  | (Returned st1, w1) => consume st1 cs2 w1
  | (Raised e, w1) => (Raised e, w1)
  end.
Proof.
  revert st w. induction cs1 as [|c cs1 IH]; intros st w; simpl.
  - reflexivity.
  - unfold bind. destruct (loop_body st c w) as [[st1|e] w1].
    + apply IH.
    + reflexivity.
Qed.

Lemma process_stream_chunk_without_choices
    (pre : list ChoiceDelta) (rest : list ChatCompletionChunk)
    (e : option exn) (w : World) :
  encodable w (concat (map echo pre)) = true ->
  process_stream
    {| chunks := map chunk_of pre ++ {| choices := [] |} :: rest;
       ending := e |} w
  = (Raised IndexError,
     {| stdout := stdout w ++ concat (map echo pre);
        log := log w ++ [(DEBUG, Streaming_output)];
        sent := sent w;
        stdout_encodes := stdout_encodes w |}).
Proof.
  intros Henc. rewrite process_stream_unfold. simpl chunks.
  rewrite consume_app, consume_fragments; [reflexivity | exact Henc].
Qed.

Lemma process_stream_broken (ds : list ChoiceDelta) (e : exn) (w : World) :
  encodable w (concat (map echo ds)) = true ->
  process_stream {| chunks := map chunk_of ds; ending := Some e |} w
  = (Raised e,
     {| stdout := stdout w ++ concat (map echo ds);
        log := log w ++ [(DEBUG, Streaming_output)];
        sent := sent w;
        stdout_encodes := stdout_encodes w |}).
Proof.
  intros Henc. rewrite process_stream_unfold. simpl chunks.
  rewrite consume_fragments; [reflexivity | exact Henc].
Qed.

(** What one delta appends, and that it echoes as much. *)
Lemma step_appends (st : Locals) (d : ChoiceDelta) :
  exists a b c,
    full_response_content (step st d) = full_response_content st ++ a /\
    thinking_process (step st d) = thinking_process st ++ b /\
    final_answer (step st d) = final_answer st ++ c /\
    length (echo d) = (length a + length b + length c)%nat.
Proof.
  unfold step, echo. simpl.
  destruct (is_official_api st || has_reasoning d).
  - exists [], (reasoning_text d), (content_text d).
    rewrite app_nil_r, length_app. simpl. repeat split; reflexivity.
  - exists (content_text d), (reasoning_text d), [].
    rewrite app_nil_r, length_app. simpl. repeat split; lia.
Qed.

(** From a state whose [final_answer] is empty while unmarked, the two
    content buffers, one after the other, grow by the content deltas in
    arrival order. *)
Lemma fold_step_content (ds : list ChoiceDelta) (st : Locals) :
  (is_official_api st = false -> final_answer st = []) ->
  full_response_content (fold_left step ds st)
    ++ final_answer (fold_left step ds st)
  = (full_response_content st ++ final_answer st) ++ all_content ds.
Proof.
  revert st. induction ds as [|d ds IH]; intros st Hinv; simpl.
  - unfold all_content. simpl. rewrite app_nil_r. reflexivity.
  - rewrite IH.
    + unfold all_content. simpl.
      destruct (is_official_api st || has_reasoning d) eqn:E.
      * rewrite <- !app_assoc. reflexivity.
      * apply orb_false_iff in E. destruct E as [E _].
        rewrite (Hinv E), !app_nil_r, <- !app_assoc. reflexivity.
    + simpl. intros E. rewrite E.
      apply orb_false_iff in E. destruct E as [E _]. exact (Hinv E).
Qed.

Lemma all_reasoning_app (a b : list ChoiceDelta) :
  all_reasoning (a ++ b) = all_reasoning a ++ all_reasoning b.
Proof. unfold all_reasoning. rewrite map_app, concat_app. reflexivity. Qed.

Lemma no_reasoning_all_reasoning (ds : list ChoiceDelta) :
  no_reasoning ds = true -> all_reasoning ds = [].
Proof.
  induction ds as [|d ds IH]; simpl; [reflexivity|].
  intros H. apply andb_true_iff in H. destruct H as [Hd Hn].
  unfold all_reasoning in *. simpl. rewrite (IH Hn), app_nil_r.
  unfold has_reasoning in Hd. unfold reasoning_text.
  destruct (reasoning_content d) as [|[r|]]; try reflexivity. discriminate.
Qed.

Lemma sentinel_no_outer_space : no_outer_space no_thinking_found.
Proof.
  split; intros c r H.
  - injection H as <- _. reflexivity.
  - change no_thinking_found
      with ([26410; 25214; 21040; 24605; 32771; 36807; 31243]%N ++ [12290%N])
      in H.
    apply app_inj_tail in H. destruct H as [_ <-]. reflexivity.
Qed.

Lemma strip_no_outer_space (s : str) : no_outer_space (PyStr.strip s).
Proof.
  destruct (PyStrFacts.strip_trimmed s) as (l & r & _ & _ & _ & Hhd & Hlast).
  split; assumption.
Qed.

End LoopExtras.

(** X5.  A chunk whose list of choices is empty makes the loop raise
    [IndexError] at that chunk, when standard output could encode the deltas
    before it: these were echoed, the chunks after it are never read, and no
    result is produced.  In every case [run] answers [None]. *)
Theorem chunk_without_choices_aborts
    (json_loads : str -> Json.decode_msg + Json.json)
    (json_dumps : Json.json -> str)
    (self : AsyncAnamnesisModelClient) (user_input : str)
    (enable_thinking : bool)
    (pre : list ChoiceDelta) (rest : list ChatCompletionChunk)
    (e : option exn) (w : World) :
  let s := {| chunks := map chunk_of pre ++ {| choices := [] |} :: rest;
              ending := e |} in
  (encodable w (concat (map echo pre)) = true ->
   process_stream s w
   = (Raised IndexError,
      {| stdout := stdout w ++ concat (map echo pre);
         log := log w ++ [(DEBUG, Streaming_output)];
         sent := sent w;
         stdout_encodes := stdout_encodes w |})) /\
  result_of
    (run json_loads json_dumps (serving self s) user_input enable_thinking) w
  = Returned None.
Proof.
  intros s.
  split; [apply process_stream_chunk_without_choices|].
  unfold result_of.
  rewrite (run_unfold json_loads json_dumps (serving self s) user_input
             enable_thinking w).
  simpl async_client. cbv beta iota zeta.
  set (w0 := calling (serving self s) w
               (request_of (serving self s) user_input enable_thinking)).
  destruct (encodable w0 (concat (map echo pre))) eqn:Henc.
  - unfold s. rewrite (process_stream_chunk_without_choices _ _ _ _ Henc).
    reflexivity.
  - unfold s. rewrite process_stream_unfold. simpl chunks.
    rewrite consume_app.
    destruct (consume_fragments_raises pre initial
                (logging w0 [(DEBUG, Streaming_output)]) Henc)
      as (t & w' & Hr & _).
    rewrite Hr. reflexivity.
Qed.

Lemma chunk_without_choices_aborts_witness :
  let s := {| chunks := map chunk_of [content_delta (dq "{'x'")]
                        ++ {| choices := [] |}
                        :: [chunk_of (content_delta (dq ":1}"))];
              ending := None |} in
  encodable empty_world (concat (map echo [content_delta (dq "{'x'")])) = true /\
  process_stream s empty_world
  = (Raised IndexError,
     {| stdout := dq "{'x'";
        log := [(DEBUG, Streaming_output)];
        sent := [];
        stdout_encodes := utf_8 |}) /\
  result_of (run Json.loads Json.dumps (serving sample_client s) (dq "hi") true)
    empty_world
  = Returned None.
Proof.
  intros s. split; [reflexivity|].
  destruct (chunk_without_choices_aborts Json.loads Json.dumps sample_client
              (dq "hi") true [content_delta (dq "{'x'")]
              [chunk_of (content_delta (dq ":1}"))] None empty_world)
    as [Hstream Hrun].
  split; [exact (Hstream eq_refl) | exact Hrun].
Defined.

(** X6.  When the transport raises after the last chunk it delivered, the
    stream is not finalized: every delta received (texts that standard
    output can encode) was echoed, there is no partial result, and the
    exception goes to [run], which answers [None] for an [Exception] and
    lets anything else through. *)
Theorem broken_stream_gives_no_partial_result
    (json_loads : str -> Json.decode_msg + Json.json)
    (json_dumps : Json.json -> str)
    (self : AsyncAnamnesisModelClient) (user_input : str)
    (enable_thinking : bool)
    (ds : list ChoiceDelta) (e : exn) (w : World) :
  encodable w (concat (map echo ds)) = true ->
  let s := {| chunks := map chunk_of ds; ending := Some e |} in
  process_stream s w
  = (Raised e,
     {| stdout := stdout w ++ concat (map echo ds);
        log := log w ++ [(DEBUG, Streaming_output)];
        sent := sent w;
        stdout_encodes := stdout_encodes w |}) /\
  result_of
    (run json_loads json_dumps (serving self s) user_input enable_thinking) w
  = (if is_Exception e then Returned None else Raised e).
Proof.
  intros Henc s. split; [apply process_stream_broken; exact Henc|].
  unfold result_of.
  rewrite (run_unfold json_loads json_dumps (serving self s) user_input
             enable_thinking w).
  simpl async_client. cbv beta iota zeta.
  unfold s. rewrite process_stream_broken; [|exact Henc].
  destruct (is_Exception e); reflexivity.
Qed.

Lemma broken_stream_gives_no_partial_result_witness :
  let s := {| chunks := map chunk_of [content_delta (dq "{'x':1}")];
              ending := Some (APIError (dq "peer closed connection")) |} in
  encodable empty_world (concat (map echo [content_delta (dq "{'x':1}")]))
  = true /\
  result_of (process_stream s) empty_world
  = Raised (APIError (dq "peer closed connection")) /\
  result_of (run Json.loads Json.dumps (serving sample_client s) (dq "hi") true)
    empty_world
  = Returned None.
Proof.
  intros s. split; [reflexivity|].
  destruct (broken_stream_gives_no_partial_result Json.loads Json.dumps
              sample_client (dq "hi") true [content_delta (dq "{'x':1}")]
              (APIError (dq "peer closed connection")) empty_world eq_refl)
    as [Hstream Hrun].
  split; [unfold result_of, s; rewrite Hstream; reflexivity | exact Hrun].
Defined.

(** X7.  The loop only appends: after any list of chunks that does not
    raise, each of the three buffers is its former value followed by what
    was appended, standard output likewise, and exactly as many characters
    were echoed as were appended to the buffers. *)
Theorem buffers_are_append_only
    (cs : list ChatCompletionChunk) (st st' : Locals) (w w' : World) :
  consume st cs w = (Returned st', w') ->
  exists a b c o,
    full_response_content st' = full_response_content st ++ a /\
    thinking_process st' = thinking_process st ++ b /\
    final_answer st' = final_answer st ++ c /\
    stdout w' = stdout w ++ o /\
    length o = (length a + length b + length c)%nat.
Proof.
  revert st w. induction cs as [|ch cs IH]; intros st w H; simpl in H.
  - injection H as <- <-. exists [], [], [], [].
    rewrite !app_nil_r. repeat split; reflexivity.
  - unfold bind in H.
    destruct (loop_body st ch w) as [[st1|e] w1] eqn:E; [|discriminate H].
    destruct (loop_body_returned _ _ _ _ _ E)
      as (c0 & rest & _ & _ & -> & ->).
    destruct (step_appends st (delta c0)) as (a1 & b1 & c1 & Ha & Hb & Hc1 & Hn).
    destruct (IH _ _ H) as (a2 & b2 & c2 & o2 & Ha2 & Hb2 & Hc2 & Ho & Hlen).
    exists (a1 ++ a2), (b1 ++ b2), (c1 ++ c2), (echo (delta c0) ++ o2).
    rewrite Ha2, Hb2, Hc2, Ho, Ha, Hb, Hc1. simpl.
    rewrite !length_app, <- !app_assoc.
    repeat split; try reflexivity. lia.
Qed.

Lemma buffers_are_append_only_witness :
  exists st' w',
    consume
      {| full_response_content := dq "A"; thinking_process := dq "t";
         final_answer := []; is_official_api := false |}
      [chunk_of (content_delta (dq "B")); chunk_of (both_delta (dq "u") (dq "C"))]
      empty_world = (Returned st', w') /\
    exists a b c o,
      full_response_content st' = dq "A" ++ a /\
      thinking_process st' = dq "t" ++ b /\
      final_answer st' = [] ++ c /\
      stdout w' = [] ++ o /\
      length o = (length a + length b + length c)%nat.
Proof.
  eexists. eexists. split; [reflexivity|].
  exact (buffers_are_append_only
           [chunk_of (content_delta (dq "B"));
            chunk_of (both_delta (dq "u") (dq "C"))]
           {| full_response_content := dq "A"; thinking_process := dq "t";
              final_answer := []; is_official_api := false |}
           _ empty_world _ eq_refl).
Defined.

(** X8.  Until finalization nothing is lost and nothing is duplicated:
    after a fragment stream the reasoning buffer holds the reasoning deltas
    in arrival order, the two content buffers one after the other hold the
    content deltas in arrival order, and standard output received every
    delta.  This is the state whenever the loop returns; and it returns
    when standard output can encode the deltas. *)
Theorem accumulation_accounts_for_every_delta
    (ds : list ChoiceDelta) (w : World) :
  let accounted (st : Locals) (w' : World) :=
    thinking_process st = all_reasoning ds /\
    full_response_content st ++ final_answer st = all_content ds /\
    stdout w' = stdout w ++ concat (map echo ds) in
  (forall st w',
      consume initial (map chunk_of ds) w = (Returned st, w') ->
      accounted st w') /\
  (encodable w (concat (map echo ds)) = true ->
   exists st w',
     consume initial (map chunk_of ds) w = (Returned st, w') /\
     accounted st w').
Proof.
  intros accounted.
  assert (accounted (fold_left step ds initial)
            (writing w (concat (map echo ds)))) as Hacc.
  { unfold accounted. split; [apply fold_step_thinking|].
    split; [|reflexivity].
    rewrite fold_step_content; [reflexivity|]. intros _. reflexivity. }
  split.
  - intros st w' H.
    destruct (consume_fragments_returned _ _ _ _ _ H) as (_ & -> & ->).
    exact Hacc.
  - intros Henc. eexists. eexists.
    split; [apply consume_fragments; exact Henc | exact Hacc].
Qed.

Lemma accumulation_accounts_for_every_delta_witness :
  let ds := [content_delta (dq "A"); both_delta (dq "r") (dq "B");
             heartbeat; content_delta (dq "C")] in
  encodable empty_world (concat (map echo ds)) = true /\
  exists st w',
    consume initial (map chunk_of ds) empty_world = (Returned st, w') /\
    thinking_process st = dq "r" /\
    full_response_content st ++ final_answer st = dq "ABC" /\
    stdout w' = dq "ArBC".
Proof.
  intros ds. split; [reflexivity|].
  destruct (accumulation_accounts_for_every_delta ds empty_world)
    as [_ Hreturns].
  destruct (Hreturns eq_refl) as (st & w' & Hc & Ht & Hcontent & Hout).
  exists st, w'. split; [exact Hc|].
  split; [exact Ht|]. split; [exact Hcontent | exact Hout].
Defined.

(** X9.  As soon as one delta carries a reasoning text, the stream splits at
    the first such delta, and the returned reasoning text is the
    concatenation of all reasoning deltas, or the sentinel when that is
    empty: it is never the empty text.  The answer text is the concatenated
    content of that delta and the later ones: the content that arrived
    before the first reasoning delta is dropped. *)
Theorem dual_channel_reasoning_text (ds : list ChoiceDelta) (w : World) :
  no_reasoning ds = false ->
  encodable w (printed ds) = true ->
  exists pre d suf,
    ds = pre ++ d :: suf /\
    no_reasoning pre = true /\ has_reasoning d = true /\
    result_of (process_stream (fragments ds)) w
    = Returned (or_sentinel (all_reasoning ds), all_content (d :: suf)) /\
    or_sentinel (all_reasoning ds) <> [] /\
    all_content ds = all_content pre ++ all_content (d :: suf).
Proof.
  intros Hn Henc.
  destruct (first_reasoning_split ds Hn) as (pre & d & suf & -> & Hpre & Hd).
  exists pre, d, suf.
  split; [reflexivity|]. split; [exact Hpre|]. split; [exact Hd|].
  split; [|split].
  - rewrite (dual_channel_result pre suf d w Hpre Hd Henc).
    rewrite all_reasoning_app, (no_reasoning_all_reasoning pre Hpre).
    reflexivity.
  - unfold or_sentinel. destruct (all_reasoning _); discriminate.
  - apply all_content_app.
Qed.

Lemma dual_channel_reasoning_text_witness :
  let ds := [content_delta (dq "A"); reasoning_delta [];
             content_delta (dq " B ")] in
  no_reasoning ds = false /\
  encodable empty_world (printed ds) = true /\
  result_of (process_stream (fragments ds)) empty_world
  = Returned (no_thinking_found, dq " B ").
Proof.
  intros ds. split; [reflexivity|]. split; [reflexivity|].
  destruct (dual_channel_reasoning_text ds empty_world eq_refl eq_refl)
    as (pre & d & suf & Hds & Hpre & Hd & Hres & _ & _).
  rewrite Hres.
  destruct (first_reasoning_unique pre [content_delta (dq "A")] suf
              [content_delta (dq " B ")] d (reasoning_delta [])
              (eq_sym Hds) Hpre Hd eq_refl eq_refl) as (_ & -> & ->).
  reflexivity.
Defined.

(** X10.  Without a reasoning delta both returned texts are free of outer
    white space: neither the reasoning text nor the answer text starts or
    ends with a white-space character. *)
Theorem tagged_result_has_no_outer_space
    (ds : list ChoiceDelta) (w : World) (thinking answer : str) :
  no_reasoning ds = true ->
  result_of (process_stream (fragments ds)) w = Returned (thinking, answer) ->
  no_outer_space thinking /\ no_outer_space answer.
Proof.
  intros Hn Hres.
  destruct (process_stream_fragments_returned ds w _ Hres) as [Henc _].
  rewrite (tagged_result ds w Hn Henc) in Hres.
  set (st := {| full_response_content := all_content ds;
                thinking_process := [];
                final_answer := [];
                is_official_api := false |}) in Hres.
  destruct (tagged_cases (full_response_content st))
    as [(pre & mid & post & Hraw & Hs & He) | Hno].
  - rewrite (finalize_tagged_found st pre mid post eq_refl Hraw Hs He) in Hres.
    injection Hres as <- <-. split; apply strip_no_outer_space.
  - rewrite (finalize_tagged_fallback st eq_refl Hno) in Hres.
    injection Hres as <- <-.
    split; [apply sentinel_no_outer_space | apply strip_no_outer_space].
Qed.

Lemma tagged_result_has_no_outer_space_witness :
  no_reasoning [content_delta (dq " <think> a b </think>  c d  ")] = true /\
  result_of
    (process_stream
       (fragments [content_delta (dq " <think> a b </think>  c d  ")]))
    empty_world = Returned (dq "a b", dq "c d") /\
  no_outer_space (dq "a b") /\ no_outer_space (dq "c d").
Proof.
  split; [reflexivity|]. split; [reflexivity|].
  exact (tagged_result_has_no_outer_space
           [content_delta (dq " <think> a b </think>  c d  ")] empty_world
           (dq "a b") (dq "c d") eq_refl eq_refl).
Defined.

(* ================================================================== *)
(** ** Messages and the thinking record *)
(* ================================================================== *)

(** X11.  The marker is in band.  For a given setting of the switch the
    messages determine the user input; but the messages do not tell the
    switch: an input sent with thinking enabled gives the same messages as
    an input sent with thinking disabled exactly when it is the marker
    followed by that input. *)
Theorem no_think_marker_is_in_band (self : AsyncAnamnesisModelClient) :
  (forall (u1 u2 : str) (b : bool),
      _prepare_messages self u1 b = _prepare_messages self u2 b -> u1 = u2) /\
  (forall u1 u2 : str,
      _prepare_messages self u1 true = _prepare_messages self u2 false <->
      u1 = PyStr.lit "/no_think" ++ [10%N] ++ u2).
Proof.
  split.
  - intros u1 u2 b H. unfold _prepare_messages in H.
    injection H as H. destruct b; simpl in H.
    + exact H.
    + unfold no_think_marker in H. simpl in H. injection H as H. exact H.
  - intros u1 u2. unfold _prepare_messages. simpl. split.
    + intros H. injection H as H. exact H.
    + intros ->. reflexivity.
Qed.

Section ThinkingRecord.

Lemma thinking_log_spec (thinking : str) :
  In (INFO, Thinking_process thinking) (thinking_log thinking) <->
  thinking <> [] /\ thinking <> no_thinking_found_ascii_stop.
Proof.
  unfold thinking_log.
  destruct (PyStr.eqb thinking no_thinking_found_ascii_stop) eqn:E; simpl.
  - apply PyStrFacts.eqb_eq in E. split; [contradiction|].
    intros [_ H]. exact (H E).
  - assert (thinking <> no_thinking_found_ascii_stop) as Hne.
    { intros H. apply PyStrFacts.eqb_eq in H. congruence. }
    destruct thinking as [|c t]; simpl.
    + split; [contradiction | intros [H _]; exact (H eq_refl)].
    + unfold PyStr.len. simpl.
      destruct (Z.ltb_spec 0 (Z.pos (Pos.of_succ_nat (length t)))); [|lia].
      simpl. split.
      * intros _. split; [discriminate | exact Hne].
      * intros _. left. reflexivity.
Qed.

End ThinkingRecord.

(** X12.  When the stream is finalized, [run] writes the reasoning text to
    the log, as an info record, exactly when it is neither empty nor the
    literal of line 144.  That literal ends with an ASCII full stop and the
    sentinel does not, so the sentinel is logged as a thinking process. *)
Theorem thinking_is_logged_unless_empty
    (json_loads : str -> Json.decode_msg + Json.json)
    (json_dumps : Json.json -> str)
    (self : AsyncAnamnesisModelClient) (user_input : str)
    (enable_thinking : bool) (s : Stream) (w : World)
    (thinking answer : str) :
  async_client self (request_of self user_input enable_thinking)
  = Returned s ->
  result_of (process_stream s) w = Returned (thinking, answer) ->
  exists new,
    log (snd (run json_loads json_dumps self user_input enable_thinking w))
    = log w ++ new /\
    (In (INFO, Thinking_process thinking) new <->
     thinking <> [] /\ thinking <> no_thinking_found_ascii_stop) /\
    (thinking = no_thinking_found ->
     In (INFO, Thinking_process thinking) new).
Proof.
  intros Hs Hres.
  pose proof (run_unfold json_loads json_dumps self user_input
                enable_thinking w) as Hrun.
  simpl in Hrun. rewrite Hs in Hrun.
  set (req := request_of self user_input enable_thinking) in *.
  pose proof (process_stream_after_call self req s w) as Hind.
  rewrite Hres in Hind.
  destruct (process_stream_frame s (calling self w req)) as [Hlog _].
  destruct (process_stream s (calling self w req)) as [o w1].
  simpl in Hind, Hlog. subst o.
  assert (forall tail,
             ~ In (INFO, Thinking_process thinking) tail ->
             In (INFO, Thinking_process thinking)
               ([(DEBUG, Streaming_output)] ++ thinking_log thinking ++ tail)
             <-> thinking <> [] /\ thinking <> no_thinking_found_ascii_stop)
    as Hiff.
  { intros tail Htail. rewrite !in_app_iff, thinking_log_spec. simpl.
    split; [intros [[H|[]] | [H | H]] | intros H; right; left; exact H];
      try discriminate H; try exact H. contradiction. }
  assert (forall new,
             (In (INFO, Thinking_process thinking) new <->
              thinking <> [] /\ thinking <> no_thinking_found_ascii_stop) ->
             thinking = no_thinking_found ->
             In (INFO, Thinking_process thinking) new) as Hsent.
  { intros new H ->. apply H. split; discriminate. }
  destruct (json_loads answer) as [msg|v].
  - exists ([(DEBUG, Streaming_output)] ++ thinking_log thinking
            ++ error_log self (JSONDecodeError msg answer)).
    rewrite Hrun. simpl. rewrite Hlog. simpl.
    split; [rewrite <- !app_assoc; reflexivity|].
    assert (~ In (INFO, Thinking_process thinking)
              (error_log self (JSONDecodeError msg answer))) as Hno.
    { simpl. intros [H|[H|[H|[H|[H|[]]]]]]; discriminate H. }
    split; [exact (Hiff _ Hno) | exact (Hsent _ (Hiff _ Hno))].
  - exists ([(DEBUG, Streaming_output)] ++ thinking_log thinking
            ++ [(INFO, Final_output (json_dumps v))]).
    rewrite Hrun. simpl. rewrite Hlog. simpl.
    split; [rewrite <- !app_assoc; reflexivity|].
    assert (~ In (INFO, Thinking_process thinking)
              [(INFO, Final_output (json_dumps v))]) as Hno.
    { simpl. intros [H|[]]. discriminate H. }
    split; [exact (Hiff _ Hno) | exact (Hsent _ (Hiff _ Hno))].
Qed.

Lemma thinking_is_logged_unless_empty_witness :
  let self :=
    serving sample_client (fragments [content_delta (dq "{}")]) in
  async_client self (request_of self (dq "hi") true)
  = Returned (fragments [content_delta (dq "{}")]) /\
  result_of (process_stream (fragments [content_delta (dq "{}")]))
    empty_world = Returned (no_thinking_found, dq "{}") /\
  exists new,
    log (snd (run Json.loads Json.dumps self (dq "hi") true empty_world))
    = [] ++ new /\
    In (INFO, Thinking_process no_thinking_found) new.
Proof.
  intros self. split; [reflexivity|]. split; [reflexivity|].
  destruct (thinking_is_logged_unless_empty Json.loads Json.dumps self
              (dq "hi") true (fragments [content_delta (dq "{}")])
              empty_world no_thinking_found (dq "{}") eq_refl eq_refl)
    as (new & Hlog & _ & Hsentinel).
  exists new. split; [exact Hlog | exact (Hsentinel eq_refl)].
Defined.

(* ================================================================== *)
(** ** Construction of the client, and its caller *)
(* ================================================================== *)

Section CallerFacts.

Variable json_loads : str -> Json.decode_msg + Json.json.
Variable json_dumps : Json.json -> str.


End CallerFacts.

(** X13.  Without the prompt file there is no client and no request: the
    constructor logs that the file was not found and exits, and
    [run_xinference_test] ends with [SystemExit] without having printed,
    sent or logged anything through [run]. *)
Theorem missing_prompt_exits_before_any_request
    (read_text : str -> read_result)
    (openai_AsyncOpenAI : str -> str -> str + AsyncOpenAI)
    (json_loads : str -> Json.decode_msg + Json.json)
    (json_dumps : Json.json -> str) (MOCK_TEXT : str)
    (uid url key path : str)
    (lg : list (level * startup_text)) (w : World) :
  read_text path = Read_not_found ->
  __init__ read_text openai_AsyncOpenAI uid url key path lg
  = (Exits,
     lg ++ [(INFO, Loading_system_prompt path);
            (ERROR, System_prompt_not_found path)]) /\
  run_xinference_test read_text openai_AsyncOpenAI json_loads json_dumps
    MOCK_TEXT uid url key path lg w
  = (Exits,
     lg ++ [(INFO, Calling_xinference);
            (INFO, Loading_system_prompt path);
            (ERROR, System_prompt_not_found path)],
     w).
Proof.
  intros Hread.
  unfold run_xinference_test, __init__, _load_system_prompt.
  rewrite Hread. rewrite <- !app_assoc. simpl. split; reflexivity.
Qed.

Lemma missing_prompt_exits_before_any_request_witness :
  one_file (dq "assets/prompt.md") (dq "P") (dq "prompt.md") = Read_not_found /\
  run_xinference_test (one_file (dq "assets/prompt.md") (dq "P"))
    (needs_key (fragments [content_delta (dq "{}")]))
    Json.loads Json.dumps (dq "text")
    (dq "m") (dq "u") (dq "k") (dq "prompt.md") [] empty_world
  = (Exits,
     [(INFO, Calling_xinference);
      (INFO, Loading_system_prompt (dq "prompt.md"));
      (ERROR, System_prompt_not_found (dq "prompt.md"))],
     empty_world).
Proof.
  split; [reflexivity|].
  exact (proj2 (missing_prompt_exits_before_any_request
                  (one_file (dq "assets/prompt.md") (dq "P"))
                  (needs_key (fragments [content_delta (dq "{}")]))
                  Json.loads Json.dumps (dq "text")
                  (dq "m") (dq "u") (dq "k") (dq "prompt.md") []
                  empty_world eq_refl)).
Defined.



(* ================================================================== *)
(** ** The Playwright helper *)
(* ================================================================== *)

Module PlaywrightFacts.
Import PlaywrightHelper.

Section Pages.

Variable env : Env.

Lemma get_all_pages_spec (st : State) :
  get_all_pages env st = (inr (all_pages env st), st).
Proof.
  unfold get_all_pages, all_pages, try_except, bind, get, ask, ret.
  destruct (browser (self st)) as [b|]; [|reflexivity].
  destruct (browser_contexts env (trace st) b); reflexivity.
Qed.

Lemma py_index_in_range {A : Type} (l : list A) (i : Z) :
  (0 <= i < Z.of_nat (length l))%Z ->
  exists x, nth_error l (Z.to_nat i) = Some x /\ py_index l i = Some x.
Proof.
  intros Hi. unfold py_index.
  destruct (Z.leb_spec 0 i); [|lia].
  destruct (Z.ltb_spec i (Z.of_nat (length l))); [|lia]. simpl.
  destruct (nth_error l (Z.to_nat i)) as [x|] eqn:E.
  - exists x. split; reflexivity.
  - apply nth_error_None in E. lia.
Qed.

End Pages.

(** X15.  [switch_to_page] with an index from 0 to one less than the
    number of pages of all contexts returns the page at that index of the
    pages taken context by context, makes it the current page, logs the
    switch, and calls nothing in the library. *)
Theorem switch_to_page_in_range (env : Env) (st : State) (page_index : Z) :
  (0 <= page_index < Z.of_nat (length (all_pages env st)))%Z ->
  exists p,
    nth_error (all_pages env st) (Z.to_nat page_index) = Some p /\
    switch_to_page env page_index st
    = (inr p,
       {| self := set_page (Some p) (self st);
          trace := trace st;
          log := log st ++
                 [(INFO, Switched_to_page page_index
                           (page_url env (trace st) p))] |}).
Proof.
  intros Hi.
  destruct (py_index_in_range (all_pages env st) page_index Hi)
    as (p & Hnth & Hpy).
  exists p. split; [exact Hnth|].
  unfold switch_to_page, try_except, bind. rewrite get_all_pages_spec.
  destruct (Z.leb_spec 0 page_index); [|lia].
  destruct (Z.ltb_spec page_index (Z.of_nat (length (all_pages env st))));
    [|lia].
  simpl. rewrite Hpy. reflexivity.
Qed.

Lemma switch_to_page_in_range_witness :
  let st := {| self := set_browser (Some 5%nat) __init__;
               trace := []; log := [] |} in
  (0 <= 2 < Z.of_nat (length (all_pages sample_env st)))%Z /\
  exists p,
    nth_error (all_pages sample_env st) 2 = Some p /\
    fst (switch_to_page sample_env 2 st) = inr p /\
    p = 21%nat.
Proof.
  intros st.
  assert (0 <= 2 < Z.of_nat (length (all_pages sample_env st)))%Z as Hi
    by (vm_compute; split; [discriminate | reflexivity]).
  split; [exact Hi|].
  destruct (switch_to_page_in_range sample_env st 2 Hi) as (p & Hnth & Hsw).
  exists p. split; [exact Hnth|]. split; [rewrite Hsw; reflexivity|].
  injection Hnth as <-. reflexivity.
Defined.

(** X16.  With any other index, a negative one included, [switch_to_page]
    raises [IndexError]: the current page and every other attribute stay as
    they were, nothing is called in the library, and two error records are
    logged, the first with the index and the last valid index. *)
Theorem switch_to_page_out_of_range (env : Env) (st : State)
    (page_index : Z) :
  ~ (0 <= page_index < Z.of_nat (length (all_pages env st)))%Z ->
  switch_to_page env page_index st
  = (inl (Page_index_out_of_range page_index),
     {| self := self st;
        trace := trace st;
        log := log st ++
               [(ERROR, Index_out_of_range page_index
                          (Z.of_nat (length (all_pages env st)) - 1));
                (ERROR, Switch_failed
                          (Page_index_out_of_range page_index))] |}).
Proof.
  intros Hi.
  unfold switch_to_page, try_except, bind. rewrite get_all_pages_spec.
  destruct (Z.leb_spec 0 page_index);
    destruct (Z.ltb_spec page_index (Z.of_nat (length (all_pages env st))));
    try lia; simpl; unfold logger, raise; simpl;
    rewrite <- app_assoc; reflexivity.
Qed.

Lemma switch_to_page_out_of_range_witness :
  let st := {| self := set_browser (Some 5%nat) __init__;
               trace := []; log := [] |} in
  ~ (0 <= -1 < Z.of_nat (length (all_pages sample_env st)))%Z /\
  fst (switch_to_page sample_env (-1) st)
  = inl (Page_index_out_of_range (-1)) /\
  page (self (snd (switch_to_page sample_env (-1) st))) = None.
Proof.
  intros st.
  assert (~ (0 <= -1 < Z.of_nat (length (all_pages sample_env st)))%Z) as Hi.
  { intros [H _]. apply H. reflexivity. }
  split; [exact Hi|].
  rewrite (switch_to_page_out_of_range sample_env st (-1) Hi).
  split; reflexivity.
Defined.

Section Close.

Variable env : Env.

Lemma perform_all_spec (cs : list call) :
  forall st : State,
    perform_all env cs st =
    match first_failure env (trace st) cs with
    | None =>
        (inr tt, {| self := self st; trace := trace st ++ cs; log := log st |})
    | Some (k, detail) =>
        (inl (Library_error detail),
         {| self := self st; trace := trace st ++ firstn (S k) cs;
            log := log st |})
    end.
Proof.
  induction cs as [|c cs IH]; intros st; simpl.
  - unfold ret. rewrite app_nil_r. destruct st; reflexivity.
  - unfold bind, perform. destruct (fails env (trace st) c) as [d|].
    + reflexivity.
    + rewrite IH. simpl.
      destruct (first_failure env (trace st ++ [c]) cs) as [[k d]|];
        simpl; rewrite <- app_assoc; reflexivity.
Qed.

Lemma first_failure_app (h a b : list call) :
  first_failure env h (a ++ b) =
  match first_failure env h a with
  | Some r => Some r
  | None =>
      match first_failure env (h ++ a) b with
      | Some (k, detail) => Some ((length a + k)%nat, detail)
      | None => None
      end
  end.
Proof.
  revert h. induction a as [|c a IH]; intros h; simpl.
  - rewrite app_nil_r. destruct (first_failure env h b) as [[k d]|]; reflexivity.
  - destruct (fails env h c) as [d|]; [reflexivity|].
    rewrite IH. destruct (first_failure env (h ++ [c]) a) as [[k d]|];
      [reflexivity|].
    rewrite <- app_assoc. simpl.
    destruct (first_failure env (h ++ c :: a) b) as [[k d]|]; reflexivity.
Qed.

Lemma first_failure_bound (cs : list call) :
  forall (h : list call) (k : nat) (d : str),
    first_failure env h cs = Some (k, d) -> (k < length cs)%nat.
Proof.
  induction cs as [|c cs IH]; intros h k d H; simpl in H; [discriminate|].
  destruct (fails env h c); [injection H as <- _; simpl; lia|].
  destruct (first_failure env (h ++ [c]) cs) as [[k' d']|] eqn:E;
    [|discriminate].
  injection H as <- _. simpl. apply IH in E. lia.
Qed.

Lemma close_contexts_spec (cs : list (str * BrowserContext)) (st : State) :
  close_contexts env cs st =
  perform_all env (map (fun kc => Context_close (snd kc)) cs) st.
Proof.
  revert st. induction cs as [|[k c] cs IH]; intros st; simpl;
    [reflexivity|].
  unfold bind. destruct (perform env (Context_close c) st) as [[e|x] st'];
    [reflexivity | apply IH].
Qed.

Lemma bind_get {A B : Type} (f : Helper -> A) (k : A -> H B) (st : State) :
  bind (get f) k st = k (f (self st)) st.
Proof. reflexivity. Qed.
Lemma bind_modify {B : Type} (f : Helper -> Helper) (k : unit -> H B)
    (st : State) :
  bind (modify f) k st = k tt (assigned st f).
Proof. reflexivity. Qed.
Lemma bind_logger {B : Type} (l : level) (t : text) (k : unit -> H B)
    (st : State) :
  bind (logger l t) k st = k tt (logged st l t).
Proof. reflexivity. Qed.
Lemma bind_ask {A B : Type} (q : Env -> list call -> A) (k : A -> H B)
    (st : State) :
  bind (ask env q) k st = k (q env (trace st)) st.
Proof. reflexivity. Qed.
Lemma bind_optional_call {T B : Type} (o : option T) (mk : T -> call)
    (k : unit -> H B) (st : State) :
  bind (match o with
        | Some x => bind (perform env (mk x)) (fun _ => ret tt)
        | None => ret tt
        end) k st
  = match perform_all env (match o with Some x => [mk x] | None => [] end) st
    with
    | (inl e, st') => (inl e, st')
    | (inr u, st') => k u st'
    end.
Proof.
  destruct o as [x|]; simpl; [|reflexivity].
  unfold bind. destruct (perform env (mk x) st) as [[e|y] st']; reflexivity.
Qed.
Lemma optional_call {T : Type} (o : option T) (mk : T -> call)
    (st : State) :
  match o with
  | Some x => bind (perform env (mk x)) (fun _ => ret tt)
  | None => ret tt
  end st
  = perform_all env (match o with Some x => [mk x] | None => [] end) st.
Proof.
  destruct o as [x|]; simpl; [|reflexivity].
  unfold bind. destruct (perform env (mk x) st) as [[e|y] st']; reflexivity.
Qed.
Lemma perform_all_app (a b : list call) (st : State) :
  perform_all env (a ++ b) st =
  match perform_all env a st with
  | (inl e, st') => (inl e, st')
  | (inr _, st') => perform_all env b st'
  end.
Proof.
  revert st. induction a as [|c a IH]; intros st; simpl; [reflexivity|].
  unfold bind. destruct (perform env c st) as [[e|x] st']; [reflexivity|].
  apply IH.
Qed.
Lemma perform_all_self (cs : list call) (st : State) :
  self (snd (perform_all env cs st)) = self st /\
  log (snd (perform_all env cs st)) = log st.
Proof.
  rewrite perform_all_spec.
  destruct (first_failure env (trace st) cs) as [[k d]|]; split; reflexivity.
Qed.

Lemma close_normal (st : State) :
  is_takeover_mode (self st) = false ->
  close env st =
  match perform_all env (closing_before_clear (self st))
          (logged st INFO Cleaning_up) with
  | (inl e, st1) => (inr tt, logged st1 ERROR (Cleanup_failed e))
  | (inr _, st1) =>
      match perform_all env (closing_after_clear (self st))
              (assigned st1 (set_contexts [])) with
      | (inl e, st2) => (inr tt, logged st2 ERROR (Cleanup_failed e))
      | (inr _, st2) => (inr tt, st2)
      end
  end.
Proof.
  intros Hmode. unfold close.
  rewrite bind_logger. unfold try_except.
  rewrite bind_get. change (self (logged st INFO Cleaning_up)) with (self st).
  rewrite Hmode.
  rewrite bind_get. change (self (logged st INFO Cleaning_up)) with (self st).
  rewrite bind_optional_call. cbv beta.
  unfold closing_before_clear. rewrite perform_all_app.
  destruct (perform_all env
              match page (self st) with Some x => [Page_close x] | None => [] end
              (logged st INFO Cleaning_up)) as [[e|u] st1] eqn:E1;
    [reflexivity|].
  pose proof (perform_all_self
                match page (self st) with Some x => [Page_close x] | None => [] end
                (logged st INFO Cleaning_up)) as [Hs1 _].
  rewrite E1 in Hs1. simpl in Hs1.
  rewrite bind_get, Hs1.
  unfold bind at 1. rewrite close_contexts_spec.
  destruct (perform_all env (map _ (contexts (self st))) st1)
    as [[e|u2] st2] eqn:E2; [reflexivity|].
  pose proof (perform_all_self
                (map (fun kc => Context_close (snd kc)) (contexts (self st)))
                st1) as [Hs2 _].
  rewrite E2 in Hs2. simpl in Hs2.
  rewrite bind_modify, bind_get.
  change (self (assigned st2 (set_contexts [])))
    with (set_contexts [] (self st2)).
  rewrite Hs2, Hs1. simpl browser.
  rewrite bind_optional_call. cbv beta.
  unfold closing_after_clear. rewrite perform_all_app.
  destruct (perform_all env
              match browser (self st) with
              | Some x => [Browser_close x] | None => [] end
              (assigned st2 (set_contexts []))) as [[e|u3] st3] eqn:E3;
    [reflexivity|].
  pose proof (perform_all_self
                match browser (self st) with
                | Some x => [Browser_close x] | None => [] end
                (assigned st2 (set_contexts []))) as [Hs3 _].
  rewrite E3 in Hs3. simpl in Hs3.
  rewrite bind_get, Hs3, Hs2, Hs1. simpl playwright.
  rewrite optional_call. cbv beta.
  destruct (perform_all env _ st3) as [[e|u4] st4]; [reflexivity|].
  destruct u4. reflexivity.
Qed.
End Close.

(** X17.  In takeover mode [close] never raises and never closes the
    page, a context or the browser: it leaves every attribute as it was and
    its only call, if Playwright was started, is to stop Playwright. *)
Theorem close_in_takeover_mode_only_stops (env : Env) (st : State) :
  is_takeover_mode (self st) = true ->
  exists st',
    close env st = (inr tt, st') /\
    self st' = self st /\
    trace st' =
      trace st ++
      match playwright (self st) with
      | Some pw => [Playwright_stop pw]
      | None => []
      end.
Proof.
  intros Hmode. unfold close.
  rewrite bind_logger. unfold try_except.
  rewrite bind_get. change (self (logged st INFO Cleaning_up)) with (self st).
  rewrite Hmode. rewrite bind_logger, bind_get.
  change (self (logged (logged st INFO Cleaning_up) INFO Takeover_disconnect))
    with (self st).
  destruct (playwright (self st)) as [pw|].
  - unfold bind, perform, ret, logger. simpl.
    destruct (fails env (trace st) (Playwright_stop pw)); simpl;
      eexists; (split; [reflexivity|]); split; reflexivity.
  - unfold ret. simpl. eexists. split; [reflexivity|].
    split; [reflexivity|]. simpl. rewrite app_nil_r. reflexivity.
Qed.

Lemma close_in_takeover_mode_only_stops_witness :
  let st := snd (connect_to_browser sample_env (dq "http://localhost:9222") 0
                   fresh) in
  is_takeover_mode (self st) = true /\
  exists st',
    close sample_env st = (inr tt, st') /\
    self st' = self st /\
    trace st' = trace st ++ [Playwright_stop 100%nat].
Proof.
  intros st. split; [reflexivity|].
  exact (close_in_takeover_mode_only_stops sample_env st eq_refl).
Defined.

(** X18.  Outside takeover mode [close] never raises.  It makes its calls
    in a fixed order (the page, every context of [self.contexts] in
    insertion order, the browser, Playwright) and stops at the first call
    that fails: the calls after it are never made, which is logged as one
    error record.  [self.contexts] is emptied exactly when the page and all
    contexts were closed without failure. *)
Theorem close_stops_at_first_failure (env : Env) (st : State) :
  is_takeover_mode (self st) = false ->
  close env st =
  (inr tt,
   match first_failure env (trace st) (planned_close_calls (self st)) with
   | None =>
       {| self := set_contexts [] (self st);
          trace := trace st ++ planned_close_calls (self st);
          log := log st ++ [(INFO, Cleaning_up)] |}
   | Some (k, detail) =>
       {| self :=
            if (k <? length (closing_before_clear (self st)))%nat
            then self st
            else set_contexts [] (self st);
          trace := trace st ++ firstn (S k) (planned_close_calls (self st));
          log := log st ++
                 [(INFO, Cleaning_up);
                  (ERROR, Cleanup_failed (Library_error detail))] |}
   end).
Proof.
  intros Hmode. rewrite (close_normal env st Hmode).
  unfold planned_close_calls. rewrite first_failure_app.
  rewrite (perform_all_spec env (closing_before_clear (self st))
             (logged st INFO Cleaning_up)).
  change (trace (logged st INFO Cleaning_up)) with (trace st).
  destruct (first_failure env (trace st) (closing_before_clear (self st)))
    as [[k d]|] eqn:E1.
  - pose proof (first_failure_bound env _ _ _ _ E1) as Hk.
    destruct (Nat.ltb_spec k (length (closing_before_clear (self st))));
      [|lia].
    rewrite firstn_app.
    replace (S k - length (closing_before_clear (self st)))%nat with 0%nat
      by lia.
    simpl firstn at 2. rewrite app_nil_r.
    unfold logged. simpl. rewrite <- app_assoc. reflexivity.
  - rewrite (perform_all_spec env (closing_after_clear (self st))).
    unfold assigned, logged. cbn [trace self log].
    destruct (first_failure env
                (trace st ++ closing_before_clear (self st))
                (closing_after_clear (self st))) as [[k d]|] eqn:E2.
    + destruct (Nat.ltb_spec
                  (length (closing_before_clear (self st)) + k)
                  (length (closing_before_clear (self st)))); [lia|].
      replace (S (length (closing_before_clear (self st)) + k))
        with (length (closing_before_clear (self st)) + S k)%nat by lia.
      rewrite firstn_app_2. cbn [trace self log].
      rewrite <- !app_assoc. reflexivity.
    + cbn [trace self log]. rewrite <- !app_assoc. reflexivity.
Qed.

Lemma close_stops_at_first_failure_witness :
  let env :=
    failing_env
      (fun c => match c with Page_close _ => true | _ => false end) in
  let st := snd (start sample_env false (PyStr.lit "default") true None fresh) in
  is_takeover_mode (self st) = false /\
  fst (close env st) = inr tt /\
  trace (snd (close env st)) = trace st ++ [Page_close 104%nat] /\
  contexts (self (snd (close env st))) = [(PyStr.lit "default", 102%nat)].
Proof.
  intros env st. split; [reflexivity|].
  rewrite (close_stops_at_first_failure env st eq_refl).
  split; [reflexivity|]. split; reflexivity.
Defined.


Section Connect.

Variable env : Env.

Lemma close_takeover (st : State) :
  is_takeover_mode (self st) = true ->
  close env st =
  (inr tt,
   match playwright (self st) with
   | Some pw =>
       match fails env (trace st) (Playwright_stop pw) with
       | None =>
           {| self := self st; trace := trace st ++ [Playwright_stop pw];
              log := log st ++ [(INFO, Cleaning_up);
                                (INFO, Takeover_disconnect)] |}
       | Some d =>
           {| self := self st; trace := trace st ++ [Playwright_stop pw];
              log := log st ++ [(INFO, Cleaning_up);
                                (INFO, Takeover_disconnect);
                                (ERROR, Cleanup_failed (Library_error d))] |}
       end
   | None =>
       {| self := self st; trace := trace st;
          log := log st ++ [(INFO, Cleaning_up);
                            (INFO, Takeover_disconnect)] |}
   end).
Proof.
  intros Hmode. unfold close.
  rewrite bind_logger. unfold try_except.
  rewrite bind_get. change (self (logged st INFO Cleaning_up)) with (self st).
  rewrite Hmode. rewrite bind_logger, bind_get.
  change (self (logged (logged st INFO Cleaning_up) INFO Takeover_disconnect))
    with (self st).
  destruct (playwright (self st)) as [pw|].
  - unfold bind, perform, ret, logger. simpl.
    destruct (fails env (trace st) (Playwright_stop pw)); simpl;
      rewrite <- !app_assoc; reflexivity.
  - unfold ret, logged. simpl. rewrite <- !app_assoc. reflexivity.
Qed.

Lemma connect_prefix_self (cdp_url : str) (st st1 : State) (b : Browser) :
  connect_prefix env cdp_url st = (inr b, st1) ->
  exists pw,
    playwright (self st1) = Some pw /\
    browser (self st1) = Some b /\
    is_takeover_mode (self st1) = true /\
    page (self st1) = page (self st) /\
    contexts (self st1) = contexts (self st).
Proof.
  unfold connect_prefix. rewrite bind_logger.
  unfold bind at 1. unfold ensure_playwright at 1. rewrite bind_get.
  change (self (logged st INFO (Connecting cdp_url))) with (self st).
  destruct (playwright (self st)) as [pw|] eqn:Epw.
  - unfold ret at 1. unfold bind at 1.
    unfold perform at 1.
    destruct (fails env _ _); [discriminate|].
    rewrite !bind_modify. unfold ret. intros H. injection H as <- <-.
    exists pw. simpl. rewrite Epw. repeat split; reflexivity.
  - unfold bind at 1. unfold perform at 1.
    destruct (fails env _ _); [discriminate|].
    rewrite bind_modify. unfold ret at 1.
    unfold bind at 1. unfold perform at 1.
    destruct (fails env _ _); [discriminate|].
    rewrite !bind_modify. unfold ret. intros H. injection H as <- <-.
    eexists. simpl. repeat split; reflexivity.
Qed.

Lemma py_index_cases {A : Type} (l : list A) (i : Z) :
  let n := Z.of_nat (length l) in
  ((- n <= i < n)%Z ->
   exists x,
     nth_error l (Z.to_nat (if (0 <=? i)%Z then i else i + n)) = Some x /\
     py_index l i = Some x) /\
  ((i < - n)%Z -> py_index l i = None).
Proof.
  intros n. unfold py_index. fold n. split.
  - intros Hi. destruct (Z.leb_spec 0 i).
    + destruct (Z.ltb_spec i n); [|lia]. simpl.
      destruct (nth_error l (Z.to_nat i)) as [x|] eqn:E.
      * exists x. split; reflexivity.
      * apply nth_error_None in E. lia.
    + simpl. destruct (Z.ltb_spec i 0); [|lia].
      destruct (Z.leb_spec (- n) i); [|lia]. simpl.
      destruct (nth_error l (Z.to_nat (i + n))) as [x|] eqn:E.
      * exists x. split; reflexivity.
      * apply nth_error_None in E. lia.
  - intros Hi. destruct (Z.leb_spec 0 i); [lia|]. simpl.
    destruct (Z.ltb_spec i 0); [|lia].
    destruct (Z.leb_spec (- n) i); [lia|]. reflexivity.
Qed.

Ltac after_connect_prefix H :=
  unfold connect_to_browser, try_except;
  unfold connect_prefix in H;
  rewrite bind_logger in H; rewrite bind_logger;
  unfold bind at 1 in H; unfold bind at 1;
  match goal with
  | |- context [ensure_playwright ?e ?s] =>
      destruct (ensure_playwright e s) as [[?|?pw] ?st0]; [discriminate H|]
  end;
  unfold bind at 1 in H; unfold bind at 1;
  match goal with
  | |- context [perform ?e ?c ?s] =>
      destruct (perform e c s) as [[?|?b'] ?st0']; [discriminate H|]
  end;
  rewrite !bind_modify in H; rewrite !bind_modify;
  unfold ret in H; injection H as -> <-;
  rewrite bind_ask; cbv beta.

(** X19.  Once connected to a browser whose first context has pages,
    [connect_to_browser] takes over one of them without any further call:
    the first page, with a warning, when the index is not below the number
    of pages; the page at the index when it is from 0 up; and, for a
    negative index down to minus the number of pages, the page counted from
    the end (the test of the index has no lower bound). *)
Theorem connect_to_browser_selects_page
    (cdp_url : str) (page_index : Z) (st st1 : State) (b : Browser)
    (c0 : BrowserContext) (others : list BrowserContext)
    (first : Page) (more : list Page) :
  connect_prefix env cdp_url st = (inr b, st1) ->
  browser_contexts env (trace st1) b = c0 :: others ->
  context_pages env (trace st1) c0 = first :: more ->
  (- Z.of_nat (length (first :: more)) <= page_index)%Z ->
  exists p,
    nth_error (first :: more)
      (Z.to_nat
         (if (Z.of_nat (length (first :: more)) <=? page_index)%Z then 0
          else if (0 <=? page_index)%Z then page_index
               else page_index + Z.of_nat (length (first :: more))))
    = Some p /\
    connect_to_browser env cdp_url page_index st
    = (inr p,
       {| self := set_page (Some p) (set_context (Some c0) (self st1));
          trace := trace st1;
          log := log st1
                 ++ (if (Z.of_nat (length (first :: more)) <=? page_index)%Z
                     then [(WARNING, Index_out_of_range_using_first page_index)]
                     else [])
                 ++ [(INFO, Took_over_page (page_url env (trace st1) p))] |}).
Proof.
  intros H Hc Hp Hi.
  after_connect_prefix H.
  cbn [trace assigned] in Hc, Hp |- *.
  rewrite Hc. rewrite bind_modify, bind_ask. cbv beta.
  cbn [trace assigned]. rewrite Hp.
  destruct (Z.leb_spec (Z.of_nat (length (first :: more))) page_index)
    as [Hge | Hlt].
  - destruct (Z.ltb_spec page_index (Z.of_nat (length (first :: more))));
      [lia|].
    exists first. split; [reflexivity|].
    rewrite bind_logger, bind_modify, bind_ask. cbv beta. rewrite bind_logger.
    unfold ret, logged, assigned. simpl. rewrite <- !app_assoc. reflexivity.
  - destruct (Z.ltb_spec page_index (Z.of_nat (length (first :: more))));
      [|lia].
    destruct (py_index_cases (first :: more) page_index) as [Hin _].
    destruct Hin as (p & Hnth & Hpy); [lia|].
    exists p. split; [exact Hnth|].
    rewrite Hpy. rewrite bind_modify, bind_ask. cbv beta. rewrite bind_logger.
    unfold ret, logged, assigned. simpl. reflexivity.
Qed.

Lemma connect_below_range_eq
    (cdp_url : str) (page_index : Z) (st st1 : State) (b : Browser)
    (c0 : BrowserContext) (others : list BrowserContext)
    (first : Page) (more : list Page) :
  connect_prefix env cdp_url st = (inr b, st1) ->
  browser_contexts env (trace st1) b = c0 :: others ->
  context_pages env (trace st1) c0 = first :: more ->
  (page_index < - Z.of_nat (length (first :: more)))%Z ->
  connect_to_browser env cdp_url page_index st
  = (inl List_index_out_of_range,
     snd (close env
            (logged
               (logged
                  (logged (assigned st1 (set_context (Some c0)))
                     ERROR (Connect_failed List_index_out_of_range))
                  ERROR (Error_type List_index_out_of_range))
               ERROR (Error_details List_index_out_of_range)))).
Proof.
  intros H Hc Hp Hi.
  destruct (connect_prefix_self cdp_url st st1 b H)
    as (pw & Hpw & _ & Hmode & _ & _).
  after_connect_prefix H.
  cbn [trace assigned] in Hc, Hp |- *.
  rewrite Hc. rewrite bind_modify, bind_ask. cbv beta.
  cbn [trace assigned]. rewrite Hp.
  destruct (Z.ltb_spec page_index (Z.of_nat (length (first :: more))));
    [|lia].
  destruct (py_index_cases (first :: more) page_index) as [_ Hout].
  rewrite (Hout Hi).
  unfold raise at 1. rewrite !bind_logger.
  unfold bind at 1.
  rewrite close_takeover by exact Hmode.
  reflexivity.
Qed.

(** X20.  With an index below minus the number of pages,
    [connect_to_browser] raises [IndexError] from the list access.  It is
    then in takeover mode: [close] stops Playwright and closes nothing, the
    current page is not assigned, and the connected browser stays in
    [self.browser]. *)
Theorem connect_to_browser_index_below_range
    (cdp_url : str) (page_index : Z) (st st1 : State) (b : Browser)
    (c0 : BrowserContext) (others : list BrowserContext)
    (first : Page) (more : list Page) :
  connect_prefix env cdp_url st = (inr b, st1) ->
  browser_contexts env (trace st1) b = c0 :: others ->
  context_pages env (trace st1) c0 = first :: more ->
  (page_index < - Z.of_nat (length (first :: more)))%Z ->
  exists pw,
    playwright (self st1) = Some pw /\
    fst (connect_to_browser env cdp_url page_index st)
    = inl List_index_out_of_range /\
    trace (snd (connect_to_browser env cdp_url page_index st))
    = trace st1 ++ [Playwright_stop pw] /\
    self (snd (connect_to_browser env cdp_url page_index st))
    = set_context (Some c0) (self st1).
Proof.
  intros H Hc Hp Hi.
  destruct (connect_prefix_self cdp_url st st1 b H)
    as (pw & Hpw & _ & Hmode & _ & _).
  exists pw. split; [exact Hpw|].
  rewrite (connect_below_range_eq cdp_url page_index st st1 b c0 others
             first more H Hc Hp Hi).
  rewrite close_takeover by exact Hmode.
  cbn [self logged assigned playwright set_context fst snd trace].
  rewrite Hpw.
  destruct (fails env (trace st1) (Playwright_stop pw));
    repeat split; reflexivity.
Qed.
End Connect.

Lemma connect_to_browser_selects_page_witness :
  let url := PyStr.lit "http://localhost:9222" in
  let st1 := snd (connect_prefix sample_env url fresh) in
  connect_prefix sample_env url fresh = (inr 101%nat, st1) /\
  (- Z.of_nat (length [11; 12]%nat) <= -1)%Z /\
  exists p,
    nth_error [11; 12]%nat 1 = Some p /\
    fst (connect_to_browser sample_env url (-1) fresh) = inr p.
Proof.
  intros url st1. split; [reflexivity|].
  assert (- Z.of_nat (length [11; 12]%nat) <= -1)%Z as Hi
    by (vm_compute; discriminate).
  split; [exact Hi|].
  destruct (connect_to_browser_selects_page sample_env url (-1) fresh st1
              101%nat 1%nat [2%nat] 11%nat [12%nat]
              eq_refl eq_refl eq_refl Hi) as (p & Hnth & Hc).
  exists p. split; [exact Hnth | rewrite Hc; reflexivity].
Defined.

Lemma connect_to_browser_index_below_range_witness :
  let url := PyStr.lit "http://localhost:9222" in
  let st1 := snd (connect_prefix sample_env url fresh) in
  connect_prefix sample_env url fresh = (inr 101%nat, st1) /\
  (-3 < - Z.of_nat (length [11; 12]%nat))%Z /\
  fst (connect_to_browser sample_env url (-3) fresh)
  = inl List_index_out_of_range /\
  page (self (snd (connect_to_browser sample_env url (-3) fresh))) = None.
Proof.
  intros url st1. split; [reflexivity|].
  assert (-3 < - Z.of_nat (length [11; 12]%nat))%Z as Hi by reflexivity.
  split; [exact Hi|].
  destruct (connect_to_browser_index_below_range sample_env url (-3) fresh
              st1 101%nat 1%nat [2%nat] 11%nat [12%nat]
              eq_refl eq_refl eq_refl Hi) as (pw & _ & Hfst & _ & Hself).
  split; [exact Hfst | rewrite Hself; reflexivity].
Defined.

Section StartAndServer.

Local Open Scope pw_scope.

Variable env : Env.

Lemma close_returns (st : State) : fst (close env st) = inr tt.
Proof.
  destruct (is_takeover_mode (self st)) eqn:Hmode.
  - rewrite (close_takeover env st Hmode). reflexivity.
  - rewrite (close_normal env st Hmode).
    destruct (perform_all env _ _) as [[e|u] st1]; [reflexivity|].
    destruct (perform_all env _ _) as [[e|u'] st2]; reflexivity.
Qed.

Lemma close_then (st : State) : close env st = (inr tt, snd (close env st)).
Proof.
  pose proof (close_returns st) as H.
  destruct (close env st) as [r st']. simpl in *. subst r. reflexivity.
Qed.

(** The [except] block of [start]. *)
Lemma start_handler {A : Type} (e : exn) (st : State) :
  (logger ERROR (Start_failed e) ;;
   logger ERROR (Error_type e) ;;
   logger ERROR (Error_details e) ;;
   close env ;;
   @raise A e) st
  = (inl e,
     snd (close env
            (logged (logged (logged st ERROR (Start_failed e))
                       ERROR (Error_type e))
               ERROR (Error_details e)))).
Proof.
  rewrite !bind_logger. unfold bind. rewrite close_then. reflexivity.
Qed.

Lemma start_cases (headless : bool) (context_name : str)
    (use_local_browser : bool) (debug_port : option Z) (st : State) :
  (exists p st1,
      start env headless context_name use_local_browser debug_port st
      = (inr p, st1)) \/
  (exists e st0,
      start env headless context_name use_local_browser debug_port st
      = (inl e,
         snd (close env
                (logged (logged (logged st0 ERROR (Start_failed e))
                           ERROR (Error_type e))
                   ERROR (Error_details e))))).
Proof.
  unfold start, try_except.
  match goal with
  | |- context [let (s, st') := ?body st in _] =>
      destruct (body st) as [[e|p] st']
  end.
  - right. exists e, st'. apply start_handler.
  - left. exists p, st'. reflexivity.
Qed.
Lemma server_run_unfold (st : State) :
  server_run env st =
  match start env false (PyStr.lit "default") true None (server_started st)
  with
  | (inl e, st1) => close env (logged st1 ERROR (Server_problem e))
  | (inr p, st1) =>
      match (perform env (Goto p (PyStr.lit "https://www.baidu.com")) ;;
             type_numbers env p range_1_100 ;;
             perform env (Pause p) ;;
             ret tt) st1 with
      | (inl e, st2) => close env (logged st2 ERROR (Server_problem e))
      | (inr _, st2) => close env st2
      end
  end.
Proof.
  unfold server_run. unfold bind at 1. unfold try_except at 1.
  rewrite bind_logger, bind_modify. fold (server_started st).
  unfold bind at 1.
  destruct (start env false (PyStr.lit "default") true None
              (server_started st)) as [[e|p] st1].
  - reflexivity.
  - destruct ((perform env (Goto p (PyStr.lit "https://www.baidu.com")) ;;
               type_numbers env p range_1_100 ;;
               perform env (Pause p) ;;
               ret tt) st1) as [[e|u] st2]; reflexivity.
Qed.

(** X23.  [PlaywrightServer.run] never raises, and the last thing it does,
    whatever happened before, is to close its helper. *)
Theorem server_run_always_closes (st : State) :
  exists st', server_run env st = (inr tt, snd (close env st')).
Proof.
  rewrite server_run_unfold.
  destruct (start env false (PyStr.lit "default") true None
              (server_started st)) as [[e|p] st1].
  - eexists. apply close_then.
  - destruct ((perform env (Goto p (PyStr.lit "https://www.baidu.com")) ;;
               type_numbers env p range_1_100 ;;
               perform env (Pause p) ;;
               ret tt) st1) as [[e|u] st2]; eexists; apply close_then.
Qed.

(** X24.  When [start] fails inside [PlaywrightServer.run], the helper is
    closed twice: once by the [except] block of [start], and once more, on
    the state that first [close] left, by the [finally] block of [run]. *)
Theorem server_run_closes_twice_when_start_fails
    (st st1 : State) (e : exn) :
  start env false (PyStr.lit "default") true None (server_started st)
  = (inl e, st1) ->
  (exists st0, st1 = snd (close env st0)) /\
  server_run env st
  = (inr tt, snd (close env (logged st1 ERROR (Server_problem e)))).
Proof.
  intros H. split.
  - destruct (start_cases false (PyStr.lit "default") true None
                (server_started st))
      as [(p & st' & Hs) | (e' & st0 & Hs)]; rewrite Hs in H.
    + discriminate H.
    + injection H as _ <-. eexists. reflexivity.
  - rewrite server_run_unfold, H. apply close_then.
Qed.
Lemma bind_ret {A B : Type} (a : A) (k : A -> H B) (st : State) :
  bind (ret a) k st = k a st.
Proof. reflexivity. Qed.

Lemma bind_bind {A B C : Type} (m : H A) (f : A -> H B) (k : B -> H C)
    (st : State) :
  bind (bind m f) k st = bind m (fun x => bind (f x) k) st.
Proof. unfold bind. destruct (m st) as [[e|a] st']; reflexivity. Qed.

Lemma bind_perform_inr {B : Type} (c : call) (k : nat -> H B) (st st1 : State)
    (r : B) :
  bind (perform env c) k st = (inr r, st1) ->
  fails env (trace st) c = None /\
  k (gives env (trace st) c) (called st c) = (inr r, st1).
Proof.
  unfold bind, perform, called.
  destruct (fails env (trace st) c); [discriminate|].
  intros H. split; [reflexivity | exact H].
Qed.

Lemma dict_lookup_app_new (k : str) (c : BrowserContext)
    (d : list (str * BrowserContext)) :
  dict_lookup k d = None -> dict_lookup k (d ++ [(k, c)]) = Some c.
Proof.
  induction d as [|[k' v] d IH]; simpl.
  - intros _. assert (PyStr.eqb k k = true) as -> by (apply PyStrFacts.eqb_eq; reflexivity).
    reflexivity.
  - destruct (PyStr.eqb k' k); [discriminate | exact IH].
Qed.

Lemma ensure_playwright_inr {B : Type} (k : Playwright -> H B)
    (st st1 : State) (r : B) :
  bind (ensure_playwright env) k st = (inr r, st1) ->
  exists pw s,
    playwright (self s) = Some pw /\
    browser (self s) = browser (self st) /\
    contexts (self s) = contexts (self st) /\
    k pw s = (inr r, st1).
Proof.
  unfold ensure_playwright. rewrite bind_bind, bind_get.
  destruct (playwright (self st)) as [pw|] eqn:Epw.
  - rewrite bind_ret. intros H. exists pw, st. repeat split; assumption.
  - rewrite bind_bind. intros H. apply bind_perform_inr in H.
    destruct H as [_ H]. rewrite bind_bind, bind_modify, bind_ret in H.
    eexists. eexists. split; [|split; [|split; [|exact H]]]; reflexivity.
Qed.

Lemma ensure_browser_inr {B : Type} (launch : str -> call)
    (k : Browser -> H B) (st st1 : State) (r : B) :
  bind (match browser (self st) with
        | Some b => ret b
        | None =>
            path <- get edge_path ;;
            b <- perform env (launch path) ;;
            modify (set_browser (Some b)) ;;
            ret b
        end) k st = (inr r, st1) ->
  exists b s,
    browser (self s) = Some b /\
    playwright (self s) = playwright (self st) /\
    contexts (self s) = contexts (self st) /\
    k b s = (inr r, st1).
Proof.
  destruct (browser (self st)) as [b|] eqn:Eb.
  - rewrite bind_ret. intros H. exists b, st. repeat split; assumption.
  - rewrite bind_bind, bind_get, bind_bind. intros H.
    apply bind_perform_inr in H. destruct H as [_ H].
    rewrite bind_bind, bind_modify, bind_ret in H.
    eexists. eexists. split; [|split; [|split; [|exact H]]]; reflexivity.
Qed.

Lemma ensure_context_inr {B : Type} (context_name : str) (b : Browser)
    (k : BrowserContext -> H B) (st st1 : State) (r : B) :
  bind (match dict_lookup context_name (contexts (self st)) with
        | Some c => ret c
        | None =>
            c <- perform env (New_context b true user_agent) ;;
            modify (set_contexts (contexts (self st) ++ [(context_name, c)])) ;;
            perform env (Grant_permissions c [PyStr.lit "notifications"]) ;;
            ret c
        end) k st = (inr r, st1) ->
  exists c s,
    dict_lookup context_name (contexts (self s)) = Some c /\
    playwright (self s) = playwright (self st) /\
    browser (self s) = browser (self st) /\
    k c s = (inr r, st1).
Proof.
  destruct (dict_lookup context_name (contexts (self st))) as [c|] eqn:Ec.
  - rewrite bind_ret. intros H. exists c, st. repeat split; assumption.
  - rewrite bind_bind. intros H.
    apply bind_perform_inr in H. destruct H as [_ H].
    rewrite bind_bind, bind_modify, bind_bind in H.
    apply bind_perform_inr in H. destruct H as [_ H].
    rewrite bind_ret in H.
    eexists. eexists. split; [|split; [|split; [|exact H]]];
      try reflexivity.
    cbn [self called assigned contexts set_contexts].
    apply dict_lookup_app_new. exact Ec.
Qed.

Lemma start_success (headless : bool) (context_name : str)
    (use_local_browser : bool) (debug_port : option Z)
    (st st1 : State) (p : Page) :
  start env headless context_name use_local_browser debug_port st
  = (inr p, st1) ->
  exists pw b c,
    playwright (self st1) = Some pw /\
    browser (self st1) = Some b /\
    dict_lookup context_name (contexts (self st1)) = Some c /\
    context (self st1) = Some c /\
    page (self st1) = Some p.
Proof.
  intros H. unfold start, try_except in H.
  match type of H with
  | (let (s, st') := ?body st in _) = _ =>
      destruct (body st) as [[e|p'] st'] eqn:E
  end.
  - rewrite start_handler in H. discriminate H.
  - injection H as -> ->.
    apply ensure_playwright_inr in E.
    destruct E as (pw & s & Hpw & _ & _ & E).
    rewrite bind_get in E.
    apply (ensure_browser_inr
             (fun path =>
                Launch pw (if use_local_browser then Some path else None)
                  headless
                  match debug_port with
                  | Some port =>
                      base_args ++
                      [PyStr.lit "--remote-debugging-port="
                       ++ Json.str_of_Z port]
                  | None => base_args
                  end)) in E.
    destruct E as (b & s2 & Hb & Hpw2 & _ & E).
    rewrite bind_get in E.
    apply ensure_context_inr in E.
    destruct E as (c & s3 & Hc & Hpw3 & Hb3 & E).
    rewrite bind_modify in E.
    apply bind_perform_inr in E. destruct E as [_ E].
    rewrite bind_modify in E. unfold ret in E. injection E as <- <-.
    exists pw, b, c.
    cbn [self called assigned playwright browser contexts context page
           set_page set_context].
    rewrite Hpw3, Hpw2, Hb3. repeat split; assumption.
Qed.

Lemma start_established (headless : bool) (context_name : str)
    (use_local_browser : bool) (debug_port : option Z)
    (st : State) (pw : Playwright) (b : Browser) (c : BrowserContext) :
  playwright (self st) = Some pw ->
  browser (self st) = Some b ->
  dict_lookup context_name (contexts (self st)) = Some c ->
  fails env (trace st) (New_page c) = None ->
  start env headless context_name use_local_browser debug_port st
  = (inr (gives env (trace st) (New_page c)),
     {| self := set_page (Some (gives env (trace st) (New_page c)))
                  (set_context (Some c) (self st));
        trace := trace st ++ [New_page c];
        log := log st |}).
Proof.
  intros Hpw Hb Hc Hok. unfold start, try_except, ensure_playwright.
  rewrite bind_bind, bind_get, Hpw, bind_ret, bind_get, Hb, bind_ret,
    bind_get, Hc, bind_ret, bind_modify.
  unfold bind at 1. unfold perform.
  cbn [trace assigned]. rewrite Hok.
  rewrite bind_modify. reflexivity.
Qed.
(** X21.  After a successful [start], a second [start] with the same
    context name ignores its other arguments ([headless],
    [use_local_browser], [debug_port]): it launches nothing and makes no
    context, its only call is to open a new page in the context of that
    name, which becomes the current page. *)
Theorem second_start_only_opens_a_page
    (headless : bool) (context_name : str) (use_local_browser : bool)
    (debug_port : option Z) (st st1 : State) (p1 : Page) :
  start env headless context_name use_local_browser debug_port st
  = (inr p1, st1) ->
  exists c,
    context (self st1) = Some c /\
    forall (headless' use_local_browser' : bool) (debug_port' : option Z),
      fails env (trace st1) (New_page c) = None ->
      start env headless' context_name use_local_browser' debug_port' st1
      = (inr (gives env (trace st1) (New_page c)),
         {| self := set_page (Some (gives env (trace st1) (New_page c)))
                      (set_context (Some c) (self st1));
            trace := trace st1 ++ [New_page c];
            log := log st1 |}).
Proof.
  intros H.
  destruct (start_success headless context_name use_local_browser debug_port
              st st1 p1 H) as (pw & b & c & Hpw & Hb & Hc & Hctx & _).
  exists c. split; [exact Hctx|].
  intros headless' use_local_browser' debug_port' Hok.
  exact (start_established headless' context_name use_local_browser'
           debug_port' st1 pw b c Hpw Hb Hc Hok).
Qed.


Section NeverFails.

Hypothesis Hok : forall h c, fails env h c = None.

Lemma bind_perform_ok {B : Type} (c : call) (k : nat -> H B) (st : State) :
  bind (perform env c) k st = k (gives env (trace st) c) (called st c).
Proof. unfold bind, perform. rewrite Hok. reflexivity. Qed.

Lemma first_failure_ok (cs : list call) :
  forall h, first_failure env h cs = None.
Proof.
  induction cs as [|c cs IH]; intros h; simpl; [reflexivity|].
  rewrite Hok, IH. reflexivity.
Qed.

Lemma type_numbers_ok (p : Page) (numbers : list Z) :
  forall st : State,
    type_numbers env p numbers st =
    (inr tt,
     {| self := self st;
        trace := trace st ++ flat_map (typing_calls p) numbers;
        log := log st ++ map (fun i => (INFO, Typing i)) numbers |}).
Proof.
  induction numbers as [|i numbers IH]; intros st; simpl.
  - unfold ret. rewrite !app_nil_r. destruct st; reflexivity.
  - rewrite bind_logger, !bind_perform_ok, IH.
    unfold called, logged. cbn [self trace log].
    rewrite <- !app_assoc. reflexivity.
Qed.

Lemma start_fresh_ok (tr : list call) (lg : list (level * text)) :
  let pw := gives env tr Async_playwright_start in
  let launch := Launch pw (Some (edge_path __init__)) false base_args in
  let b := gives env (tr ++ [Async_playwright_start]) launch in
  let new_context := New_context b true user_agent in
  let c := gives env (tr ++ [Async_playwright_start; launch]) new_context in
  let grant := Grant_permissions c [PyStr.lit "notifications"] in
  let p :=
    gives env (tr ++ [Async_playwright_start; launch; new_context; grant])
      (New_page c) in
  start env false (PyStr.lit "default") true None
    {| self := __init__; trace := tr; log := lg |}
  = (inr p,
     {| self := {| playwright := Some pw; browser := Some b; page := Some p;
                   context := Some c; edge_path := edge_path __init__;
                   contexts := [(PyStr.lit "default", c)];
                   is_takeover_mode := false |};
        trace := tr ++ [Async_playwright_start; launch; new_context; grant;
                        New_page c];
        log := lg |}).
Proof.
  intros pw launch b new_context c grant p.
  unfold start, try_except, ensure_playwright.
  rewrite bind_bind, bind_get. cbn [self playwright __init__].
  rewrite bind_bind, bind_perform_ok, bind_bind, bind_modify, bind_ret.
  rewrite bind_get. cbn [self called assigned browser set_playwright __init__].
  rewrite bind_bind, bind_get, bind_bind, bind_perform_ok, bind_bind,
    bind_modify, bind_ret.
  rewrite bind_get.
  cbn [self called assigned contexts set_playwright set_browser __init__].
  cbn [dict_lookup].
  rewrite bind_bind, bind_perform_ok, bind_bind, bind_modify, bind_bind,
    bind_perform_ok, bind_ret, bind_modify, bind_perform_ok, bind_modify.
  unfold ret, called, assigned.
  cbn [self trace log set_playwright set_browser set_contexts set_context
         set_page playwright browser page context edge_path contexts
         is_takeover_mode __init__ app].
  rewrite <- !app_assoc. reflexivity.
Qed.

(** X25.  When no call of the library fails, one run of the server makes
    exactly these calls, in this order: start Playwright, launch the local
    Edge browser (not headless, with the eight base arguments), make one
    context and grant it notifications, open a page and go to the search
    site; then for each [i] from 1 to 99 fill the search box with [i],
    press Enter and wait 3000 ms; then pause, and close the page, the
    context, the browser and Playwright.  It logs one record per round. *)
Theorem server_run_full_session (st : State) :
  let h := trace st in
  let pw := gives env h Async_playwright_start in
  let launch := Launch pw (Some (edge_path __init__)) false base_args in
  let b := gives env (h ++ [Async_playwright_start]) launch in
  let new_context := New_context b true user_agent in
  let c := gives env (h ++ [Async_playwright_start; launch]) new_context in
  let grant := Grant_permissions c [PyStr.lit "notifications"] in
  let p :=
    gives env (h ++ [Async_playwright_start; launch; new_context; grant])
      (New_page c) in
  server_run env st =
  (inr tt,
   {| self := {| playwright := Some pw; browser := Some b; page := Some p;
                 context := Some c; edge_path := edge_path __init__;
                 contexts := []; is_takeover_mode := false |};
      trace :=
        h ++ [Async_playwright_start; launch; new_context; grant;
              New_page c; Goto p (PyStr.lit "https://www.baidu.com")]
          ++ flat_map (typing_calls p) range_1_100
          ++ [Pause p; Page_close p; Context_close c; Browser_close b;
              Playwright_stop pw];
      log :=
        log st ++ [(INFO, Server_started)]
          ++ map (fun i => (INFO, Typing i)) range_1_100
          ++ [(INFO, Cleaning_up)] |}).
Proof.
  intros h pw launch b new_context c grant p.
  rewrite server_run_unfold. unfold server_started, assigned, logged.
  cbn [self trace log].
  rewrite start_fresh_ok. fold h pw launch b new_context c grant p.
  rewrite bind_perform_ok.
  unfold bind at 1. rewrite type_numbers_ok.
  rewrite bind_perform_ok. unfold ret.
  rewrite close_normal by reflexivity.
  rewrite perform_all_spec, first_failure_ok.
  rewrite perform_all_spec, first_failure_ok.
  unfold called, assigned, logged, closing_before_clear, closing_after_clear.
  cbn [self trace log set_contexts playwright browser page context edge_path
         contexts is_takeover_mode map snd app].
  rewrite <- !app_assoc. reflexivity.
Qed.
End NeverFails.
End StartAndServer.

Lemma second_start_only_opens_a_page_witness :
  let first := start sample_env false (PyStr.lit "default") true None fresh in
  first = (inr 104%nat, snd first) /\
  exists c,
    context (self (snd first)) = Some c /\
    trace (snd (start sample_env true (PyStr.lit "default") false
                  (Some 9222%Z) (snd first)))
    = trace (snd first) ++ [New_page c].
Proof.
  intros first. split; [reflexivity|].
  destruct (second_start_only_opens_a_page sample_env false
              (PyStr.lit "default") true None fresh (snd first) 104%nat
              eq_refl) as (c & Hctx & Hsecond).
  exists c. split; [exact Hctx|].
  rewrite (Hsecond true false (Some 9222%Z) eq_refl). reflexivity.
Defined.


Lemma server_run_closes_twice_when_start_fails_witness :
  let env :=
    failing_env (fun c => match c with New_page _ => true | _ => false end) in
  let failed :=
    start env false (PyStr.lit "default") true None (server_started fresh) in
  failed = (inl (Library_error (PyStr.lit "Target closed")), snd failed) /\
  fst (server_run env fresh) = inr tt /\
  filter is_close_call (trace (snd (server_run env fresh)))
  = [Context_close 102%nat; Browser_close 101%nat; Playwright_stop 100%nat;
     Browser_close 101%nat; Playwright_stop 100%nat].
Proof.
  intros env failed. split; [reflexivity|].
  destruct (server_run_closes_twice_when_start_fails env fresh (snd failed)
              (Library_error (PyStr.lit "Target closed")) eq_refl)
    as [_ Hrun].
  rewrite Hrun. split; reflexivity.
Defined.

Lemma server_run_full_session_witness :
  (forall h c, fails sample_env h c = None) /\
  fst (server_run sample_env fresh) = inr tt /\
  length (trace (snd (server_run sample_env fresh))) = 308%nat /\
  contexts (self (snd (server_run sample_env fresh))) = [].
Proof.
  split; [intros h c; reflexivity|].
  rewrite (server_run_full_session sample_env (fun _ _ => eq_refl) fresh).
  split; [reflexivity|]. split; reflexivity.
Defined.

End PlaywrightFacts.
